(** * roku-pkg-cli: device discovery and deployment orchestration

    A shallow embedding of the parts of the command line tool that its
    specification makes promises about:

    - [RokuDiscovery] (lib/roku-discovery.ts): SSDP probe, subnet scan, merge
      by address and final sort;
    - [RokuAPI.testConnection] (lib/roku-api.ts);
    - [executeTask] (utils/vscode-tasks.ts): the build task runner with its
      timeout monitor;
    - [RokuDeployManager.validateProject] (lib/roku-deploy.ts);
    - the deployment and relocation steps of the [generate] command
      (commands/generate.ts);

    and of the code around them:

    - [ConfigManager] (lib/config-manager.ts) and the saves of the [add] and
      [edit] commands;
    - the build directory (utils/vscode-config.ts) and the tasks of
      tasks.json (utils/vscode-tasks.ts);
    - [RokuDeployManager.createPackage] and [zipPackage];
    - the build step of the [generate] command, its checks and rekey, and
      [discoverAndSelectDevice];
    - [RokuAPI.rekeyDevice] (lib/roku-api.ts).

    JavaScript strings are embedded as [string], a character being a code
    unit below 256; the values of JSON as [JsValue]; a JavaScript [Map] as
    an association list in insertion order; the file system as a finite map
    from resolved paths to inodes; promises by the value they settle
    with. *)

From Stdlib Require Import ZArith Ascii String SpecFloat.
From stdpp Require Import base decidable option list sorting lexico gmap strings pretty.

Local Open Scope string_scope.
Local Open Scope Z_scope.
Local Open Scope list_scope.

(** * The program *)

(** ** JavaScript strings *)

Module JsString.

(** [String.prototype.includes]. *)
Fixpoint includes (s sub : string) : bool :=
  String.prefix sub s ||
  match s with
  | EmptyString => false
  | String _ s' => includes s' sub
  end.

(** Truthiness of a string: only the empty string is falsy. *)
Definition truthy (s : string) : bool :=
  match s with EmptyString => false | _ => true end.

(** [a || b] on strings. *)
Definition or_else (a b : string) : string := if truthy a then a else b.

Fixpoint drop_while {A} (f : A → bool) (l : list A) : list A :=
  match l with
  | x :: l' => if f x then drop_while f l' else l
  | [] => []
  end.

(** The longest prefix whose characters satisfy [f], and what follows. *)
Fixpoint span (f : ascii → bool) (s : string) : string * string :=
  match s with
  | EmptyString => (EmptyString, EmptyString)
  | String c s' =>
      if f c then let '(a, b) := span f s' in (String c a, b)
      else (EmptyString, s)
  end.

(** [s.slice(n)]. *)
Fixpoint skip (n : nat) (s : string) : string :=
  match n, s with
  | S n', String _ s' => skip n' s'
  | _, _ => s
  end.

(** [String.prototype.split] at a one character separator:
    ["a..b"] split at ["."] gives [["a"; ""; "b"]]. *)
Fixpoint split (sep : ascii) (s : string) : list string :=
  match s with
  | EmptyString => [EmptyString]
  | String c s' =>
      if Ascii.eqb c sep then EmptyString :: split sep s'
      else match split sep s' with
           | seg :: segs => String c seg :: segs
           | [] => [String c EmptyString]
           end
  end.

(** White space and line terminators, among the characters a string has
    here (the code units below 256): TAB, LF, VT, FF, CR, SP and the
    no-break space. *)
Definition is_space (c : ascii) : bool :=
  Ascii.is_space c || Ascii.eqb c "160"%char.

Definition is_line_terminator (c : ascii) : bool :=
  match c with "010"%char | "013"%char => true | _ => false end.

(** [String.prototype.trim]. *)
Definition trim (s : string) : string :=
  let l := drop_while is_space (String.list_ascii_of_string s) in
  String.string_of_list_ascii
    (reverse (drop_while is_space (reverse l))).

(** The letters A to Z, and the capital letters of Latin-1 (the code units
    192 to 222, but for the multiplication sign). *)
Definition lower (c : ascii) : ascii :=
  let n := Ascii.nat_of_ascii c in
  if ((65 <=? n) && (n <=? 90))%nat
     || ((192 <=? n) && (n <=? 222) && negb (n =? 215))%nat
  then Ascii.ascii_of_nat (n + 32) else c.

Fixpoint toLowerCase (s : string) : string :=
  match s with
  | EmptyString => EmptyString
  | String c s' => String (lower c) (toLowerCase s')
  end.

(** A regular expression without the sticky flag is tried at every
    position from the left; [here] is the match attempt at one position. *)
Fixpoint search {A} (here : string → option A) (s : string) : option A :=
  match here s with
  | Some r => Some r
  | None =>
      match s with
      | EmptyString => None
      | String _ s' => search here s'
      end
  end.

End JsString.

(** ** Node's [path] module

    The program goes through [path.join] and [path.dirname], and [fs]
    finds a file under [path.resolve] of the path it is given: the path
    taken against the working directory of the process, without [.], [..]
    and repeated separators.  The theorems below hold for every
    implementation of the three, and [posix] gives the one Node uses on
    POSIX systems. *)

Class PathModule := {
  path_join : string → string → string;
  path_dirname : string → string;
  path_resolve : string → string;
}.

Module PosixPath.

Definition sep : ascii := "/"%char.

Definition is_sep (c : ascii) : bool := Ascii.eqb c sep.

Definition split_sep : string → list string := JsString.split sep.

(** [normalizeString]: the segments kept, most recent first. *)
Definition push_segment (allowAboveRoot : bool) (stack : list string)
    (seg : string) : list string :=
  if decide (seg = "" ∨ seg = ".") then stack
  else if decide (seg = "..") then
    match stack with
    | top :: rest =>
        if decide (top = "..") then seg :: stack else rest
    | [] => if allowAboveRoot then [seg] else []
    end
  else seg :: stack.

Definition join_segments (segs : list string) : string :=
  match segs with
  | [] => ""
  | s :: rest => foldl (λ acc x, acc +:+ "/" +:+ x) s rest
  end.

Definition ends_with_sep (s : string) : bool :=
  match reverse (String.list_ascii_of_string s) with
  | c :: _ => is_sep c
  | [] => false
  end.

Definition normalize (p : string) : string :=
  match p with
  | EmptyString => "."
  | String c _ =>
      let isAbsolute := is_sep c in
      let trailingSeparator := ends_with_sep p in
      let body :=
        join_segments
          (reverse (foldl (push_segment (negb isAbsolute)) [] (split_sep p))) in
      match body with
      | EmptyString =>
          if isAbsolute then "/" else if trailingSeparator then "./" else "."
      | _ =>
          let body := if trailingSeparator then body +:+ "/" else body in
          if isAbsolute then "/" +:+ body else body
      end
  end.

Definition join (a b : string) : string :=
  match a, b with
  | EmptyString, EmptyString => "."
  | EmptyString, _ => normalize b
  | _, EmptyString => normalize a
  | _, _ => normalize (a +:+ "/" +:+ b)
  end.

(** [dirname]: scanning from the right and never looking at index 0, skip
    the trailing separators, then the last segment; the separator found
    next ends the directory part. *)
Definition dirname (p : string) : string :=
  match p with
  | EmptyString => "."
  | String c rest =>
      let hasRoot := is_sep c in
      let r := reverse (String.list_ascii_of_string rest) in
      let r := JsString.drop_while is_sep r in
      let r := JsString.drop_while (λ x, negb (is_sep x)) r in
      match r with
      | [] => if hasRoot then "/" else "."
      | _ :: before =>
          if hasRoot && bool_decide (before = []) then "//"
          else String c (String.string_of_list_ascii (reverse before))
      end
  end.

(** [path.resolve(p)] in a process whose working directory is [cwd], an
    absolute path.  No separator is left at the end. *)
Definition resolve (cwd p : string) : string :=
  let p := if String.prefix "/" p then p else cwd +:+ "/" +:+ p in
  "/" +:+ join_segments (reverse (foldl (push_segment false) [] (split_sep p))).

Definition posix_at (cwd : string) : PathModule :=
  {| path_join := join; path_dirname := dirname; path_resolve := resolve cwd |}.

(** A process started in /work. *)
Definition posix : PathModule := posix_at "/work".

End PosixPath.

(** ** The file system

    Keyed by resolved path: the program may name one file by several
    spellings ([out/app.pkg], [./out/app.pkg], [/work/out/app.pkg]), and
    every reading and writing goes to the entry under [path.resolve] of the
    spelling given.  The empty path names nothing.  Links are not
    modelled, and a separator at the end of a path is not held against a
    regular file. *)

Inductive Inode :=
  | RegularFile (content : string) (mtime : Z)
  | Directory.

Abbreviation FileSystem := (gmap string Inode).

Definition stat `{PathModule} (fs : FileSystem) (p : string) : option Inode :=
  if decide (p = "") then None else fs !! path_resolve p.

(** [fs.existsSync]. *)
Definition existsSync `{PathModule} (fs : FileSystem) (p : string) : bool :=
  bool_decide (is_Some (stat fs p)).

(** The file system once the entry [p] names is written, or removed. *)
Definition write_entry `{PathModule} (p : string) (i : Inode) (fs : FileSystem)
    : FileSystem :=
  <[path_resolve p := i]> fs.

Definition remove_entry `{PathModule} (p : string) (fs : FileSystem)
    : FileSystem :=
  delete (path_resolve p) fs.

(** ** RokuDeployManager.validateProject *)

Module RokuDeployManager.
Section validate.
Context `{PathModule}.

Record ValidationResult := { valid : bool; errors : list string }.

Definition missing_manifest : string := "Missing required file: manifest".
Definition missing_source : string := "Missing required directory: source".
Definition missing_main : string := "Missing required file: source/main.brs".

Definition validateProject (fs : FileSystem) (rootDir : string)
    : ValidationResult :=
  let errors := [] in
  (* Check for manifest *)
  let manifestPath := path_join rootDir "manifest" in
  let errors :=
    if negb (existsSync fs manifestPath)
    then errors ++ [missing_manifest] else errors in
  (* Check for source directory *)
  let sourcePath := path_join rootDir "source" in
  let errors :=
    if negb (existsSync fs sourcePath)
    then errors ++ [missing_source]
    else
      (* Check for main.brs *)
      let mainPath := path_join sourcePath "main.brs" in
      if negb (existsSync fs mainPath)
      then errors ++ [missing_main] else errors in
  {| valid := bool_decide (length errors = 0%nat); errors := errors |}.

End validate.
End RokuDeployManager.

(** ** Completions and HTTP

    A call either returns or throws an [Error] with a message; an [async]
    function that throws gives a rejected promise. *)

Inductive Completion (A : Type) :=
  | Return (a : A)
  | Throw (message : string).
Arguments Return {A} a.
Arguments Throw {A} message.

Definition bind {A B} (c : Completion A) (k : A → Completion B) : Completion B :=
  match c with
  | Return a => k a
  | Throw m => Throw m
  end.

(** [try { body } catch (error) { handler }]. *)
Definition try_catch {A} (body : Completion A) (handler : string → Completion A)
    : Completion A :=
  match body with
  | Throw m => handler m
  | c => c
  end.

(** ** JavaScript values

    The values [response.data] of axios can be: a string, or what
    [JSON.parse] gives.  A number is a double. *)

#[warnings="-register-all"] Inductive JsValue :=
  | JsNull
  | JsBoolean (b : bool)
  | JsNumber (n : spec_float)
  | JsText (s : string)
  | JsArray (elements : list JsValue)
  | JsObject (properties : list (string * JsValue)).

Coercion JsText : string >-> JsValue.

Module Js.

(** [ToBoolean]. *)
Definition truthy (v : JsValue) : bool :=
  match v with
  | JsNull => false
  | JsBoolean b => b
  | JsNumber (S754_zero _) | JsNumber S754_nan => false
  | JsNumber _ => true
  | JsText s => JsString.truthy s
  | JsArray _ | JsObject _ => true
  end.

Definition is_text (s : string) (v : JsValue) : bool :=
  match v with
  | JsText s' => bool_decide (s' = s)
  | _ => false
  end.

(** [v.includes(search)] for a string [search].  Strings and arrays have
    the method, and an array includes the string when an element is that
    string.  Reading the property of [null] throws a TypeError; on every
    other value [v.includes] is [undefined], or in an object no function,
    and calling it throws a TypeError. *)
Definition includes (v : JsValue) (search : string) : Completion bool :=
  match v with
  | JsText s => Return (JsString.includes s search)
  | JsArray elements => Return (existsb (is_text search) elements)
  | JsNull => Throw "Cannot read properties of null (reading 'includes')"
  | _ => Throw "response.data.includes is not a function"
  end.

End Js.

(** What the network does with one HTTP request: a response, or a failure
    before any response (connection refused, timeout, unreachable host).
    [data] is [response.data] as axios hands it to the code under its
    default [responseType]: the body as a string, or, when the body is
    JSON, what [JSON.parse] makes of it. *)
Inductive HttpOutcome :=
  | HttpResponse (status : Z) (data : JsValue)
  | HttpFailure (code : string).

Record AxiosResponse := { status : Z; data : JsValue }.

(** axios rejects on a network failure and on a status that
    [validateStatus] turns down. *)
Definition axios_request (validateStatus : Z → bool) (o : HttpOutcome)
    : Completion AxiosResponse :=
  match o with
  | HttpResponse st d =>
      if validateStatus st then Return {| status := st; data := d |}
      else Throw ("Request failed with status code " +:+ pretty st)
  | HttpFailure code => Throw code
  end.

(** The default [validateStatus] of axios. *)
Definition status_2xx (st : Z) : bool := (200 <=? st) && (st <? 300).

(** [Promise.allSettled] reports each promise this way. *)
Inductive PromiseSettledResult (A : Type) :=
  | fulfilled (value : A)
  | rejected (reason : string).
Arguments fulfilled {A} value.
Arguments rejected {A} reason.

(** How the promise of an [async] function settles. *)
Definition settle {A} (c : Completion A) : PromiseSettledResult A :=
  match c with
  | Return a => fulfilled a
  | Throw m => rejected m
  end.

(** ** RokuDiscovery *)

Module RokuDiscovery.

(** An optional property is [None] when the object does not have it. *)
Record DiscoveredDevice := {
  ip : string;
  name : string;
  modelName : string;
  serialNumber : string;
  softwareVersion : option string;
  deviceType : option string;
}.

Global Instance DiscoveredDevice_eq_dec : EqDecision DiscoveredDevice.
Proof. solve_decision. Defined.

(** *** [Map<string, DiscoveredDevice>]: entries in insertion order *)

Abbreviation JsMap := (list (string * DiscoveredDevice)).

Fixpoint Map_get (k : string) (m : JsMap) : option DiscoveredDevice :=
  match m with
  | [] => None
  | (k', v) :: m' => if decide (k' = k) then Some v else Map_get k m'
  end.

(** Setting a key the map has keeps the entry where it is. *)
Fixpoint Map_set (k : string) (v : DiscoveredDevice) (m : JsMap) : JsMap :=
  match m with
  | [] => [(k, v)]
  | (k', v') :: m' =>
      if decide (k' = k) then (k, v) :: m' else (k', v') :: Map_set k v m'
  end.

Definition Map_values (m : JsMap) : list DiscoveredDevice := m.*2.

(** [{ ...existing, ...device }]: every property [device] has wins. *)
Definition spread (existing device : DiscoveredDevice) : DiscoveredDevice :=
  {| ip := ip device;
     name := name device;
     modelName := modelName device;
     serialNumber := serialNumber device;
     softwareVersion :=
       match softwareVersion device with
       | Some v => Some v
       | None => softwareVersion existing
       end;
     deviceType :=
       match deviceType device with
       | Some v => Some v
       | None => deviceType existing
       end |}.

(** *** parseDeviceInfo *)

(** [new RegExp(`<${tag}>([^<]+)<\/${tag}>`)] tried at one position: the
    class is followed by ["<"], so the group is the whole run. *)
Definition match_tag_here (tag s : string) : option string :=
  let opening := "<" +:+ tag +:+ ">" in
  if String.prefix opening s then
    let '(group, rest) :=
      JsString.span (λ c, negb (Ascii.eqb c "<"))
        (JsString.skip (String.length opening) s) in
    if JsString.truthy group && String.prefix ("</" +:+ tag +:+ ">") rest
    then Some group else None
  else None.

Definition getValue (xmlData tag : string) : string :=
  match JsString.search (match_tag_here tag) xmlData with
  | Some group => JsString.trim group
  | None => ""
  end.

Definition parseDeviceInfo (ip xmlData : string) : option DiscoveredDevice :=
  let getValue := getValue xmlData in
  let friendlyName :=
    JsString.or_else (getValue "friendly-device-name")
      (JsString.or_else (getValue "user-device-name") ("Roku-" +:+ ip)) in
  let modelName :=
    JsString.or_else (getValue "model-name")
      (JsString.or_else (getValue "model-number") "Unknown Roku") in
  let serialNumber := JsString.or_else (getValue "serial-number") "Unknown" in
  let softwareVersion := getValue "software-version" in
  let deviceType := getValue "device-type" in
  Some {| ip := ip;
          name := friendlyName;
          modelName := modelName;
          serialNumber := serialNumber;
          softwareVersion := Some softwareVersion;
          deviceType := Some deviceType |}.

(** [parseDeviceInfo(ip, response.data)]: [response.data] is of type [any],
    and on a value that is no string [xmlData.match] is no function; the
    [catch] of [parseDeviceInfo] makes [null] of the TypeError. *)
Definition parseDeviceInfo_data (ip : string) (xmlData : JsValue)
    : option DiscoveredDevice :=
  match xmlData with
  | JsText xmlData => parseDeviceInfo ip xmlData
  | _ => None
  end.

(** *** checkIfRokuDevice and getDeviceInfo *)

Definition checkIfRokuDevice (ip : string) (net : HttpOutcome)
    : Completion (option DiscoveredDevice) :=
  try_catch
    (bind (axios_request (λ st, st =? 200) net) (λ response,
       if Js.truthy (data response) then
         bind (Js.includes (data response) "<device-info>") (λ included,
           if included
           then Return (parseDeviceInfo_data ip (data response))
           else Return None)
       else Return None))
    (λ _, Return None).

(** [/http:\/\/([^:\/]+)/] tried at one position. *)
Definition match_host_here (s : string) : option string :=
  if String.prefix "http://" s then
    let '(group, _) :=
      JsString.span (λ c, negb (Ascii.eqb c ":" || Ascii.eqb c "/"))
        (JsString.skip 7 s) in
    if JsString.truthy group then Some group else None
  else None.

(** The request is only sent when the location holds a host. *)
Definition getDeviceInfo (location : string) (net : HttpOutcome)
    : Completion (option DiscoveredDevice) :=
  try_catch
    match JsString.search match_host_here location with
    | None => Return None
    | Some ip =>
        bind (axios_request status_2xx net) (λ deviceInfoResponse,
          if Js.truthy (data deviceInfoResponse)
          then Return (parseDeviceInfo_data ip (data deviceInfoResponse))
          else Return None)
    end
    (λ _, Return None).

(** *** discoverViaSsdp

    The promise is only ever resolved, by the timer that the callback of
    [socket.send] sets; the callback of [socket.bind] sends.  What the
    event loop delivers: *)

Inductive SocketEvent :=
  | Listening                       (* the callback of [socket.bind] *)
  | Sent (error : option string)    (* the callback of [socket.send] *)
  | WindowElapsed                   (* the timer of the send callback *)
  | Message (msg : string) (net : HttpOutcome)
      (* a ['message'] handler run to its end; [net] is what the request
         it sends, if it sends one, comes to *)
  | SocketError (error : string).   (* ['error'] *)

Record SsdpState := {
  devices : JsMap;
  listening : bool;
  timer_set : bool;
  resolved : option (list DiscoveredDevice);
}.

Definition ssdp_init : SsdpState :=
  {| devices := []; listening := false; timer_set := false; resolved := None |}.

(** [/LOCATION:\s*(.+)/i] tried at one position.  The white space run is
    given back one character at a time when nothing follows it. *)
Definition match_location_here (s : string) : option string :=
  if String.prefix "location:" (JsString.toLowerCase s) then
    let '(ws, rest) := JsString.span JsString.is_space (JsString.skip 9 s) in
    match rest with
    | String _ _ =>
        Some (JsString.span (λ c, negb (JsString.is_line_terminator c)) rest).1
    | EmptyString =>
        match JsString.drop_while JsString.is_line_terminator
                (reverse (String.list_ascii_of_string ws)) with
        | c :: _ => Some (String c EmptyString)
        | [] => None
        end
    end
  else None.

Definition on_message (devices : JsMap) (msg : string) (net : HttpOutcome)
    : JsMap :=
  let response := msg in
  if JsString.includes response "roku:ecp"
     && JsString.includes response "LOCATION:" then
    match JsString.search match_location_here response with
    | Some group =>
        let location := JsString.trim group in
        match try_catch (getDeviceInfo location net) (λ _, Return None) with
        | Return (Some device) => Map_set (ip device) device devices
        | _ => devices
        end
    | None => devices
    end
  else devices.

Definition ssdp_step (st : SsdpState) (e : SocketEvent) : SsdpState :=
  match e with
  | Listening =>
      {| devices := devices st; listening := true;
         timer_set := timer_set st; resolved := resolved st |}
  | Sent _ =>
      {| devices := devices st; listening := listening st;
         timer_set := listening st || timer_set st; resolved := resolved st |}
  | WindowElapsed =>
      if timer_set st then
        {| devices := devices st; listening := listening st;
           timer_set := false;
           resolved :=
             match resolved st with
             | Some r => Some r
             | None => Some (Map_values (devices st))
             end |}
      else st
  | Message msg net =>
      {| devices := on_message (devices st) msg net;
         listening := listening st;
         timer_set := timer_set st; resolved := resolved st |}
  | SocketError _ => st
  end.

(** [None]: the promise is still pending after these events. *)
Definition discoverViaSsdp (events : list SocketEvent)
    : option (list DiscoveredDevice) :=
  resolved (foldl ssdp_step ssdp_init events).

(** *** discoverViaNetworkScan *)

Record NetworkInterfaceInfo := {
  family : string;
  internal : bool;
  address : string;
}.

(** [interfaces]: what [os.networkInterfaces()] returns, in key order. *)
Definition getNetworkRanges
    (interfaces : list (string * list NetworkInterfaceInfo)) : list string :=
  let ranges := ["192.168.1"; "192.168.0"; "10.0.0"; "10.0.1"; "172.16.0"] in
  foldl (λ ranges entry,
    foldl (λ ranges net,
      if bool_decide (family net = "IPv4") && negb (internal net) then
        match JsString.split "." (address net) with
        | [p0; p1; p2; _] =>
            let networkBase := p0 +:+ "." +:+ p1 +:+ "." +:+ p2 in
            if bool_decide (networkBase ∈ ranges) then ranges
            else networkBase :: ranges
        | _ => ranges
        end
      else ranges) ranges entry.2) ranges interfaces.

(** The addresses the first loop calls [checkIfRokuDevice] on, in order. *)
Definition scan_addresses (networkRanges : list string) : list string :=
  range ← networkRanges;
  i ← seq 1 254;
  [range +:+ "." +:+ pretty i].

Definition chunkSize : nat := 50.

(** [for (i = 0; i < l.length; i += size) l.slice(i, i + size)]. *)
Fixpoint slices {A} (fuel size : nat) (l : list A) : list (list A) :=
  match fuel, l with
  | S fuel', _ :: _ => take size l :: slices fuel' size (drop size l)
  | _, _ => []
  end.

Definition chunks {A} (size : nat) (l : list A) : list (list A) :=
  slices (length l) size l.

Definition discoverViaNetworkScan (net : string → HttpOutcome)
    (networkRanges : list string) : list DiscoveredDevice :=
  let checkPromises :=
    (λ ip, settle (checkIfRokuDevice ip (net ip)))
      <$> scan_addresses networkRanges in
  foldl (λ devices chunk,
    let results := chunk in
    foldl (λ devices result,
      match result with
      | fulfilled (Some value) => devices ++ [value]
      | _ => devices
      end) devices results)
    [] (chunks chunkSize checkPromises).

(** What the scan does, by the order in which it does it: a request leaves
    when [checkIfRokuDevice] is called, and nothing settles before the
    function first awaits. *)
Inductive ScanEvent :=
  | RequestIssued (ip : string)
  | AwaitAllSettled (chunk : list string).

Definition discoverViaNetworkScan_events (networkRanges : list string)
    : list ScanEvent :=
  let checkPromises := scan_addresses networkRanges in
  (RequestIssued <$> checkPromises)
  ++ (AwaitAllSettled <$> chunks chunkSize checkPromises).

(** The requests that may be in flight after each event: a request is in
    flight from the moment it is issued, and is known to have settled once
    an await has handed its result back.  Before the first await the list
    is exact: the function has not yielded, so nothing has settled. *)
Definition scan_step (in_flight : list string) (e : ScanEvent) : list string :=
  match e with
  | RequestIssued ip => ip :: in_flight
  | AwaitAllSettled chunk =>
      filter (λ ip, ip ∉ chunk) in_flight
  end.

Definition in_flight_after (events : list ScanEvent) : list string :=
  foldl scan_step [] events.

(** *** discoverDevices *)

Section discover.
(** [String.prototype.localeCompare], as the runtime's collation has it. *)
Variable localeCompare : string → string → Z.

Definition by_name (a b : DiscoveredDevice) : Prop :=
  localeCompare (name a) (name b) ≤ 0.

Global Instance by_name_dec : RelDecision by_name.
Proof. intros a b. unfold by_name. apply _. Defined.

(** [Array.prototype.sort((a, b) => a.name.localeCompare(b.name))].  The
    sort is stable: taken from the last to the first, each device is put in
    front of the first device that it does not come after.  For a
    comparator that is a total preorder this is the one order a stable sort
    can give. *)
Fixpoint insert_by_name (a : DiscoveredDevice) (l : list DiscoveredDevice)
    : list DiscoveredDevice :=
  match l with
  | [] => [a]
  | b :: l' => if decide (by_name a b) then a :: l else b :: insert_by_name a l'
  end.

Definition sort_by_name (l : list DiscoveredDevice) : list DiscoveredDevice :=
  foldr insert_by_name [] l.

Definition merge_ssdp (devices : JsMap) (value : list DiscoveredDevice)
    : JsMap :=
  foldl (λ devices device, Map_set (ip device) device devices) devices value.

Definition merge_network (devices : JsMap) (value : list DiscoveredDevice)
    : JsMap :=
  foldl (λ devices device,
    match Map_get (ip device) devices with
    | Some existing => Map_set (ip device) (spread existing device) devices
    | None => Map_set (ip device) device devices
    end) devices value.

Definition discoverDevices
    (ssdpDevices networkDevices : PromiseSettledResult (list DiscoveredDevice))
    : Completion (list DiscoveredDevice) :=
  let devices : JsMap := [] in
  let devices :=
    match ssdpDevices with
    | fulfilled value => merge_ssdp devices value
    | rejected _ => devices
    end in
  let devices :=
    match networkDevices with
    | fulfilled value => merge_network devices value
    | rejected _ => devices
    end in
  Return (sort_by_name (Map_values devices)).

(** [discoverDevices] over what the network does: the socket events of
    the SSDP probe and the answer to each request of the scan.  [None]
    while the SSDP promise is pending. *)
Definition discover (events : list SocketEvent) (net : string → HttpOutcome)
    (interfaces : list (string * list NetworkInterfaceInfo))
    : option (Completion (list DiscoveredDevice)) :=
  ssdp ← discoverViaSsdp events;
  Some (discoverDevices
          (fulfilled ssdp)
          (fulfilled (discoverViaNetworkScan net (getNetworkRanges interfaces)))).

End discover.

(** *** testDevice *)

Definition testDevice (device : DiscoveredDevice) (net : HttpOutcome)
    : Completion bool :=
  try_catch
    (bind (axios_request status_2xx net) (λ response,
       Return (bool_decide (status response = 200))))
    (λ _, Return false).

End RokuDiscovery.

(** ** RokuAPI *)

Module RokuAPI.

Record Auth := { username : string; password : string }.

Record RokuAPI := { baseUrl : string; auth : Auth }.

Definition new (ip password : string) : RokuAPI :=
  {| baseUrl := "http://" +:+ ip;
     auth := {| username := "rokudev"; password := password |} |}.

(** What a request carries, as far as the device can tell requests apart:
    the URL and the [auth] option of axios. *)
Record Request := { url : string; credentials : option Auth }.

Global Instance Auth_eq_dec : EqDecision Auth.
Proof. solve_decision. Defined.

(** [axios.get(`${this.baseUrl}:8060/query/device-info`)]: no config. *)
Definition testConnection_request (this : RokuAPI) : Request :=
  {| url := baseUrl this +:+ ":8060/query/device-info"; credentials := None |}.

Definition testConnection (this : RokuAPI) (device : Request → HttpOutcome)
    : Completion bool :=
  try_catch
    (bind (axios_request status_2xx (device (testConnection_request this)))
       (λ _, Return true))
    (λ _, Return false).

(** The request of [rekeyDevice] (and likewise of [createPackage]) passes
    [auth: this.auth]. *)
Definition rekeyDevice_request (this : RokuAPI) : Request :=
  {| url := baseUrl this +:+ "/plugin_install"; credentials := Some (auth this) |}.

(** A device in developer mode: the ECP port answers anyone, the installer
    pages answer 401 unless the request carries the developer password. *)
Definition developer_device (ip secret : string) (r : Request) : HttpOutcome :=
  if String.prefix ("http://" +:+ ip +:+ ":8060/") (url r) then
    HttpResponse 200 "<device-info></device-info>"
  else if String.prefix ("http://" +:+ ip +:+ "/") (url r) then
    if bool_decide
         (credentials r = Some {| username := "rokudev"; password := secret |})
    then HttpResponse 200 "" else HttpResponse 401 ""
  else HttpFailure "ECONNREFUSED".

End RokuAPI.

(** ** executeTask (utils/vscode-tasks.ts) *)

Module VscodeTasks.

Record VSCodeTask := {
  label : string;
  type : string;
  command : option string;
  script : option string;
  args : option (list string);
  cwd : option string;
}.

Definition dquote : string := String (Ascii.ascii_of_nat 34) EmptyString.

Definition truthy_opt (o : option string) : bool :=
  match o with Some s => JsString.truthy s | None => false end.

(** The command line, or the rejection when there is none. *)
Definition resolve_command (task : VSCodeTask)
    : Completion (string * list string) :=
  if bool_decide (type task = "npm") && truthy_opt (script task) then
    Return ("npm", ["run"; default "" (script task)])
  else if bool_decide (type task = "shell") && truthy_opt (command task) then
    match JsString.split " " (default "" (command task)) with
    | command :: rest => Return (command, rest ++ default [] (args task))
    | [] => Return ("", default [] (args task))
    end
  else if truthy_opt (command task) then
    Return (default "" (command task), default [] (args task))
  else Throw ("Cannot determine command for task: " +:+ label task).

Inductive Signal := SIGTERM | SIGKILL.

Global Instance Signal_eq_dec : EqDecision Signal.
Proof. solve_decision. Defined.

(** [child.killed] is set by a [kill] that delivered its signal; [running]
    is false once the process is gone, and then [kill] delivers nothing. *)
Record ChildProcess := { killed : bool; running : bool }.

(** [child.kill(sig)]: the child after the call, and the signal if one was
    delivered. *)
Definition kill (child : ChildProcess) (sig : Signal)
    : ChildProcess * option Signal :=
  if running child then ({| killed := true; running := true |}, Some sig)
  else (child, None).

Inductive TaskEvent :=
  | TimeoutElapsed             (* the timer of [timeout] ms *)
  | EscalationElapsed          (* the timer of 5000 ms set by the first *)
  | Close (code : option Z)    (* ['close']: the exit code, [null] after a signal *)
  | ChildError (message : string).   (* ['error'] *)

Record TaskState := {
  child : ChildProcess;
  timeoutId : bool;            (* the timeout timer is pending *)
  escalation : bool;           (* the 5000 ms timer is pending *)
  delivered : list Signal;     (* signals delivered to the process, in order *)
  settled : option (Completion ());
}.

Definition terminated_message (task : VSCodeTask) : string :=
  "Task " +:+ dquote +:+ label task +:+ dquote +:+ " was terminated".

Definition failed_message (task : VSCodeTask) (code : Z) : string :=
  "Task " +:+ dquote +:+ label task +:+ dquote
  +:+ " failed with exit code " +:+ pretty code.

(** The state once the child is spawned; [timeout] is falsy when absent
    or 0. *)
Definition spawned (timeout : option Z) : TaskState :=
  {| child := {| killed := false; running := true |};
     timeoutId := match timeout with Some t => negb (t =? 0) | None => false end;
     escalation := false;
     delivered := [];
     settled := None |}.

(** A promise settles once. *)
Definition settle_once (old : option (Completion ())) (c : Completion ())
    : option (Completion ()) :=
  match old with Some r => Some r | None => Some c end.

Definition task_step (task : VSCodeTask) (st : TaskState) (e : TaskEvent)
    : TaskState :=
  match e with
  | TimeoutElapsed =>
      if timeoutId st then
        let '(child', sent) := kill (child st) SIGTERM in
        {| child := child'; timeoutId := false; escalation := true;
           delivered := delivered st ++ option_list sent;
           settled := settled st |}
      else st
  | EscalationElapsed =>
      if escalation st then
        if negb (killed (child st)) then
          let '(child', sent) := kill (child st) SIGKILL in
          {| child := child'; timeoutId := timeoutId st; escalation := false;
             delivered := delivered st ++ option_list sent;
             settled := settled st |}
        else
          {| child := child st; timeoutId := timeoutId st; escalation := false;
             delivered := delivered st; settled := settled st |}
      else st
  | Close code =>
      {| child := {| killed := killed (child st); running := false |};
         timeoutId := false; escalation := escalation st;
         delivered := delivered st;
         settled :=
           settle_once (settled st)
             match code with
             | Some 0 => Return ()
             | None => Throw (terminated_message task)
             | Some code => Throw (failed_message task code)
             end |}
  | ChildError err =>
      {| child := child st; timeoutId := false; escalation := escalation st;
         delivered := delivered st;
         settled := settle_once (settled st) (Throw err) |}
  end.

(** The task's promise and process after the events; [None] in [settled]
    while the promise is pending.  A task without a command is rejected
    before anything is spawned. *)
Definition executeTask (task : VSCodeTask) (timeout : option Z)
    (events : list TaskEvent) : TaskState :=
  match resolve_command task with
  | Throw m =>
      {| child := {| killed := false; running := false |};
         timeoutId := false; escalation := false; delivered := [];
         settled := Some (Throw m) |}
  | Return _ => foldl (task_step task) (spawned timeout) events
  end.

(** The caller's test for a timeout (commands/generate.ts):
    [error.message.includes('timed out')]. *)
Definition reported_as_timeout (result : option (Completion ())) : bool :=
  match result with
  | Some (Throw message) => JsString.includes message "timed out"
  | _ => false
  end.

End VscodeTasks.

(** ** The generate command (commands/generate.ts): deploy and relocate *)

Module Generate.

Record Project := {
  name : string;
  rootDir : string;
  signKey : string;
  signPackageLocation : string;
  outputLocation : string;
}.

(** The flags of the command that the steps below and the build step
    read. *)
Record Options := {
  skipBuild : bool;
  skipRekey : bool;
  packageOnly : bool;
  buildTask : option string;
  useExistingBuild : bool;
}.

(** What the command does to the outside, in order. *)
Inductive Effect :=
  | DeployAndSign (timeout : Z)     (* the deploy raced against the timer *)
  | CreatePackage                   (* [deployManager.createPackage] *)
  | Prompt (question : string)      (* an [inquirer] confirmation *)
  | CopyFile (src dest : string)    (* [fs.copyFileSync] *)
  | Unlink (path : string).         (* [fs.unlinkSync] *)

Record World := {
  files : FileSystem;
  now : Z;                          (* the clock that stamps written files *)
  effects : list Effect;
}.

(** How a step of the action ends: it goes on with a value, throws, makes
    the action return, or ends the process. *)
Inductive Step (A : Type) :=
  | Next (a : A)
  | Throws (message : string)
  | Returns
  | Exits (code : Z).
Arguments Next {A} a.
Arguments Throws {A} message.
Arguments Returns {A}.
Arguments Exits {A} code.

Definition M (A : Type) : Type := World → Step A * World.

Global Instance M_ret : MRet M := λ A a w, (Next a, w).

Global Instance M_bind : MBind M := λ A B k m w,
  match m w with
  | (Next a, w') => k a w'
  | (Throws msg, w') => (Throws msg, w')
  | (Returns, w') => (Returns, w')
  | (Exits n, w') => (Exits n, w')
  end.

Definition throw {A} (message : string) : M A := λ w, (Throws message, w).
Definition process_exit {A} (code : Z) : M A := λ w, (Exits code, w).
Definition action_return {A} : M A := λ w, (Returns, w).

Definition emit (e : Effect) : M () := λ w,
  (Next (),
   {| files := files w; now := now w; effects := effects w ++ [e] |}).

Definition try_catchM {A} (body : M A) (handler : string → M A) : M A := λ w,
  match body w with
  | (Throws msg, w') => handler msg w'
  | r => r
  end.

Section relocate.
Context `{PathModule}.

(** [fs.copyFileSync]: the destination gets the content, stamped now.
    When the two paths name one file the call succeeds and copies
    nothing. *)
Definition copyFileSync (src dest : string) : M () := λ w,
  match stat (files w) src with
  | Some (RegularFile content _) =>
      if decide (dest = "") then
        (Throws "ENOENT: no such file or directory, copyfile", w)
      else if decide (path_resolve src = path_resolve dest) then
        emit (CopyFile src dest) w
      else
        match stat (files w) dest with
        | Some Directory =>
            (Throws "EISDIR: illegal operation on a directory, copyfile", w)
        | _ =>
            emit (CopyFile src dest)
              {| files := write_entry dest (RegularFile content (now w)) (files w);
                 now := now w; effects := effects w |}
        end
  | Some Directory => (Throws "EISDIR: illegal operation on a directory, copyfile", w)
  | None => (Throws "ENOENT: no such file or directory, copyfile", w)
  end.

(** [fs.unlinkSync]: the file is gone under every spelling. *)
Definition unlinkSync (path : string) : M () := λ w,
  match stat (files w) path with
  | Some (RegularFile _ _) =>
      emit (Unlink path)
        {| files := remove_entry path (files w);
           now := now w; effects := effects w |}
  | Some Directory => (Throws "EPERM: operation not permitted, unlink", w)
  | None => (Throws "ENOENT: no such file or directory, unlink", w)
  end.

(** [fs.statSync(path).size]. *)
Definition statSync_size (path : string) : M nat := λ w,
  match stat (files w) path with
  | Some (RegularFile content _) => (Next (String.length content), w)
  | Some Directory => (Next 0%nat, w)
  | None => (Throws "ENOENT: no such file or directory, stat", w)
  end.

(** The Deployment Backend (roku-deploy behind [RokuDeployManager]) and the
    person at the prompt.  A backend call that settles may have written
    files; [deploy_duration] is how long [deployAndSignPackage] takes to
    settle, [None] when it never does.  A deploy that loses the race is not
    cancelled: [deploy_in_flight] is what it has made of the files by the
    time the person has answered the prompt (what it does after that,
    while [createPackage] runs, is part of what that call leaves). *)
Record Collaborators := {
  deploy_duration : option Z;
  deployAndSignPackage : FileSystem → Completion string * FileSystem;
  deploy_in_flight : FileSystem → FileSystem;
  createPackage : FileSystem → Completion string * FileSystem;
  trySimple : bool;
}.

Definition backend_call (call : FileSystem → Completion string * FileSystem)
    : M string := λ w,
  let '(r, files') := call (files w) in
  let w' := {| files := files'; now := now w; effects := effects w |} in
  match r with
  | Return p => (Next p, w')
  | Throw msg => (Throws msg, w')
  end.

Definition timeout_message : string := "Deployment timed out after 5 minutes".

Definition fallback_question : string :=
  "Would you like to create a package without deployment (requires app already on device)?".

Definition deploymentTimeout (options : Options) : Z :=
  if skipBuild options then 180000 else 300000.

(** The deploy that lost the race goes on in the background.  The action
    does not look at the files before the prompt is answered, so what the
    deploy has written by then is taken in here. *)
Definition left_running (c : Collaborators) : M () := λ w,
  (Next (),
   {| files := deploy_in_flight c (files w); now := now w; effects := effects w |}).

(** [Promise.race] of the deploy and the timer: the deploy wins when it
    settles before the timer fires. *)
Definition race (c : Collaborators) (timeout : Z) : M string :=
  _ ← emit (DeployAndSign timeout);
  match deploy_duration c with
  | Some d =>
      if d <? timeout then backend_call (deployAndSignPackage c)
      else _ ← left_running c; throw timeout_message
  | None => _ ← left_running c; throw timeout_message
  end.

(** Step 4: deploy and create the signed package. *)
Definition deploy_step (options : Options) (c : Collaborators) : M string :=
  if packageOnly options then
    try_catchM
      (_ ← emit CreatePackage; backend_call (createPackage c))
      (λ _, action_return)
  else
    let deploymentTimeout := deploymentTimeout options in
    try_catchM (race c deploymentTimeout)
      (λ timeoutError,
         if JsString.includes timeoutError "timed out" then
           _ ← emit (Prompt fallback_question);
           if trySimple c then
             _ ← emit CreatePackage; backend_call (createPackage c)
           else process_exit 1
         else throw timeoutError).

(** Step 5: move the package to the desired location if needed. *)
Definition relocate (packagePath outputLocation : string) : M string :=
  if JsString.truthy packagePath && bool_decide (packagePath ≠ outputLocation)
  then
    _ ← copyFileSync packagePath outputLocation;
    _ ← (if bool_decide (path_dirname packagePath ≠ path_dirname outputLocation)
         then unlinkSync packagePath else mret ());
    mret outputLocation
  else mret packagePath.

(** After step 5: the size of the file at the output path is read and
    reported, the device is sent home (best effort, it touches nothing
    here), and the process exits with 0. *)
Definition move_and_report (packagePath outputLocation : string) : M () :=
  _ ← relocate packagePath outputLocation;
  _ ← statSync_size outputLocation;
  process_exit 0.

(** From step 4 to the end of the action; what is thrown on the way is
    caught by the action's own handler, which reports it and returns. *)
Definition deploy_and_relocate (options : Options) (project : Project)
    (c : Collaborators) : M () :=
  try_catchM
    (packagePath ← deploy_step options c;
     move_and_report packagePath (outputLocation project))
    (λ _, action_return).

End relocate.

(** The exit status of the process: [process.exit]'s argument, and 0 when
    the action returned and the process ran out of work. *)
Definition exit_status {A} (s : Step A) : Z :=
  match s with
  | Exits code => code
  | Throws _ => 1     (* an unhandled rejection *)
  | _ => 0
  end.

End Generate.

(** ** A collation for [localeCompare]

    [String.prototype.localeCompare] compares by the collation of the
    runtime's locale, not by character code.  [RootCollation] is the order
    of the Unicode root collation (which English uses) on ASCII letters and
    digits: first by the letters whatever their case, digits before letters;
    strings that agree that far are told apart by case, lower case first.
    Other characters are given weights below the digits, in code order. *)

Module RootCollation.

Definition primary (c : ascii) : N :=
  let n := Ascii.N_of_ascii c in
  if ((65 <=? n) && (n <=? 90))%N then 1000 + n + 32
  else if ((97 <=? n) && (n <=? 122))%N then 1000 + n
  else if ((48 <=? n) && (n <=? 57))%N then 500 + n
  else n.

Definition tertiary (c : ascii) : N :=
  let n := Ascii.N_of_ascii c in
  if ((65 <=? n) && (n <=? 90))%N then 1%N else 0%N.

Definition sort_key (s : string) : list N * list N :=
  (primary <$> String.list_ascii_of_string s,
   tertiary <$> String.list_ascii_of_string s).

Definition localeCompare (a b : string) : Z :=
  match trichotomyT lexico (sort_key a) (sort_key b) with
  | inleft (left _) => -1
  | inleft (right _) => 0
  | inright _ => 1
  end.

End RootCollation.

(** ** Notions the properties are stated with *)

Module Notions.
Import RokuDiscovery.

(** Every entry of the map is filed under the address of its device. *)
Definition keyed_by_ip (m : JsMap) : Prop := m.*1 = ip <$> Map_values m.

Definition well_formed (m : JsMap) : Prop := keyed_by_ip m ∧ NoDup m.*1.

(** What the scan's record becomes when it meets the map. *)
Definition merged (m : JsMap) (b : DiscoveredDevice) : DiscoveredDevice :=
  match Map_get (ip b) m with
  | Some existing => spread existing b
  | None => b
  end.

(** The devices of a settled strategy: none when it was rejected. *)
Definition found_by (o : PromiseSettledResult (list DiscoveredDevice))
    : list DiscoveredDevice :=
  match o with
  | fulfilled value => value
  | rejected _ => []
  end.

(** A comparator the sort is specified for: a total preorder. *)
Definition consistent (compare : string → string → Z) : Prop :=
  (∀ a b, compare a b ≤ 0 ∨ compare b a ≤ 0)
  ∧ (∀ a b c, compare a b ≤ 0 → compare b c ≤ 0 → compare a c ≤ 0).

(** The request got no response. *)
Definition failed (o : HttpOutcome) : Prop :=
  match o with
  | HttpFailure _ => True
  | HttpResponse _ _ => False
  end.

(** What reaches the socket between the send and the end of the window. *)
Definition traffic (e : SocketEvent) : Prop :=
  match e with
  | Message _ _ | SocketError _ => True
  | _ => False
  end.

Definition request_failed (e : SocketEvent) : Prop :=
  match e with
  | Message _ net => failed net
  | _ => True
  end.

(** A whole run of the SSDP probe: the socket binds, the search is sent
    (or the send fails), datagrams and socket errors arrive, the discovery
    window ends. *)
Definition ssdp_run (send_error : option string) (arrivals : list SocketEvent)
    : list SocketEvent :=
  Listening :: Sent send_error :: arrivals ++ [WindowElapsed].

(** What [discoverViaNetworkScan] keeps of a settled probe. *)
Definition kept (r : PromiseSettledResult (option DiscoveredDevice))
    : option DiscoveredDevice :=
  match r with
  | fulfilled (Some value) => Some value
  | _ => None
  end.

Fixpoint has_dot (s : string) : bool :=
  match s with
  | EmptyString => false
  | String c s' => Ascii.eqb c "." || has_dot s'
  end.

(** The events up to the first await: all of them happen before anything
    can settle. *)
Fixpoint before_first_await (events : list ScanEvent) : list ScanEvent :=
  match events with
  | RequestIssued ip :: rest => RequestIssued ip :: before_first_await rest
  | _ => []
  end.

(** When the 5000 ms timer is pending, the child has either taken the
    first signal or is gone. *)
Definition escalation_is_idle (st : VscodeTasks.TaskState) : Prop :=
  (VscodeTasks.SIGKILL ∉ VscodeTasks.delivered st)
  ∧ (VscodeTasks.escalation st = true →
     VscodeTasks.killed (VscodeTasks.child st) = true
     ∨ VscodeTasks.running (VscodeTasks.child st) = false).



End Notions.


(** ** Concrete inputs *)

Module Scenario.

(** One device seen by both probes, one seen by each alone.  The two
    records of the first differ in the optional properties they have. *)
Definition bedroom_ssdp : RokuDiscovery.DiscoveredDevice :=
  {| RokuDiscovery.ip := "192.168.1.20";
     RokuDiscovery.name := "bedroom";
     RokuDiscovery.modelName := "Roku Ultra";
     RokuDiscovery.serialNumber := "X004000B231";
     RokuDiscovery.softwareVersion := Some "11.5.0";
     RokuDiscovery.deviceType := None |}.

Definition bedroom_scan : RokuDiscovery.DiscoveredDevice :=
  {| RokuDiscovery.ip := "192.168.1.20";
     RokuDiscovery.name := "bedroom";
     RokuDiscovery.modelName := "Roku Ultra";
     RokuDiscovery.serialNumber := "X004000B231";
     RokuDiscovery.softwareVersion := None;
     RokuDiscovery.deviceType := Some "box" |}.

Definition kitchen : RokuDiscovery.DiscoveredDevice :=
  {| RokuDiscovery.ip := "192.168.1.21";
     RokuDiscovery.name := "kitchen";
     RokuDiscovery.modelName := "Roku Express";
     RokuDiscovery.serialNumber := "YH009E123456";
     RokuDiscovery.softwareVersion := Some "11.5.0";
     RokuDiscovery.deviceType := Some "stick" |}.

Definition living_room : RokuDiscovery.DiscoveredDevice :=
  {| RokuDiscovery.ip := "192.168.1.30";
     RokuDiscovery.name := "Living Room";
     RokuDiscovery.modelName := "Roku TV";
     RokuDiscovery.serialNumber := "YN00AB654321";
     RokuDiscovery.softwareVersion := Some "12.0.0";
     RokuDiscovery.deviceType := Some "tv" |}.

(** A network on which nothing answers. *)
Definition dead_network (addr : string) : HttpOutcome := HttpFailure "ECONNREFUSED".

Definition crlf : string :=
  String (Ascii.ascii_of_nat 13) (String (Ascii.ascii_of_nat 10) EmptyString).

(** The reply of a Roku to the search, and its device-info document. *)
Definition ssdp_reply : string :=
  "HTTP/1.1 200 OK" +:+ crlf
  +:+ "Cache-Control: max-age=3600" +:+ crlf
  +:+ "ST: roku:ecp" +:+ crlf
  +:+ "USN: uuid:roku:ecp:X004000B231" +:+ crlf
  +:+ "Ext: " +:+ crlf
  +:+ "Server: Roku/11.5.0 UPnP/1.0 Roku/11.5.0" +:+ crlf
  +:+ "LOCATION: http://192.168.1.20:8060/" +:+ crlf +:+ crlf.

Definition device_info : string :=
  "<device-info><serial-number>X004000B231</serial-number>"
  +:+ "<model-name>Roku Ultra</model-name>"
  +:+ "<friendly-device-name> bedroom </friendly-device-name>"
  +:+ "<user-device-name></user-device-name>"
  +:+ "<software-version>11.5.0</software-version></device-info>".

Definition lost_reply : RokuDiscovery.SocketEvent :=
  RokuDiscovery.Message ssdp_reply (HttpFailure "ETIMEDOUT").

(** A machine with a loopback, a wired and a wireless interface. *)
Definition interfaces : list (string * list RokuDiscovery.NetworkInterfaceInfo) :=
  [("lo", [{| RokuDiscovery.family := "IPv4";
              RokuDiscovery.internal := true;
              RokuDiscovery.address := "127.0.0.1" |}]);
   ("eth0", [{| RokuDiscovery.family := "IPv6";
                RokuDiscovery.internal := false;
                RokuDiscovery.address := "fe80::1" |};
             {| RokuDiscovery.family := "IPv4";
                RokuDiscovery.internal := false;
                RokuDiscovery.address := "192.168.86.23" |}]);
   ("wlan0", [{| RokuDiscovery.family := "IPv4";
                 RokuDiscovery.internal := false;
                 RokuDiscovery.address := "10.0.0.5" |}])].

Definition build_task : VscodeTasks.VSCodeTask :=
  {| VscodeTasks.label := "build";
     VscodeTasks.type := "shell";
     VscodeTasks.command := Some "npm run build";
     VscodeTasks.script := None;
     VscodeTasks.args := None;
     VscodeTasks.cwd := None |}.

Definition demo : Generate.Project :=
  {| Generate.name := "Demo";
     Generate.rootDir := "/app";
     Generate.signKey := "abc";
     Generate.signPackageLocation := "/ref.pkg";
     Generate.outputLocation := "/out/demo.pkg" |}.

(** The backend has left the artifact in its staging directory. *)
Definition staged : Generate.World :=
  {| Generate.files :=
       {[ "/tmp/staged/demo.pkg" := RegularFile "signed package" 10 ]};
     Generate.now := 20;
     Generate.effects := [] |}.

(** A device that never finishes the deploy, which writes nothing, and a
    user who declines. *)
Definition stalled_and_declined : Generate.Collaborators :=
  {| Generate.deploy_duration := None;
     Generate.deployAndSignPackage := λ files, (Throw "unreachable", files);
     Generate.deploy_in_flight := λ files, files;
     Generate.createPackage := λ files,
       (Return "/tmp/staged/demo.pkg",
        <["/tmp/staged/demo.pkg" := RegularFile "signed package" 10]> files);
     Generate.trySimple := false |}.

Definition fresh_build : Generate.Options :=
  {| Generate.skipBuild := false;
     Generate.skipRekey := false;
     Generate.packageOnly := false;
     Generate.buildTask := Some "build";
     Generate.useExistingBuild := false |}.

Definition skipped_build : Generate.Options :=
  {| Generate.skipBuild := true;
     Generate.skipRekey := false;
     Generate.packageOnly := false;
     Generate.buildTask := None;
     Generate.useExistingBuild := false |}.

Definition existing_build : Generate.Options :=
  {| Generate.skipBuild := false;
     Generate.skipRekey := false;
     Generate.packageOnly := false;
     Generate.buildTask := None;
     Generate.useExistingBuild := true |}.

End Scenario.

(** ** The saved configuration (types.ts, lib/config-manager.ts)

    An optional property is [None] when the object does not have it. *)

Module RokuDevice.
Record t := {
  ip : string;
  password : string;
  name : option string;
  modelName : option string;
  serialNumber : option string;
  softwareVersion : option string;
}.
End RokuDevice.

Module Project.
Record t := {
  name : string;
  rootDir : string;
  signKey : string;
  signPackageLocation : string;
  outputLocation : string;
  files : option (list string);
}.
End Project.

(** [Partial<Project>]. *)
Module PartialProject.
Record t := {
  name : option string;
  rootDir : option string;
  signKey : option string;
  signPackageLocation : option string;
  outputLocation : option string;
  files : option (list string);
}.
End PartialProject.

Module ConfigManager.

Record Config := {
  rokuDevice : RokuDevice.t;
  projects : list Project.t;
}.

(** [config] is [this.config]; [file] is what config.json holds, [None]
    when there is no such file.  [JSON.parse] is taken to give back what
    [JSON.stringify] was given. *)
Record ConfigManager := {
  config : Config;
  file : option Config;
}.

Definition initial : Config :=
  {| rokuDevice :=
       {| RokuDevice.ip := ""; RokuDevice.password := "";
          RokuDevice.name := None; RokuDevice.modelName := None;
          RokuDevice.serialNumber := None; RokuDevice.softwareVersion := None |};
     projects := [] |}.

Definition saveConfig (this : ConfigManager) : ConfigManager :=
  {| config := config this; file := Some (config this) |}.

Definition loadConfig (this : ConfigManager) : ConfigManager :=
  match file this with
  | Some data => {| config := data; file := file this |}
  | None => saveConfig {| config := initial; file := file this |}
  end.

(** [new ConfigManager()], over the file as it is found. *)
Definition new (file : option Config) : ConfigManager :=
  loadConfig {| config := initial; file := file |}.

Definition getConfig (this : ConfigManager) : Config := config this.

Definition getRokuDevice (this : ConfigManager) : RokuDevice.t :=
  rokuDevice (config this).

Definition setRokuDevice (this : ConfigManager) (device : RokuDevice.t)
    : ConfigManager :=
  saveConfig
    {| config := {| rokuDevice := device; projects := projects (config this) |};
       file := file this |}.

Definition getProjects (this : ConfigManager) : list Project.t :=
  projects (config this).

(** [this.config.projects = l]. *)
Definition with_projects (this : ConfigManager) (l : list Project.t)
    : ConfigManager :=
  {| config := {| rokuDevice := rokuDevice (config this); projects := l |};
     file := file this |}.

(** [p => p.name === name]. *)
Definition named (name : string) (p : Project.t) : Prop := Project.name p = name.

Global Instance named_dec name p : Decision (named name p).
Proof. unfold named. apply _. Defined.

(** [Array.prototype.find]: the first match. *)
Definition getProject (this : ConfigManager) (name : string)
    : option Project.t :=
  snd <$> list_find (named name) (projects (config this)).

Definition addProject (this : ConfigManager) (project : Project.t)
    : ConfigManager :=
  saveConfig (with_projects this (projects (config this) ++ [project])).

(** [{ ...existing, ...updates }]. *)
Definition spread (existing : Project.t) (updates : PartialProject.t)
    : Project.t :=
  {| Project.name := default (Project.name existing) (PartialProject.name updates);
     Project.rootDir :=
       default (Project.rootDir existing) (PartialProject.rootDir updates);
     Project.signKey :=
       default (Project.signKey existing) (PartialProject.signKey updates);
     Project.signPackageLocation :=
       default (Project.signPackageLocation existing)
         (PartialProject.signPackageLocation updates);
     Project.outputLocation :=
       default (Project.outputLocation existing)
         (PartialProject.outputLocation updates);
     Project.files :=
       match PartialProject.files updates with
       | Some v => Some v
       | None => Project.files existing
       end |}.

(** [findIndex] gives the first match; the flag returned is whether there
    was one. *)
Definition updateProject (this : ConfigManager) (name : string)
    (updates : PartialProject.t) : bool * ConfigManager :=
  match list_find (named name) (projects (config this)) with
  | Some (index, existing) =>
      (true,
       saveConfig
         (with_projects this
            (<[index := spread existing updates]> (projects (config this)))))
  | None => (false, this)
  end.

(** [splice(index, 1)]. *)
Definition removeProject (this : ConfigManager) (name : string)
    : bool * ConfigManager :=
  match list_find (named name) (projects (config this)) with
  | Some (index, _) =>
      (true, saveConfig (with_projects this (delete index (projects (config this)))))
  | None => (false, this)
  end.

(** A call of a method that writes, and what a run of calls leaves. *)
Inductive Call :=
  | SetRokuDevice (device : RokuDevice.t)
  | AddProject (project : Project.t)
  | UpdateProject (name : string) (updates : PartialProject.t)
  | RemoveProject (name : string).

Definition call (this : ConfigManager) (c : Call) : ConfigManager :=
  match c with
  | SetRokuDevice device => setRokuDevice this device
  | AddProject project => addProject this project
  | UpdateProject name updates => (updateProject this name updates).2
  | RemoveProject name => (removeProject this name).2
  end.

End ConfigManager.

(** ** The name prompt and the save of [add] and [edit]
    (commands/add.ts, commands/edit.ts) *)

Module ProjectCommands.
Import ConfigManager.

(** What the prompts hand back once each has accepted its input. *)
Module Answers.
Record t := {
  name : string;
  rootDir : string;
  signKey : string;
  signPackageLocation : string;
  outputLocation : string;
}.
End Answers.

(** The value of a [validate] function: [true], or the message shown. *)
Inductive Validation :=
  | Accepted
  | Refused (message : string).

Definition is_name_char (c : ascii) : bool :=
  let n := Ascii.nat_of_ascii c in
  ((97 <=? n) && (n <=? 122) || (65 <=? n) && (n <=? 90)
   || (48 <=? n) && (n <=? 57) || (n =? 95) || (n =? 45))%nat.

(** [/^[a-zA-Z0-9_-]+$/.test(input)]. *)
Definition name_pattern (input : string) : bool :=
  JsString.truthy input && forallb is_name_char (String.list_ascii_of_string input).

Definition add_validate_name (configManager : ConfigManager) (input : string)
    : Validation :=
  if negb (JsString.truthy input) then Refused "Project name is required"
  else if negb (name_pattern input) then
    Refused "Project name can only contain letters, numbers, hyphens, and underscores"
  else if bool_decide (is_Some (getProject configManager input)) then
    Refused "Project already exists"
  else Accepted.

Definition edit_validate_name (configManager : ConfigManager)
    (project : Project.t) (input : string) : Validation :=
  if negb (JsString.truthy input) then Refused "Project name is required"
  else if negb (name_pattern input) then
    Refused "Project name can only contain letters, numbers, hyphens, and underscores"
  else if bool_decide (input ≠ Project.name project)
          && bool_decide (is_Some (getProject configManager input)) then
    Refused "A project with this name already exists"
  else Accepted.

(** The answers as the [Project] that [addProject] is given: the object
    has the five properties asked for and no other. *)
Definition as_project (answers : Answers.t) : Project.t :=
  {| Project.name := Answers.name answers;
     Project.rootDir := Answers.rootDir answers;
     Project.signKey := Answers.signKey answers;
     Project.signPackageLocation := Answers.signPackageLocation answers;
     Project.outputLocation := Answers.outputLocation answers;
     Project.files := None |}.

(** The same object as the [Partial<Project>] of [updateProject]. *)
Definition as_updates (answers : Answers.t) : PartialProject.t :=
  {| PartialProject.name := Some (Answers.name answers);
     PartialProject.rootDir := Some (Answers.rootDir answers);
     PartialProject.signKey := Some (Answers.signKey answers);
     PartialProject.signPackageLocation := Some (Answers.signPackageLocation answers);
     PartialProject.outputLocation := Some (Answers.outputLocation answers);
     PartialProject.files := None |}.

(** The end of the [add] action. *)
Definition add_save (configManager : ConfigManager) (answers : Answers.t)
    : ConfigManager :=
  addProject configManager (as_project answers).

(** The end of the [edit] action: if the name changed, remove the old
    project and add the new one. *)
Definition edit_save (configManager : ConfigManager) (project : Project.t)
    (answers : Answers.t) : ConfigManager :=
  if bool_decide (Answers.name answers ≠ Project.name project) then
    let configManager := (removeProject configManager (Project.name project)).2 in
    addProject configManager (as_project answers)
  else
    (updateProject configManager (Project.name project) (as_updates answers)).2.

End ProjectCommands.

(** ** The build directory (utils/vscode-config.ts) *)

Module LaunchConfiguration.
Record t := {
  type : string;
  rootDir : option string;
  outDir : option string;
  stagingFolderPath : option string;
  files : option (list string);
  sourceDirs : option (list string);
}.
End LaunchConfiguration.

Module BSConfig.
Record t := {
  stagingDir : option string;
  outDir : option string;
}.
End BSConfig.

Module BuildConfig.
Record t := {
  rootDir : string;
  outDir : option string;
  stagingFolderPath : option string;
  files : option (list string);
  sourceDirs : option (list string);
}.
End BuildConfig.

Module VscodeConfig.

Record VSCodeLaunchConfig := {
  configurations : option (list LaunchConfiguration.t);
}.

Section config.
Context `{PathModule}.

(** [fs.readFileSync(path, 'utf8')]. *)
Definition readFileSync (fs : FileSystem) (path : string) : Completion string :=
  match stat fs path with
  | Some (RegularFile content _) => Return content
  | Some Directory => Throw "EISDIR: illegal operation on a directory, read"
  | None => Throw "ENOENT: no such file or directory, open"
  end.

(** [path.isAbsolute]. *)
Variable isAbsolute : string → bool.
(** What the text of a configuration file comes to once the comments and
    trailing commas are taken out and the rest is given to [JSON.parse];
    [None] when that throws. *)
Variable parse_launch : string → option VSCodeLaunchConfig.
Variable parse_bsconfig : string → option BSConfig.t.

(** [path.join(projectRootDir, '.vscode', 'launch.json')] is joined one
    segment at a time. *)
Definition readVSCodeConfig (fs : FileSystem) (projectRootDir : string)
    : option VSCodeLaunchConfig :=
  let launchJsonPath :=
    path_join (path_join projectRootDir ".vscode") "launch.json" in
  if negb (existsSync fs launchJsonPath) then None
  else
    match readFileSync fs launchJsonPath with
    | Return content => parse_launch content
    | Throw _ => None
    end.

Definition readBSConfig (fs : FileSystem) (projectRootDir : string)
    : option BSConfig.t :=
  let bsconfigPath := path_join projectRootDir "bsconfig.json" in
  if negb (existsSync fs bsconfigPath) then None
  else
    match readFileSync fs bsconfigPath with
    | Return content => parse_bsconfig content
    | Throw _ => None
    end.

(** [if (p && !path.isAbsolute(p)) p = path.join(projectRootDir, p)]. *)
Definition resolve_against (projectRootDir p : string) : string :=
  if JsString.truthy p && negb (isAbsolute p) then path_join projectRootDir p
  else p.

Definition extractBuildConfig (fs : FileSystem) (projectRootDir : string)
    : option BuildConfig.t :=
  match readVSCodeConfig fs projectRootDir with
  | None => None
  | Some vsCodeConfig =>
      match configurations vsCodeConfig with
      | None => None
      | Some configurations =>
          (* Find the first BrightScript configuration *)
          match List.find
                  (λ config,
                     bool_decide (LaunchConfiguration.type config = "brightscript")
                     || bool_decide (LaunchConfiguration.type config = "roku"))
                  configurations with
          | None => None
          | Some brsConfig =>
              let rootDir :=
                if VscodeTasks.truthy_opt (LaunchConfiguration.rootDir brsConfig)
                then default "" (LaunchConfiguration.rootDir brsConfig)
                else projectRootDir in
              (* Resolve paths relative to project root *)
              Some {| BuildConfig.rootDir := resolve_against projectRootDir rootDir;
                      BuildConfig.outDir :=
                        resolve_against projectRootDir
                          <$> LaunchConfiguration.outDir brsConfig;
                      BuildConfig.stagingFolderPath :=
                        resolve_against projectRootDir
                          <$> LaunchConfiguration.stagingFolderPath brsConfig;
                      BuildConfig.files := LaunchConfiguration.files brsConfig;
                      BuildConfig.sourceDirs :=
                        LaunchConfiguration.sourceDirs brsConfig |}
          end
      end
  end.

(** [if (dir) { p = isAbsolute(dir) ? dir : join(root, dir); if
    (existsSync(p)) return p }], as the path returned if one is. *)
Definition existing_bsconfig_dir (fs : FileSystem) (projectRootDir : string)
    (dir : option string) : option string :=
  if VscodeTasks.truthy_opt dir then
    let dir := default "" dir in
    let p := if isAbsolute dir then dir else path_join projectRootDir dir in
    if existsSync fs p then Some p else None
  else None.

(** [if (p && fs.existsSync(p)) return p]. *)
Definition existing_dir (fs : FileSystem) (p : option string) : option string :=
  if VscodeTasks.truthy_opt p && existsSync fs (default "" p) then p else None.

Definition commonBuildDirs : list string :=
  [".build"; "dist"; "build"; "out"; ".out"].

(** Each [match] is one place where the function may return. *)
Definition getBuildDirectory (fs : FileSystem) (projectRootDir : string)
    : string :=
  (* First check VSCode launch.json *)
  let buildConfig := extractBuildConfig fs projectRootDir in
  match buildConfig ≫= λ c, existing_dir fs (BuildConfig.stagingFolderPath c) with
  | Some stagingFolderPath => stagingFolderPath
  | None =>
  match buildConfig ≫= λ c, existing_dir fs (BuildConfig.outDir c) with
  | Some outDir => outDir
  | None =>
  (* Check bsconfig.json *)
  let bsConfig := readBSConfig fs projectRootDir in
  match bsConfig ≫= λ c,
        existing_bsconfig_dir fs projectRootDir (BSConfig.stagingDir c) with
  | Some stagingPath => stagingPath
  | None =>
  match bsConfig ≫= λ c,
        existing_bsconfig_dir fs projectRootDir (BSConfig.outDir c) with
  | Some outPath => outPath
  | None =>
  (* Fallback to common build directories *)
  match List.find (existsSync fs) (path_join projectRootDir <$> commonBuildDirs) with
  | Some buildPath => buildPath
  | None =>
      (* Final fallback to project root *)
      projectRootDir
  end end end end end.

End config.
End VscodeConfig.

(** ** RokuDeployManager.createPackage and zipPackage (lib/roku-deploy.ts) *)

Module RokuDeployPackaging.

Module RokuDeployOptions.
Record t := {
  rootDir : string;
  outFile : option string;
  outDir : option string;
}.
End RokuDeployOptions.

(** The options roku-deploy is called with, the ones that name files. *)
Module ZipOptions.
Record t := {
  rootDir : string;
  outFile : string;
  outDir : string;
}.
End ZipOptions.

Module PackageOptions.
Record t := {
  outFile : string;
  stagingDir : string;
  rootDir : string;
}.
End PackageOptions.

(** What [rokuDeploy.zipPackage] resolves with, as [zipPackage] reads it. *)
Record ZipResult := {
  packagePath : option string;
  outDir : string;
  outFile : string;
}.

(** roku-deploy: what each call comes to and the files it leaves. *)
Record RokuDeploy := {
  rokuDeploy_zipPackage :
    ZipOptions.t → FileSystem → Completion ZipResult * FileSystem;
  rokuDeploy_publish :
    PackageOptions.t → FileSystem → Completion string * FileSystem;
}.

Section packaging.
Context `{PathModule}.
Variable rokuDeploy : RokuDeploy.

(** [a || b] where [a] may be undefined. *)
Definition or_default (a : option string) (b : string) : string :=
  if VscodeTasks.truthy_opt a then default "" a else b.

Definition zipPackage (options : RokuDeployOptions.t) (fs : FileSystem)
    : Completion string * FileSystem :=
  let zipOptions :=
    {| ZipOptions.rootDir := RokuDeployOptions.rootDir options;
       ZipOptions.outFile := or_default (RokuDeployOptions.outFile options) "app.zip";
       ZipOptions.outDir := or_default (RokuDeployOptions.outDir options) "./build" |} in
  let '(result, fs) := rokuDeploy_zipPackage rokuDeploy zipOptions fs in
  match result with
  | Throw error => (Throw error, fs)
  | Return result =>
      let zipPath :=
        or_default (packagePath result) (path_join (outDir result) (outFile result)) in
      (* Ensure the zip was created *)
      if negb (existsSync fs zipPath) then
        (Throw ("Failed to create zip at: " +:+ zipPath), fs)
      else (Return zipPath, fs)
  end.

Definition createPackage (options : RokuDeployOptions.t) (fs : FileSystem)
    : Completion string * FileSystem :=
  (* First create a zip package *)
  let '(zipPath, fs) :=
    zipPackage
      {| RokuDeployOptions.rootDir := RokuDeployOptions.rootDir options;
         RokuDeployOptions.outFile := RokuDeployOptions.outFile options;
         RokuDeployOptions.outDir :=
           Some (or_default (RokuDeployOptions.outDir options) "./out") |} fs in
  match zipPath with
  | Throw error => (Throw error, fs)
  | Return zipPath =>
      (* Then sign the package *)
      let packageOptions :=
        {| PackageOptions.outFile := or_default (RokuDeployOptions.outFile options) "app";
           PackageOptions.stagingDir := path_dirname zipPath;
           PackageOptions.rootDir := RokuDeployOptions.rootDir options |} in
      let '(result, fs) := rokuDeploy_publish rokuDeploy packageOptions fs in
      match result with
      | Throw error => (Throw error, fs)
      | Return _ =>
          (* Look for the created package *)
          let pkgPath :=
            path_join
              (JsString.or_else (PackageOptions.stagingDir packageOptions) "./out")
              (PackageOptions.outFile packageOptions +:+ ".pkg") in
          if existsSync fs pkgPath then (Return pkgPath, fs)
          else
            (* Try alternate location *)
            let altPath :=
              path_join "./out" (PackageOptions.outFile packageOptions +:+ ".pkg") in
            if existsSync fs altPath then (Return altPath, fs)
            else (Throw "Package was created but could not be found", fs)
      end
  end.

End packaging.
End RokuDeployPackaging.

(** ** The generate command, from the build directory to the deploy
    (commands/generate.ts, utils/validators.ts) *)

Module RekeyOptions.
Record t := {
  host : string;
  password : string;
  rekeySignedPackage : string;
  signingPassword : string;
}.
End RekeyOptions.

Module GenerateAction.
Import Generate.

(** What the action has done so far: the world of the deploy steps, and
    the rekey requests made of the device, in order. *)
Record Session := {
  world : World;
  rekeys : list RekeyOptions.t;
}.

Definition P (A : Type) : Type := Session → Step A * Session.

Global Instance P_ret : MRet P := λ A a s, (Next a, s).

Global Instance P_bind : MBind P := λ A B k m s,
  match m s with
  | (Next a, s') => k a s'
  | (Throws msg, s') => (Throws msg, s')
  | (Returns, s') => (Returns, s')
  | (Exits n, s') => (Exits n, s')
  end.

Definition action_returnP {A} : P A := λ s, (Returns, s).

Definition try_catchP {A} (body : P A) (handler : string → P A) : P A := λ s,
  match body s with
  | (Throws msg, s') => handler msg s'
  | r => r
  end.

(** A step of the deploy stage, run in the session. *)
Definition lift {A} (m : M A) : P A := λ s,
  let '(r, w) := m (world s) in
  (r, {| world := w; rekeys := rekeys s |}).

Definition read_files : P FileSystem := λ s, (Next (files (world s)), s).

Section action.
Context `{PathModule}.

(** [fs.mkdirSync(dirPath, { recursive: true })].  The file system is keyed
    by path and the directories above a path are no entries of their own,
    so the directory named is the one entry made. *)
Definition mkdirSync_recursive (dirPath : string) : M () := λ w,
  match stat (files w) dirPath with
  | Some Directory => (Next (), w)
  | Some (RegularFile _ _) => (Throws "EEXIST: file already exists, mkdir", w)
  | None =>
      if decide (dirPath = "") then
        (Throws "ENOENT: no such file or directory, mkdir", w)
      else
        (Next (),
         {| files := write_entry dirPath Directory (files w);
            now := now w; effects := effects w |})
  end.

(** utils/validators.ts. *)
Definition ensureDirectoryExists (dirPath : string) : M () := λ w,
  if negb (existsSync (files w) dirPath) then mkdirSync_recursive dirPath w
  else (Next (), w).

(** [deployManager.rekeyDevice]: [device_rekey] is what roku-deploy's
    rekey of the device comes to. *)
Definition rekeyDevice
    (device_rekey : RekeyOptions.t → FileSystem → Completion ())
    (options : RekeyOptions.t) : P () := λ s,
  let s' := {| world := world s; rekeys := rekeys s ++ [options] |} in
  match device_rekey options (files (world s)) with
  | Return _ => (Next (), s')
  | Throw msg => (Throws msg, s')
  end.

Variable isAbsolute : string → bool.
Variable parse_launch : string → option VscodeConfig.VSCodeLaunchConfig.
Variable parse_bsconfig : string → option BSConfig.t.
Variable device_rekey : RekeyOptions.t → FileSystem → Completion ().

(** The action from where it reads the project configuration, after the
    build step, to its end. *)
Definition from_configuration (options : Options) (project : Project)
    (device : RokuDevice.t) (c : Collaborators) : P () :=
  try_catchP
    (fs ← read_files;
     (* Check for VSCode launch.json configuration *)
     let buildDir :=
       VscodeConfig.getBuildDirectory isAbsolute parse_launch parse_bsconfig
         fs (rootDir project) in
     (* Validate the build directory *)
     let validation := RokuDeployManager.validateProject fs buildDir in
     if negb (RokuDeployManager.valid validation) then action_returnP
     (* Check if signed package exists *)
     else if negb (existsSync fs (signPackageLocation project)) then action_returnP
     else
       (* Ensure output directory exists *)
       let outputDir := path_dirname (outputLocation project) in
       _ ← lift (ensureDirectoryExists outputDir);
       (* Step 3: Rekey the device first *)
       _ ← (if negb (skipRekey options) then
              try_catchP
                (rekeyDevice device_rekey
                   {| RekeyOptions.host := RokuDevice.ip device;
                      RekeyOptions.password := RokuDevice.password device;
                      RekeyOptions.rekeySignedPackage := signPackageLocation project;
                      RekeyOptions.signingPassword := signKey project |})
                (λ _, action_returnP)
            else mret ());
       (* Steps 4 and 5, and the exit *)
       lift (deploy_and_relocate options project c))
    (λ _, action_returnP).

End action.
End GenerateAction.

(** ** discoverAndSelectDevice (commands/generate.ts) *)

Module DeviceSelection.
Import RokuDiscovery.

(** What the person at the prompts answers: the entry picked from the
    list of devices and Cancel, the password typed, and whether to save. *)
Record Answers := {
  choice : nat;
  password : string;
  rememberDevice : bool;
}.

(** [reachable] is what the request of [testDevice] comes to, [device]
    what the device answers to the request of [testConnection]; [file] is
    config.json.  The result is the device, or [null], and the file as it
    is left. *)
Definition discoverAndSelectDevice (autoSelectFirst : bool)
    (providedPassword : option string)
    (discovered : Completion (list DiscoveredDevice)) (answers : Answers)
    (reachable : HttpOutcome) (device : RokuAPI.Request → HttpOutcome)
    (file : option ConfigManager.Config)
    : option RokuDevice.t * option ConfigManager.Config :=
  match discovered with
  | Throw _ => (None, file)
  | Return devices =>
      if bool_decide (length devices = 0%nat) then (None, file)
      else
        let selectedDevice :=
          if autoSelectFirst then devices !! 0%nat
          else
            (* the devices, then Cancel *)
            default None (((Some <$> devices) ++ [None]) !! choice answers) in
        match selectedDevice with
        | None => (None, file)
        | Some selectedDevice =>
            (* Test device connectivity *)
            match testDevice selectedDevice reachable with
            | Throw _ => (None, file)
            | Return isReachable =>
                if negb isReachable then (None, file)
                else
                  (* Get developer password *)
                  let '(password, rememberDevice) :=
                    if negb (VscodeTasks.truthy_opt providedPassword) then
                      (password answers, rememberDevice answers)
                    else (default "" providedPassword, false) in
                  if negb (JsString.truthy password) then (None, file)
                  else
                    (* Test authentication *)
                    let rokuApi := RokuAPI.new (ip selectedDevice) password in
                    match RokuAPI.testConnection rokuApi device with
                    | Throw _ => (None, file)
                    | Return authSuccess =>
                        if negb authSuccess then (None, file)
                        else
                          let deviceConfig :=
                            {| RokuDevice.ip := ip selectedDevice;
                               RokuDevice.password := password;
                               RokuDevice.name := Some (name selectedDevice);
                               RokuDevice.modelName := Some (modelName selectedDevice);
                               RokuDevice.serialNumber :=
                                 Some (serialNumber selectedDevice);
                               RokuDevice.softwareVersion :=
                                 softwareVersion selectedDevice |} in
                          (* Save device if user requested *)
                          let file :=
                            if rememberDevice then
                              ConfigManager.file
                                (ConfigManager.setRokuDevice
                                   (ConfigManager.new file) deviceConfig)
                            else file in
                          (Some deviceConfig, file)
                    end
            end
        end
  end.

End DeviceSelection.

(** ** RokuAPI.rekeyDevice (lib/roku-api.ts) *)

Module RokuInstaller.
Import RokuAPI.

(** What axios rejects with: the error has a [response] when the device
    answered with a status that was turned down. *)
Record AxiosError := {
  message : string;
  response : option AxiosResponse;
}.

(** [new Error(message)]. *)
Definition Error (message : string) : AxiosError :=
  {| message := message; response := None |}.

Definition axios_post (o : HttpOutcome) : AxiosError + AxiosResponse :=
  match o with
  | HttpResponse st d =>
      if status_2xx st then inr {| status := st; data := d |}
      else inl {| message := "Request failed with status code " +:+ pretty st;
                  response := Some {| status := st; data := d |} |}
  | HttpFailure code => inl (Error code)
  end.

(** [catch (error) { if (error.response?.status === 401) throw new
    Error('Authentication failed. ...'); throw error; }]. *)
Definition rethrow {A} (error : AxiosError) : AxiosError + A :=
  if bool_decide (status <$> response error = Some 401) then
    inl (Error "Authentication failed. Check your Roku password.")
  else inl error.

Section installer.
Context `{PathModule}.

(** The package is read when the form is sent. *)
Definition rekeyDevice (this : RokuAPI) (fs : FileSystem)
    (signKey packagePath : string) (device : Request → HttpOutcome)
    : AxiosError + () :=
  if negb (existsSync fs packagePath) then
    inl (Error ("Package file not found: " +:+ packagePath))
  else
    match
      match stat fs packagePath with
      | Some Directory =>
          inl (Error "EISDIR: illegal operation on a directory, read")
      | _ =>
          match axios_post (device (rekeyDevice_request this)) with
          | inl error => inl error
          | inr response =>
              (* Check if rekey was successful *)
              match
                bind (Js.includes (data response) "Failed") (λ failed,
                  if failed then Return true
                  else Js.includes (data response) "Error")
              with
              | Throw typeError => inl (Error typeError)
              | Return true => inl (Error "Rekey operation failed")
              | Return false => inr ()
              end
          end
      end
    with
    | inl error => rethrow error
    | inr ok => inr ok
    end.

End installer.

End RokuInstaller.

(** ** The tasks of tasks.json (utils/vscode-tasks.ts) *)

Module TasksJson.

(** A task as tasks.json has it: what [executeTask] reads of it, and the
    [kind] of its [group] when it has one. *)
Record Task := {
  fields : VscodeTasks.VSCodeTask;
  group_kind : option string;
}.

Record VSCodeTasksConfig := {
  tasks : option (list Task);
}.

Section tasks.
Context `{PathModule}.
(** The text of tasks.json without its comments and trailing commas, given
    to [JSON.parse]; [None] when that throws. *)
Variable parse_tasks : string → option VSCodeTasksConfig.

Definition readVSCodeTasks (fs : FileSystem) (projectRootDir : string)
    : option VSCodeTasksConfig :=
  let tasksJsonPath := path_join (path_join projectRootDir ".vscode") "tasks.json" in
  if negb (existsSync fs tasksJsonPath) then None
  else
    match VscodeConfig.readFileSync fs tasksJsonPath with
    | Return content => parse_tasks content
    | Throw _ => None
    end.

Definition is_build_task (task : Task) : bool :=
  let label := JsString.toLowerCase (VscodeTasks.label (fields task)) in
  JsString.includes label "build"
  || JsString.includes label "compile"
  || JsString.includes label "package"
  || JsString.includes label "deploy"
  || bool_decide (group_kind task = Some "build").

Definition getBuildTasks (fs : FileSystem) (projectRootDir : string)
    : list Task :=
  match readVSCodeTasks fs projectRootDir ≫= tasks with
  | None => []
  | Some tasks => List.filter is_build_task tasks
  end.

Definition getAllTasks (fs : FileSystem) (projectRootDir : string)
    : list Task :=
  match readVSCodeTasks fs projectRootDir ≫= tasks with
  | None => []
  | Some tasks => tasks
  end.

End tasks.
End TasksJson.

(** ** The build step of the generate command (commands/generate.ts) *)

Module BuildStep.
Import Generate TasksJson.

(** The value of an entry of the list the person picks from. *)
Inductive Choice :=
  | UseExisting                 (* ['use-existing'] *)
  | ShowAll                     (* ['show-all'] *)
  | Run (task : Task)
  | SkipBuild.                  (* [null] *)

(** The entries picked in the two lists, by their place. *)
Record Answers := {
  task : nat;
  allTask : nat;
}.

(** How the step ends: the action goes on to the deploy, returns, or waits
    for a task whose promise never settles. *)
Inductive Ending :=
  | GoesOn
  | ActionReturns
  | Waits.

Record Outcome := {
  ending : Ending;
  ran : list Task;              (* the tasks given to [executeTask] *)
}.

(** [choices.splice(-1, 0, entry)]: in before the last. *)
Definition splice_before_last {A} (entry : A) (choices : list A) : list A :=
  take (length choices - 1) choices ++ entry :: drop (length choices - 1) choices.

(** The value of the entry picked; the place is one of the list's. *)
Definition picked (choices : list Choice) (i : nat) : Choice :=
  default SkipBuild (choices !! i).

Section build.
Context `{PathModule}.
Variable isAbsolute : string → bool.
Variable parse_launch : string → option VscodeConfig.VSCodeLaunchConfig.
Variable parse_bsconfig : string → option BSConfig.t.
Variable parse_tasks : string → option VSCodeTasksConfig.

(** [await executeTask(selectedTask, project.rootDir, 300000)] in its
    [try]: [events] is what the child of the task does. *)
Definition run_task (selectedTask : Task) (events : list VscodeTasks.TaskEvent)
    : Outcome :=
  match VscodeTasks.settled
          (VscodeTasks.executeTask (fields selectedTask) (Some 300000) events) with
  | Some (Return _) => {| ending := GoesOn; ran := [selectedTask] |}
  | Some (Throw _) => {| ending := ActionReturns; ran := [selectedTask] |}
  | None => {| ending := Waits; ran := [selectedTask] |}
  end.

Definition build_step (options : Options) (project : Project)
    (fs : FileSystem) (answers : Answers) (events : list VscodeTasks.TaskEvent)
    : Outcome :=
  (* Check if we should skip build *)
  if negb (skipBuild options) then
    (* Check if build directory already exists *)
    let buildDir :=
      VscodeConfig.getBuildDirectory isAbsolute parse_launch parse_bsconfig
        fs (rootDir project) in
    let buildExists :=
      existsSync fs buildDir && existsSync fs (path_join buildDir "manifest") in
    (* If use-existing-build flag is provided, skip task selection *)
    if useExistingBuild options then
      if buildExists then {| ending := GoesOn; ran := [] |}
      else {| ending := ActionReturns; ran := [] |}
    else
      let buildTasks := getBuildTasks parse_tasks fs (rootDir project) in
      let allTasks := getAllTasks parse_tasks fs (rootDir project) in
      if bool_decide (0 < length buildTasks)%nat
         || bool_decide (0 < length allTasks)%nat then
        if VscodeTasks.truthy_opt (buildTask options) then
          (* Use specified task *)
          match List.find
                  (λ t, bool_decide (VscodeTasks.label (fields t)
                                     = default "" (buildTask options)))
                  allTasks with
          | None => {| ending := ActionReturns; ran := [] |}
          | Some selectedTask => run_task selectedTask events
          end
        else
          (* Show task selection *)
          let taskChoices := (Run <$> buildTasks) ++ [SkipBuild] in
          (* If build already exists, add option to use existing build *)
          let taskChoices :=
            if buildExists then UseExisting :: taskChoices else taskChoices in
          (* If there are other non-build tasks, offer to show them *)
          let taskChoices :=
            if bool_decide (length buildTasks < length allTasks)%nat
            then splice_before_last ShowAll taskChoices else taskChoices in
          let selectedTask :=
            match picked taskChoices (task answers) with
            | UseExisting => SkipBuild
            | ShowAll =>
                (* Show all tasks *)
                picked ((Run <$> allTasks) ++ [SkipBuild]) (allTask answers)
            | task => task
            end in
          match selectedTask with
          | Run selectedTask => run_task selectedTask events
          | _ => {| ending := GoesOn; ran := [] |}
          end
      else {| ending := GoesOn; ran := [] |}
  else {| ending := GoesOn; ran := [] |}.

End build.
End BuildStep.

(** ** More notions the properties are stated with *)

Module Readings.

(** [Array.prototype.join]. *)
Definition join (sep : string) (l : list string) : string :=
  match l with
  | [] => ""
  | s :: rest => foldl (λ acc x, acc +:+ sep +:+ x) s rest
  end.

(** What [join] puts after the first element. *)
Definition joined_after (sep : string) (l : list string) : string :=
  foldr (λ x acc, sep +:+ x +:+ acc) "" l.

(** The line a shell is given by [spawn(command, args, { shell: true })]:
    the command and the arguments, joined by spaces. *)
Definition shell_line (resolved : string * list string) : string :=
  join " " (resolved.1 :: resolved.2).

(** The ranges the scan always covers. *)
Definition default_ranges : list string :=
  ["192.168.1"; "192.168.0"; "10.0.0"; "10.0.1"; "172.16.0"].

(** The first three parts of the address of an external IPv4 interface,
    when the address has four. *)
Definition own_prefix (net : RokuDiscovery.NetworkInterfaceInfo) : option string :=
  if bool_decide (RokuDiscovery.family net = "IPv4")
     && negb (RokuDiscovery.internal net) then
    match JsString.split "." (RokuDiscovery.address net) with
    | [p0; p1; p2; _] => Some (p0 +:+ "." +:+ p1 +:+ "." +:+ p2)
    | _ => None
    end
  else None.

(** The first ['close'] or ['error'] among the events. *)
Fixpoint first_report (events : list VscodeTasks.TaskEvent)
    : option VscodeTasks.TaskEvent :=
  match events with
  | [] => None
  | VscodeTasks.Close code :: _ => Some (VscodeTasks.Close code)
  | VscodeTasks.ChildError message :: _ => Some (VscodeTasks.ChildError message)
  | _ :: rest => first_report rest
  end.

(** What a report makes of the promise of the task; a timer is no
    report. *)
Definition reported (task : VscodeTasks.VSCodeTask) (e : VscodeTasks.TaskEvent)
    : option (Completion ()) :=
  match e with
  | VscodeTasks.Close (Some 0) => Some (Return ())
  | VscodeTasks.Close None => Some (Throw (VscodeTasks.terminated_message task))
  | VscodeTasks.Close (Some code) =>
      Some (Throw (VscodeTasks.failed_message task code))
  | VscodeTasks.ChildError message => Some (Throw message)
  | VscodeTasks.TimeoutElapsed | VscodeTasks.EscalationElapsed => None
  end.

(** The timeout timer fires before the child has reported anything. *)
Fixpoint timer_fires_first (events : list VscodeTasks.TaskEvent) : bool :=
  match events with
  | [] => false
  | VscodeTasks.TimeoutElapsed :: _ => true
  | VscodeTasks.EscalationElapsed :: rest => timer_fires_first rest
  | _ :: _ => false
  end.

(** The effects of moving a file. *)
Definition is_file_move (e : Generate.Effect) : bool :=
  match e with
  | Generate.CopyFile _ _ | Generate.Unlink _ => true
  | _ => false
  end.


Definition names (this : ConfigManager.ConfigManager) : list string :=
  Project.name <$> ConfigManager.getProjects this.

Section candidates.
Context `{PathModule}.
Variable isAbsolute : string → bool.
Variable parse_launch : string → option VscodeConfig.VSCodeLaunchConfig.
Variable parse_bsconfig : string → option BSConfig.t.

(** The directories a build may be in, first to last: the staging folder
    and the output directory of launch.json, those of bsconfig.json taken
    against the project root, then the usual names under the project
    root. *)
Definition candidates (fs : FileSystem) (projectRootDir : string)
    : list string :=
  let launch :=
    VscodeConfig.extractBuildConfig isAbsolute parse_launch fs projectRootDir in
  let bsconfig := VscodeConfig.readBSConfig parse_bsconfig fs projectRootDir in
  let against_root dir :=
    if isAbsolute dir then dir else path_join projectRootDir dir in
  (* a directory is configured when it is set and not empty *)
  let configured (dir : option string) :=
    if VscodeTasks.truthy_opt dir then dir else None in
  omap id
    [configured (launch ≫= BuildConfig.stagingFolderPath);
     configured (launch ≫= BuildConfig.outDir);
     against_root <$> configured (bsconfig ≫= BSConfig.stagingDir);
     against_root <$> configured (bsconfig ≫= BSConfig.outDir)]
  ++ (path_join projectRootDir <$> [".build"; "dist"; "build"; "out"; ".out"]).

End candidates.

End Readings.

(** Closes the case of a move that throws after the effects [rest]. *)
Ltac move_throws rest :=
  eexists _, _, rest;
  split_and!;
  [ reflexivity
  | simpl; by rewrite ?app_nil_r, <- ?app_assoc
  | by repeat constructor
  | right; by eexists ].

(** Closes the case of a selection that hands back no device. *)
Ltac no_device :=
  simpl; split_and!;
  [ by intros ? [=] | done | done | done | by intros Hne; destruct Hne ].

(** Closes the case of an action that returns before the rekey. *)
Ltac nothing_done :=
  eexists _, _; split_and!;
  [ done | by left | done | by intros Hne; destruct Hne ].

(** ** More concrete inputs *)

Module Cases.
Import Scenario.

(** The record both probes make of the bedroom device's document. *)
Definition bedroom_parsed : RokuDiscovery.DiscoveredDevice :=
  {| RokuDiscovery.ip := "192.168.1.20";
     RokuDiscovery.name := "bedroom";
     RokuDiscovery.modelName := "Roku Ultra";
     RokuDiscovery.serialNumber := "X004000B231";
     RokuDiscovery.softwareVersion := Some "11.5.0";
     RokuDiscovery.deviceType := Some "" |}.

(** A run of the SSDP probe in which the bedroom device replies. *)
Definition one_reply : list RokuDiscovery.SocketEvent :=
  Notions.ssdp_run None
    [RokuDiscovery.Message ssdp_reply (HttpResponse 200 device_info)].

(** A network with one Roku, at the address of the bedroom device. *)
Definition one_roku (addr : string) : HttpOutcome :=
  if decide (addr = "192.168.1.20") then HttpResponse 200 device_info
  else HttpFailure "ECONNREFUSED".

Definition package_only : Generate.Options :=
  {| Generate.skipBuild := true;
     Generate.skipRekey := true;
     Generate.packageOnly := true;
     Generate.buildTask := None;
     Generate.useExistingBuild := false |}.

(** [path.isAbsolute] on POSIX systems. *)
Definition isAbsolute (p : string) : bool := String.prefix "/" p.

(** No configuration file can be read. *)
Definition no_launch (content : string) : option VscodeConfig.VSCodeLaunchConfig :=
  None.

Definition no_bsconfig (content : string) : option BSConfig.t := None.

Definition rekey_refused (options : RekeyOptions.t) (fs : FileSystem)
    : Completion () :=
  Throw "Unauthorized".

Definition saved_device : RokuDevice.t :=
  {| RokuDevice.ip := "192.168.1.20";
     RokuDevice.password := "secret";
     RokuDevice.name := Some "bedroom";
     RokuDevice.modelName := None;
     RokuDevice.serialNumber := None;
     RokuDevice.softwareVersion := None |}.

(** The session of a run whose build directory holds no project. *)
Definition not_built : GenerateAction.Session :=
  {| GenerateAction.world := staged; GenerateAction.rekeys := [] |}.

Definition alpha : Project.t :=
  {| Project.name := "alpha";
     Project.rootDir := "/work/alpha";
     Project.signKey := "abc";
     Project.signPackageLocation := "/work/alpha.pkg";
     Project.outputLocation := "/out/alpha.pkg";
     Project.files := Some ["source/**/*"; "manifest"] |}.

Definition beta : Project.t :=
  {| Project.name := "beta";
     Project.rootDir := "/work/beta";
     Project.signKey := "def";
     Project.signPackageLocation := "/work/beta.pkg";
     Project.outputLocation := "/out/beta.pkg";
     Project.files := None |}.

Definition two_projects : ConfigManager.ConfigManager :=
  ConfigManager.new
    (Some {| ConfigManager.rokuDevice := saved_device;
             ConfigManager.projects := [alpha; beta] |}).

(** The answers of an edit that renames alpha and changes nothing else. *)
Definition renamed : ProjectCommands.Answers.t :=
  {| ProjectCommands.Answers.name := "gamma";
     ProjectCommands.Answers.rootDir := "/work/alpha";
     ProjectCommands.Answers.signKey := "abc";
     ProjectCommands.Answers.signPackageLocation := "/work/alpha.pkg";
     ProjectCommands.Answers.outputLocation := "/out/alpha.pkg" |}.


(** The launch.json of the README, whose paths begin with a variable of
    the editor, in a project that has both directories it names. *)
Definition readme_launch (content : string)
    : option VscodeConfig.VSCodeLaunchConfig :=
  Some {| VscodeConfig.configurations :=
            Some [{| LaunchConfiguration.type := "brightscript";
                     LaunchConfiguration.rootDir := Some "${workspaceFolder}";
                     LaunchConfiguration.outDir := Some "${workspaceFolder}/dist";
                     LaunchConfiguration.stagingFolderPath :=
                       Some "${workspaceFolder}/.out";
                     LaunchConfiguration.files := None;
                     LaunchConfiguration.sourceDirs := None |}] |}.

Definition staged_and_built : FileSystem :=
  {[ "/app/.vscode/launch.json" := RegularFile "{}" 1;
     "/app/.out" := Directory;
     "/app/.out/manifest" := RegularFile "title=Demo" 2;
     "/app/dist" := Directory ]}.

(** A roku-deploy that writes the zip and the package where it is asked
    to. *)
Definition roku_deploy : RokuDeployPackaging.RokuDeploy :=
  {| RokuDeployPackaging.rokuDeploy_zipPackage := λ options fs,
       let outFile := RokuDeployPackaging.ZipOptions.outFile options +:+ ".zip" in
       (Return {| RokuDeployPackaging.packagePath := None;
                  RokuDeployPackaging.outDir :=
                    RokuDeployPackaging.ZipOptions.outDir options;
                  RokuDeployPackaging.outFile := outFile |},
        write_entry (H := PosixPath.posix)
          (PosixPath.join (RokuDeployPackaging.ZipOptions.outDir options) outFile)
          (RegularFile "zip" 0) fs);
     RokuDeployPackaging.rokuDeploy_publish := λ options fs,
       let pkg :=
         PosixPath.join (RokuDeployPackaging.PackageOptions.stagingDir options)
           (RokuDeployPackaging.PackageOptions.outFile options +:+ ".pkg") in
       (Return pkg,
        write_entry (H := PosixPath.posix) pkg (RegularFile "signed package" 0) fs) |}.

Definition demo_package : RokuDeployPackaging.RokuDeployOptions.t :=
  {| RokuDeployPackaging.RokuDeployOptions.rootDir := "/app";
     RokuDeployPackaging.RokuDeployOptions.outFile := Some "demo";
     RokuDeployPackaging.RokuDeployOptions.outDir := None |}.

(** A project whose package is to be kept in ./out, which is where
    roku-deploy leaves it. *)
Definition kept_in_out : Generate.Project :=
  {| Generate.name := "Demo";
     Generate.rootDir := "/app";
     Generate.signKey := "abc";
     Generate.signPackageLocation := "/ref.pkg";
     Generate.outputLocation := "./out/demo.pkg" |}.

Definition nothing_made : Generate.World :=
  {| Generate.files := ∅; Generate.now := 20; Generate.effects := [] |}.

(** The backend of a package-only run: [createPackage] over
    [roku_deploy]. *)
Definition packaging : Generate.Collaborators :=
  {| Generate.deploy_duration := None;
     Generate.deployAndSignPackage := λ files, (Throw "unreachable", files);
     Generate.deploy_in_flight := λ files, files;
     Generate.createPackage :=
       RokuDeployPackaging.createPackage (H := PosixPath.posix)
         roku_deploy demo_package;
     Generate.trySimple := false |}.


End Cases.

(** * Properties *)

(** The examples are about a POSIX system, in a process started in
    /work. *)
#[local] Existing Instance PosixPath.posix | 100.

(** ** JavaScript strings *)

Lemma truthy_true s : JsString.truthy s = true ↔ s ≠ "".
Proof. destruct s; simpl; split; congruence. Qed.

(** ** JavaScript maps *)

Section map_facts.
Import RokuDiscovery Notions.
Implicit Types (m : JsMap) (k : string) (v d : DiscoveredDevice).

Lemma Map_get_set_eq k v m : Map_get k (Map_set k v m) = Some v.
Proof.
  induction m as [|[k' v'] m IH]; simpl.
  - by rewrite decide_True.
  - destruct (decide (k' = k)) as [->|Hne]; simpl.
    + by rewrite decide_True.
    + by rewrite decide_False.
Qed.

Lemma Map_get_set_ne k k' v m :
  k ≠ k' → Map_get k' (Map_set k v m) = Map_get k' m.
Proof.
  intros Hne. induction m as [|[k0 v0] m IH]; simpl.
  - by rewrite decide_False.
  - destruct (decide (k0 = k)) as [->|Hk]; simpl.
    + by rewrite !decide_False.
    + destruct (decide (k0 = k')); [done | apply IH].
Qed.

Lemma Map_get_None k m : Map_get k m = None ↔ k ∉ m.*1.
Proof.
  induction m as [|[k' v'] m IH]; simpl.
  - split; [intros _; apply not_elem_of_nil | done].
  - rewrite not_elem_of_cons. destruct (decide (k' = k)) as [->|Hne].
    + split; [done | intros [? _]; done].
    + rewrite IH. split; [intros ?; split; [congruence | done] | intros [_ ?]; done].
Qed.

Lemma Map_get_Some_elem k v m : Map_get k m = Some v → (k, v) ∈ m.
Proof.
  induction m as [|[k' v'] m IH]; simpl; [done |].
  destruct (decide (k' = k)) as [->|Hne].
  - intros [= ->]. apply list_elem_of_here.
  - intros Hget. apply list_elem_of_further, IH, Hget.
Qed.

Lemma Map_get_elem k v m : NoDup m.*1 → (k, v) ∈ m → Map_get k m = Some v.
Proof.
  induction m as [|[k' v'] m IH]; simpl; intros Hnd Hin.
  - by apply elem_of_nil in Hin.
  - apply NoDup_cons in Hnd as [Hk' Hnd].
    apply elem_of_cons in Hin as [[= <- <-]|Hin].
    + by rewrite decide_True.
    + rewrite decide_False; [by apply IH |].
      intros ->. apply Hk'. apply list_elem_of_fmap. by exists (k, v).
Qed.

Lemma Map_set_keys k v m :
  (Map_set k v m).*1 = if decide (k ∈ m.*1) then m.*1 else m.*1 ++ [k].
Proof.
  induction m as [|[k' v'] m IH].
  - rewrite decide_False; [done | simpl; apply not_elem_of_nil].
  - cbn [Map_set]. rewrite (fmap_cons fst (k', v') m). simpl fst.
    destruct (decide (k' = k)) as [->|Hne].
    + rewrite decide_True; [done | apply list_elem_of_here].
    + rewrite fmap_cons, IH. simpl fst.
      destruct (decide (k ∈ m.*1)) as [Hin|Hnin].
      * rewrite decide_True; [done | by apply list_elem_of_further].
      * rewrite decide_False; [done |].
        rewrite not_elem_of_cons. split; [congruence | done].
Qed.

Lemma elem_of_Map_set_keys k k' v m :
  k' ∈ (Map_set k v m).*1 ↔ k' = k ∨ k' ∈ m.*1.
Proof.
  rewrite Map_set_keys. destruct (decide (k ∈ m.*1)).
  - split; [by right | by intros [->|]].
  - rewrite elem_of_app, list_elem_of_singleton. tauto.
Qed.

Lemma Map_set_NoDup k v m : NoDup m.*1 → NoDup (Map_set k v m).*1.
Proof.
  intros Hnd. rewrite Map_set_keys. destruct (decide (k ∈ m.*1)); [done |].
  apply NoDup_app. split_and!; [done | | apply NoDup_singleton].
  intros x Hx ->%list_elem_of_singleton. done.
Qed.

Lemma Map_set_keyed v m : keyed_by_ip m → keyed_by_ip (Map_set (ip v) v m).
Proof.
  unfold keyed_by_ip, Map_values.
  induction m as [|[k' v'] m IH]; simpl; [done |].
  intros Heq. injection Heq as Hk' Hm.
  destruct (decide (k' = ip v)) as [Hk|Hne]; simpl.
  - by rewrite Hm.
  - f_equal; [done | by apply IH].
Qed.

Lemma elem_of_Map_values d m :
  keyed_by_ip m → NoDup m.*1 →
  d ∈ Map_values m ↔ Map_get (ip d) m = Some d.
Proof.
  unfold keyed_by_ip, Map_values. intros Hkeyed Hnd. split.
  - intros Hin. apply Map_get_elem; [done |].
    revert Hkeyed Hin. clear Hnd.
    induction m as [|[k' v'] m IH]; simpl; intros Heq Hin.
    + by apply elem_of_nil in Hin.
    + injection Heq as Hk Hm.
      apply elem_of_cons in Hin as [->|Hin].
      * rewrite Hk. apply list_elem_of_here.
      * apply list_elem_of_further. by apply IH.
  - intros Hget%Map_get_Some_elem.
    apply list_elem_of_fmap. by exists (ip d, d).
Qed.

End map_facts.

(** ** Merging the two device lists *)

Section merge_facts.
Import RokuDiscovery Notions.
Implicit Types (m : JsMap) (k : string) (a b d : DiscoveredDevice).
Implicit Types (A B : list DiscoveredDevice).

Lemma well_formed_nil : well_formed [].
Proof. split; [done | apply NoDup_nil_2]. Qed.

Lemma well_formed_set v m : well_formed m → well_formed (Map_set (ip v) v m).
Proof. intros [??]. split; [by apply Map_set_keyed | by apply Map_set_NoDup]. Qed.

Lemma merge_ssdp_cons m a A :
  merge_ssdp m (a :: A) = merge_ssdp (Map_set (ip a) a m) A.
Proof. reflexivity. Qed.

Lemma merge_ssdp_wf m A : well_formed m → well_formed (merge_ssdp m A).
Proof.
  revert m. induction A as [|a A IH]; intros m Hm; [done |].
  rewrite merge_ssdp_cons. by apply IH, well_formed_set.
Qed.

Lemma merge_ssdp_keys k m A :
  k ∈ (merge_ssdp m A).*1 ↔ k ∈ m.*1 ∨ k ∈ ip <$> A.
Proof.
  revert m. induction A as [|a A IH]; intros m.
  - simpl. rewrite elem_of_nil. tauto.
  - rewrite merge_ssdp_cons, IH, elem_of_Map_set_keys, fmap_cons, elem_of_cons.
    tauto.
Qed.

Lemma merge_ssdp_get_other k m A :
  k ∉ ip <$> A → Map_get k (merge_ssdp m A) = Map_get k m.
Proof.
  revert m. induction A as [|a A IH]; intros m Hk; [done |].
  rewrite fmap_cons, not_elem_of_cons in Hk. destruct Hk as [Hne Hk].
  rewrite merge_ssdp_cons, IH by done. by apply Map_get_set_ne.
Qed.

Lemma merge_ssdp_get a m A :
  NoDup (ip <$> A) → a ∈ A → Map_get (ip a) (merge_ssdp m A) = Some a.
Proof.
  revert m. induction A as [|x A IH]; intros m Hnd Hin.
  - by apply elem_of_nil in Hin.
  - rewrite fmap_cons in Hnd. apply NoDup_cons in Hnd as [Hx Hnd].
    rewrite merge_ssdp_cons. apply elem_of_cons in Hin as [->|Hin].
    + rewrite merge_ssdp_get_other by done. apply Map_get_set_eq.
    + by apply IH.
Qed.

Lemma ip_merged m b : ip (merged m b) = ip b.
Proof. unfold merged. by destruct (Map_get (ip b) m). Qed.

Lemma merge_network_cons m b B :
  merge_network m (b :: B)
  = merge_network (Map_set (ip (merged m b)) (merged m b) m) B.
Proof.
  rewrite ip_merged. unfold merge_network, merged. simpl.
  by destruct (Map_get (ip b) m).
Qed.

Lemma merge_network_wf m B : well_formed m → well_formed (merge_network m B).
Proof.
  revert m. induction B as [|b B IH]; intros m Hm; [done |].
  rewrite merge_network_cons. by apply IH, well_formed_set.
Qed.

Lemma merge_network_keys k m B :
  k ∈ (merge_network m B).*1 ↔ k ∈ m.*1 ∨ k ∈ ip <$> B.
Proof.
  revert m. induction B as [|b B IH]; intros m.
  - simpl. rewrite elem_of_nil. tauto.
  - rewrite merge_network_cons, IH, elem_of_Map_set_keys, ip_merged,
      fmap_cons, elem_of_cons.
    tauto.
Qed.

Lemma merge_network_get_other k m B :
  k ∉ ip <$> B → Map_get k (merge_network m B) = Map_get k m.
Proof.
  revert m. induction B as [|b B IH]; intros m Hk; [done |].
  rewrite fmap_cons, not_elem_of_cons in Hk. destruct Hk as [Hne Hk].
  rewrite merge_network_cons, IH by done.
  apply Map_get_set_ne. by rewrite ip_merged.
Qed.

Lemma merge_network_get b m B :
  NoDup (ip <$> B) → b ∈ B →
  Map_get (ip b) (merge_network m B) = Some (merged m b).
Proof.
  revert m. induction B as [|x B IH]; intros m Hnd Hin.
  - by apply elem_of_nil in Hin.
  - rewrite fmap_cons in Hnd. apply NoDup_cons in Hnd as [Hx Hnd].
    rewrite merge_network_cons. apply elem_of_cons in Hin as [->|Hin].
    + rewrite merge_network_get_other by done.
      rewrite ip_merged. apply Map_get_set_eq.
    + rewrite IH by done. f_equal. rewrite ip_merged. unfold merged.
      rewrite Map_get_set_ne; [done |].
      intros Heq. apply Hx.
      rewrite Heq. by apply list_elem_of_fmap_2.
Qed.

End merge_facts.

(** ** discoverDevices *)

Section discoverDevices_facts.
Import RokuDiscovery Notions.
Variable localeCompare : string → string → Z.
Implicit Types (a b d : DiscoveredDevice) (A B : list DiscoveredDevice).

Lemma insert_by_name_perm a l : insert_by_name localeCompare a l ≡ₚ a :: l.
Proof.
  induction l as [|b l IH]; [done |]. simpl.
  destruct (decide (by_name localeCompare a b)); [done |].
  rewrite IH. apply Permutation_swap.
Qed.

Lemma sort_by_name_perm l : sort_by_name localeCompare l ≡ₚ l.
Proof.
  induction l as [|a l IH]; [done |]. simpl.
  by rewrite insert_by_name_perm, IH.
Qed.

(** C1: the merged result has one record per address of either list, and
    where both lists know an address every field is the scan's when the
    scan's record has it and the SSDP record's otherwise. *)
Theorem discoverDevices_merges_by_address A B :
  NoDup (ip <$> A) → NoDup (ip <$> B) →
  ∃ result,
    discoverDevices localeCompare (fulfilled A) (fulfilled B) = Return result
    ∧ NoDup (ip <$> result)
    ∧ (∀ addr, addr ∈ ip <$> result ↔ addr ∈ ip <$> A ∨ addr ∈ ip <$> B)
    ∧ (∀ a b, a ∈ A → b ∈ B → ip a = ip b →
         ∃ r, r ∈ result
           ∧ ip r = ip b
           ∧ name r = name b
           ∧ modelName r = modelName b
           ∧ serialNumber r = serialNumber b
           ∧ softwareVersion r
             = match softwareVersion b with
               | Some v => Some v
               | None => softwareVersion a
               end
           ∧ deviceType r
             = match deviceType b with
               | Some v => Some v
               | None => deviceType a
               end)
    ∧ (∀ a, a ∈ A → ip a ∉ ip <$> B → a ∈ result)
    ∧ (∀ b, b ∈ B → ip b ∉ ip <$> A → b ∈ result).
Proof.
  intros HA HB. eexists. split; [reflexivity |].
  set (m1 := merge_ssdp [] A). set (m := merge_network m1 B).
  assert (Hwf : well_formed m)
    by apply merge_network_wf, merge_ssdp_wf, well_formed_nil.
  destruct Hwf as [Hkeyed Hnd].
  assert (Hin : ∀ d, d ∈ sort_by_name localeCompare (Map_values m)
                     ↔ Map_get (ip d) m = Some d).
  { intros d. rewrite sort_by_name_perm. by apply elem_of_Map_values. }
  assert (Hips : ip <$> sort_by_name localeCompare (Map_values m) ≡ₚ m.*1).
  { rewrite sort_by_name_perm. by rewrite Hkeyed. }
  split_and!.
  - by rewrite Hips.
  - intros addr. rewrite Hips. unfold m, m1.
    rewrite merge_network_keys, merge_ssdp_keys. simpl.
    rewrite elem_of_nil. tauto.
  - intros a b Ha Hb Hab. exists (spread a b).
    split; [| by repeat split].
    apply Hin. change (ip (spread a b)) with (ip b). unfold m.
    rewrite merge_network_get by done. f_equal. unfold merged, m1.
    by rewrite <- Hab, merge_ssdp_get.
  - intros a Ha Hnot. apply Hin. unfold m, m1.
    rewrite merge_network_get_other by done. by apply merge_ssdp_get.
  - intros b Hb Hnot. apply Hin. unfold m.
    rewrite merge_network_get by done. f_equal. unfold merged, m1.
    rewrite merge_ssdp_get_other by done. done.
Qed.

End discoverDevices_facts.

(** ** The order of the result *)

Section collation_facts.
Import RootCollation Notions.

Lemma localeCompare_le a b :
  localeCompare a b ≤ 0
  ↔ lexico (sort_key a) (sort_key b) ∨ sort_key a = sort_key b.
Proof.
  unfold localeCompare.
  destruct (trichotomyT lexico (sort_key a) (sort_key b)) as [[Hlt|Heq]|Hgt].
  - split; [by left | lia].
  - split; [by right | lia].
  - split; [lia |]. intros [Hlt|Heq].
    + destruct (irreflexivity lexico (sort_key a)). by etrans.
    + rewrite Heq in Hgt. by destruct (irreflexivity lexico (sort_key b)).
Qed.

Lemma localeCompare_consistent : consistent localeCompare.
Proof.
  split.
  - intros a b. rewrite !localeCompare_le.
    destruct (trichotomyT lexico (sort_key a) (sort_key b)) as [[?|?]|?]; auto.
  - intros a b c. rewrite !localeCompare_le. intros [Hab|Hab] [Hbc|Hbc].
    + left. by etrans.
    + left. by rewrite <- Hbc.
    + left. by rewrite Hab.
    + right. congruence.
Qed.

End collation_facts.

Section sorted_facts.
Context {A : Type} (R : relation A).

Lemma Sorted_adjacent l i x y :
  Sorted R l → l !! i = Some x → l !! S i = Some y → R x y.
Proof.
  intros Hs. revert i. induction Hs as [|z l Hs IH Hhd]; intros i Hx Hy.
  - done.
  - destruct i as [|i]; simpl in *.
    + injection Hx as ->. destruct Hhd as [|w l' Hzw]; [done |].
      simpl in Hy. by injection Hy as ->.
    + by apply (IH i).
Qed.

Lemma StronglySorted_lookup l i j x y :
  StronglySorted R l → (i < j)%nat →
  l !! i = Some x → l !! j = Some y → R x y.
Proof.
  intros Hs. revert i j. induction Hs as [|z l Hs IH Hall]; intros i j Hij Hx Hy.
  - done.
  - destruct j as [|j]; [lia |]. destruct i as [|i]; simpl in *.
    + injection Hx as ->. rewrite Forall_forall in Hall.
      apply Hall. by apply list_elem_of_lookup_2 in Hy.
    + apply (IH i j); [lia | done | done].
Qed.

End sorted_facts.

Section order_facts.
Import RokuDiscovery Notions.
Variable localeCompare : string → string → Z.
Hypothesis Hconsistent : consistent localeCompare.

Lemma by_name_total : Total (by_name localeCompare).
Proof. intros a b. apply Hconsistent. Qed.

Lemma by_name_trans : Transitive (by_name localeCompare).
Proof. intros a b c. apply Hconsistent. Qed.

Lemma discoverDevices_found o1 o2 :
  discoverDevices localeCompare o1 o2
  = Return (sort_by_name localeCompare
              (Map_values (merge_network (merge_ssdp [] (found_by o1))
                             (found_by o2)))).
Proof. by destruct o1, o2. Qed.

Lemma insert_by_name_sorted a l :
  StronglySorted (by_name localeCompare) l →
  StronglySorted (by_name localeCompare) (insert_by_name localeCompare a l).
Proof.
  induction 1 as [|b l Hsorted IH Hall]; simpl.
  - by repeat constructor.
  - destruct (decide (by_name localeCompare a b)) as [Hab|Hab].
    + constructor; [by constructor |]. constructor; [done |].
      eapply Forall_impl; [exact Hall |]. intros x Hbx.
      by apply (by_name_trans a b x).
    + constructor; [done |]. rewrite insert_by_name_perm.
      constructor; [| done]. by destruct (by_name_total a b).
Qed.

Lemma sort_by_name_sorted l :
  StronglySorted (by_name localeCompare) (sort_by_name localeCompare l).
Proof.
  induction l as [|a l IH]; simpl; [constructor |].
  by apply insert_by_name_sorted.
Qed.

(** C5, as the code has it: the returned list is in the order of
    [localeCompare] on the names, for adjacent devices and so for any two. *)
Theorem discoverDevices_sorted_by_localeCompare o1 o2 :
  ∃ result,
    discoverDevices localeCompare o1 o2 = Return result
    ∧ (∀ i d1 d2, result !! i = Some d1 → result !! S i = Some d2 →
         localeCompare (name d1) (name d2) ≤ 0)
    ∧ (∀ i j d1 d2, (i < j)%nat → result !! i = Some d1 → result !! j = Some d2 →
         localeCompare (name d1) (name d2) ≤ 0).
Proof.
  eexists. split; [apply discoverDevices_found |]. split.
  - intros i d1 d2. apply (Sorted_adjacent (by_name localeCompare)).
    apply StronglySorted_Sorted, sort_by_name_sorted.
  - intros i j d1 d2. apply (StronglySorted_lookup (by_name localeCompare)).
    apply sort_by_name_sorted.
Qed.

End order_facts.

(** ** Failures of the network stay inside the probes *)

Section probe_facts.
Import RokuDiscovery Notions.

Lemma parseDeviceInfo_ip addr xmlData d :
  parseDeviceInfo addr xmlData = Some d → ip d = addr.
Proof. unfold parseDeviceInfo. by intros [= <-]. Qed.

(** A parsed record has every property, so spreading it over another
    record replaces that record whole. *)
Lemma spread_parsed addr xmlData existing d :
  parseDeviceInfo addr xmlData = Some d → spread existing d = d.
Proof. unfold parseDeviceInfo. by intros [= <-]. Qed.

(** Only a string makes a record: on any other value either [includes]
    or [parseDeviceInfo] throws, and both are caught. *)
Lemma checkIfRokuDevice_cases addr net :
  checkIfRokuDevice addr net = Return None
  ∨ ∃ body : string,
      net = HttpResponse 200 body
      ∧ JsString.truthy body = true
      ∧ JsString.includes body "<device-info>" = true
      ∧ checkIfRokuDevice addr net = Return (parseDeviceInfo addr body).
Proof.
  unfold checkIfRokuDevice. destruct net as [st d|code]; simpl; [| by left].
  destruct (Z.eqb_spec st 200) as [->|]; simpl; [| by left].
  destruct (Js.truthy d) eqn:Ht; simpl; [| by left].
  destruct d as [|b|n|body|elements|properties]; simpl; try by left.
  - destruct (JsString.includes body _) eqn:Hi; simpl; [| by left].
    right. by exists body.
  - by destruct (existsb _ _); left.
Qed.

Lemma checkIfRokuDevice_returns addr net :
  ∃ r, checkIfRokuDevice addr net = Return r.
Proof.
  destruct (checkIfRokuDevice_cases addr net) as [->|(body & _ & _ & _ & ->)];
    by eexists.
Qed.

Lemma checkIfRokuDevice_failed addr net :
  failed net → checkIfRokuDevice addr net = Return None.
Proof. by destruct net. Qed.

Lemma checkIfRokuDevice_ip addr net d :
  checkIfRokuDevice addr net = Return (Some d) → ip d = addr.
Proof.
  destruct (checkIfRokuDevice_cases addr net) as [->|(body & _ & _ & _ & ->)];
    [done |].
  intros Hd. apply (parseDeviceInfo_ip addr body). congruence.
Qed.

Lemma testDevice_returns device net : ∃ b, testDevice device net = Return b.
Proof.
  unfold testDevice. destruct net as [st d|code]; simpl; [| by eexists].
  destruct (status_2xx st); by eexists.
Qed.

Lemma getDeviceInfo_returns location net :
  ∃ r, getDeviceInfo location net = Return r.
Proof.
  unfold getDeviceInfo. destruct (JsString.search _ _); [| by eexists].
  destruct net as [st d|code]; simpl; [| by eexists].
  destruct (status_2xx st); simpl; [| by eexists].
  destruct (Js.truthy d); by eexists.
Qed.

Lemma getDeviceInfo_failed location net :
  failed net → getDeviceInfo location net = Return None.
Proof.
  unfold getDeviceInfo. destruct net; [done |]. intros _.
  by destruct (JsString.search _ _).
Qed.

Lemma on_message_failed devices msg net :
  failed net → on_message devices msg net = devices.
Proof.
  intros Hf. unfold on_message. destruct (_ && _); [| done].
  destruct (JsString.search _ _); [| done].
  by rewrite getDeviceInfo_failed.
Qed.

Lemma on_message_wf devices msg net :
  well_formed devices → well_formed (on_message devices msg net).
Proof.
  intros Hwf. unfold on_message. destruct (_ && _); [| done].
  destruct (JsString.search _ _); [| done].
  destruct (try_catch _ _) as [[d|]|]; [| done | done].
  by apply well_formed_set.
Qed.

(** *** The SSDP probe *)

Lemma ssdp_arrivals st arrivals :
  Forall traffic arrivals →
  let st' := foldl ssdp_step st arrivals in
  listening st' = listening st ∧ timer_set st' = timer_set st
  ∧ resolved st' = resolved st
  ∧ (well_formed (devices st) → well_formed (devices st'))
  ∧ (Forall request_failed arrivals → devices st' = devices st).
Proof.
  intros Hall. revert st. induction Hall as [|e arrivals He _ IH]; intros st.
  - done.
  - simpl. destruct (IH (ssdp_step st e)) as (Hl & Ht & Hr & Hwf & Hd).
    destruct e as [| | |msg net|err]; try done; simpl in *.
    + split_and!; [done.. | |].
      * intros ?. by apply Hwf, on_message_wf.
      * intros [Hf Hrest]%Forall_cons. rewrite Hd by done.
        by apply on_message_failed.
    + split_and!; [done.. |]. intros [_ Hrest]%Forall_cons. by apply Hd.
Qed.

Lemma discoverViaSsdp_run send_error arrivals :
  Forall traffic arrivals →
  ∃ found,
    discoverViaSsdp (ssdp_run send_error arrivals) = Some found
    ∧ NoDup (ip <$> found)
    ∧ (Forall request_failed arrivals → found = []).
Proof.
  intros Hall. unfold discoverViaSsdp, ssdp_run. simpl.
  rewrite foldl_app. simpl.
  set (st := {| devices := []; listening := true; timer_set := true;
                resolved := None |}).
  destruct (ssdp_arrivals st arrivals Hall) as (_ & Ht & Hr & Hwf & Hd).
  simpl in *. rewrite Ht. simpl. rewrite Hr. simpl.
  eexists. split; [done |]. split.
  - destruct (Hwf well_formed_nil) as [Hkeyed Hnd]. by rewrite <- Hkeyed.
  - intros Hfail. by rewrite Hd.
Qed.

(** A socket that never binds never sends, so the timer is never set and
    the promise stays pending. *)
Lemma discoverViaSsdp_unbound events :
  Forall (λ e, e ≠ Listening) events → discoverViaSsdp events = None.
Proof.
  unfold discoverViaSsdp. intros Hall.
  assert (Hinv : ∀ st,
            listening st = false → timer_set st = false → resolved st = None →
            resolved (foldl ssdp_step st events) = None).
  { induction Hall as [|e events He _ IH]; intros st Hl Ht Hr; [done |].
    simpl. apply IH; destruct e; simpl; try done;
      rewrite ?Hl, ?Ht; done. }
  by apply Hinv.
Qed.

(** *** The subnet scan *)

Lemma slices_concat {A} fuel size (l : list A) :
  (0 < size)%nat → (length l ≤ fuel)%nat → concat (slices fuel size l) = l.
Proof.
  intros Hsize. revert l. induction fuel as [|fuel IH]; intros l Hlen.
  - destruct l; [done | simpl in Hlen; lia].
  - destruct l as [|x l]; [done |].
    cbn [slices concat]. rewrite IH.
    + apply take_drop.
    + rewrite length_drop. simpl in *. lia.
Qed.

Lemma chunks_concat {A} size (l : list A) :
  (0 < size)%nat → concat (chunks size l) = l.
Proof. intros. by apply slices_concat. Qed.

Lemma discoverViaNetworkScan_kept net networkRanges :
  discoverViaNetworkScan net networkRanges
  = omap (λ addr, kept (settle (checkIfRokuDevice addr (net addr))))
      (scan_addresses networkRanges).
Proof.
  unfold discoverViaNetworkScan.
  set (checkPromises := _ <$> scan_addresses networkRanges).
  assert (Hinner : ∀ results devices,
    foldl (λ devices result,
             match result with
             | fulfilled (Some value) => devices ++ [value]
             | _ => devices
             end) devices results
    = devices ++ omap kept results).
  { induction results as [|r results IH]; intros devices; simpl.
    - by rewrite app_nil_r.
    - rewrite IH. destruct r as [[v|]|]; simpl; [| done | done].
      by rewrite <- app_assoc. }
  assert (Houter : ∀ cs devices,
    foldl (λ devices chunk,
             foldl (λ devices result,
                      match result with
                      | fulfilled (Some value) => devices ++ [value]
                      | _ => devices
                      end) devices chunk) devices cs
    = devices ++ omap kept (concat cs)).
  { induction cs as [|c cs IH]; intros devices; simpl.
    - by rewrite app_nil_r.
    - rewrite IH, Hinner, omap_app. by rewrite <- app_assoc. }
  rewrite Houter. simpl. rewrite chunks_concat by (unfold chunkSize; lia).
  unfold checkPromises. clear.
  induction (scan_addresses networkRanges) as [|a l IH]; [done |].
  csimpl. by rewrite IH.
Qed.

Lemma discoverViaNetworkScan_failed net networkRanges :
  (∀ addr, failed (net addr)) → discoverViaNetworkScan net networkRanges = [].
Proof.
  intros Hf. rewrite discoverViaNetworkScan_kept.
  induction (scan_addresses networkRanges) as [|a l IH]; [done |].
  simpl. by rewrite checkIfRokuDevice_failed.
Qed.

End probe_facts.

(** ** The scan probes each address once *)

Section scan_addresses_facts.
Import RokuDiscovery Notions.

Lemma has_dot_dotted a x : has_dot (a +:+ String "." x) = true.
Proof.
  induction a as [|c a IH]; [done |].
  change (String c a +:+ String "." x) with (String c (a +:+ String "." x)).
  simpl. by rewrite IH, orb_true_r.
Qed.

Lemma dotted_inj a b x y :
  has_dot x = false → has_dot y = false →
  a +:+ String "." x = b +:+ String "." y → a = b ∧ x = y.
Proof.
  intros Hx Hy. revert b. induction a as [|c a IH]; intros [|d b] Heq.
  - by injection Heq.
  - change (String "." x = String d (b +:+ String "." y)) in Heq.
    injection Heq as _ Heq. rewrite Heq, has_dot_dotted in Hx. done.
  - change (String c (a +:+ String "." x) = String "." y) in Heq.
    injection Heq as _ Heq. rewrite <- Heq, has_dot_dotted in Hy. done.
  - change (String c (a +:+ String "." x) = String d (b +:+ String "." y)) in Heq.
    injection Heq as -> Heq. destruct (IH _ Heq) as [-> ->]. done.
Qed.

Lemma pretty_octet_no_dot i : i ∈ seq 1 254 → has_dot (pretty i) = false.
Proof.
  assert (Hall : Forall (λ i : nat, has_dot (pretty i) = false) (seq 1 254))
    by compute_done.
  rewrite Forall_forall in Hall. apply Hall.
Qed.

Lemma elem_of_octets (range y : string) :
  y ∈ (i ← seq 1 254; [range +:+ "." +:+ pretty i]) →
  ∃ i, i ∈ seq 1 254 ∧ y = range +:+ "." +:+ pretty i.
Proof.
  intros (i & Hy & Hi)%list_elem_of_bind.
  apply list_elem_of_singleton in Hy. by exists i.
Qed.

Lemma scan_addresses_NoDup networkRanges :
  NoDup networkRanges → NoDup (scan_addresses networkRanges).
Proof.
  intros Hnd. unfold scan_addresses. apply NoDup_bind; [| | done].
  - intros r1 r2 y _ _ (i & Hi & ->)%elem_of_octets (j & Hj & Heq)%elem_of_octets.
    by apply dotted_inj in Heq as [? _]; [| apply pretty_octet_no_dot..].
  - intros r _. apply NoDup_bind; [| | apply NoDup_seq].
    + intros i j y _ _ ->%list_elem_of_singleton Heq%list_elem_of_singleton.
      apply (inj (String.app r)), (inj (String.app ".")) in Heq.
      by apply (inj pretty).
    + intros i _. apply NoDup_singleton.
Qed.

Lemma getNetworkRanges_NoDup interfaces : NoDup (getNetworkRanges interfaces).
Proof.
  unfold getNetworkRanges.
  set (add := λ (ranges : list string) (net : NetworkInterfaceInfo), _).
  assert (Hinner : ∀ nets ranges, NoDup ranges → NoDup (foldl add ranges nets)).
  { induction nets as [|net nets IH]; intros ranges Hnd; [done |].
    simpl. apply IH. unfold add.
    destruct (_ && _); [| done].
    destruct (JsString.split _ _) as [|p0 [|p1 [|p2 [|p3 [|]]]]]; try done.
    case_bool_decide; [done |]. by apply NoDup_cons. }
  assert (Houter : ∀ entries ranges,
            NoDup ranges →
            NoDup (foldl (λ ranges (entry : string * list NetworkInterfaceInfo),
                            foldl add ranges entry.2) ranges entries)).
  { induction entries as [|e entries IH]; intros ranges Hnd; [done |].
    simpl. by apply IH, Hinner. }
  apply Houter. compute_done.
Qed.

(** The scan reports an address at most once. *)
Lemma discoverViaNetworkScan_NoDup net interfaces :
  NoDup (ip <$> discoverViaNetworkScan net (getNetworkRanges interfaces)).
Proof.
  rewrite discoverViaNetworkScan_kept.
  pose proof (scan_addresses_NoDup _ (getNetworkRanges_NoDup interfaces)) as Hnd.
  induction Hnd as [|addr addrs Hnotin Hnd IH]; [constructor |].
  csimpl. destruct (checkIfRokuDevice_returns addr (net addr)) as [r Hr].
  rewrite Hr. simpl. destruct r as [d|]; simpl; [| done].
  apply NoDup_cons. split; [| done].
  rewrite (checkIfRokuDevice_ip _ _ _ Hr).
  intros (d' & Hip & Hd')%list_elem_of_fmap.
  apply list_elem_of_omap in Hd' as (addr' & Haddr' & Hkept).
  destruct (checkIfRokuDevice_returns addr' (net addr')) as [r' Hr'].
  rewrite Hr' in Hkept. simpl in Hkept. destruct r' as [d''|]; [| done].
  injection Hkept as ->. apply checkIfRokuDevice_ip in Hr'.
  apply Hnotin. by rewrite Hip, Hr'.
Qed.

End scan_addresses_facts.

Section discover_facts.
Import RokuDiscovery Notions.
Variable localeCompare : string → string → Z.

Lemma discoverDevices_addresses o1 o2 :
  ∃ found,
    discoverDevices localeCompare o1 o2 = Return found
    ∧ NoDup (ip <$> found)
    ∧ (∀ addr, addr ∈ ip <$> found
         ↔ addr ∈ ip <$> found_by o1 ∨ addr ∈ ip <$> found_by o2).
Proof.
  eexists. split; [apply discoverDevices_found |].
  set (m := merge_network _ _).
  assert (Hwf : well_formed m)
    by apply merge_network_wf, merge_ssdp_wf, well_formed_nil.
  destruct Hwf as [Hkeyed Hnd]. split.
  - by rewrite sort_by_name_perm, <- Hkeyed.
  - intros addr. rewrite sort_by_name_perm, <- Hkeyed. unfold m.
    rewrite merge_network_keys, merge_ssdp_keys. simpl.
    rewrite elem_of_nil. tauto.
Qed.

(** X27: whatever the two strategies come to, [discoverDevices] returns,
    and what it returns has each address that a fulfilled strategy found,
    once, and no other; two rejections give the empty list.  Once the SSDP
    promise is settled [discover] resolves with the addresses of the two
    probes; over a whole run of the probes it is settled, and when every
    request failed the list is empty. *)
Theorem discover_returns_what_the_probes_found :
  (∀ o1 o2,
     ∃ found,
       discoverDevices localeCompare o1 o2 = Return found
       ∧ NoDup (ip <$> found)
       ∧ (∀ addr, addr ∈ ip <$> found
            ↔ addr ∈ ip <$> found_by o1 ∨ addr ∈ ip <$> found_by o2))
  ∧ (∀ r1 r2,
       discoverDevices localeCompare (rejected r1) (rejected r2) = Return [])
  ∧ (∀ events net interfaces ssdp,
       discoverViaSsdp events = Some ssdp →
       ∃ found,
         discover localeCompare events net interfaces = Some (Return found)
         ∧ NoDup (ip <$> found)
         ∧ (∀ addr, addr ∈ ip <$> found
              ↔ addr ∈ ip <$> ssdp
                ∨ addr ∈ ip <$> discoverViaNetworkScan net
                                  (getNetworkRanges interfaces)))
  ∧ (∀ send_error arrivals,
       Forall traffic arrivals →
       is_Some (discoverViaSsdp (ssdp_run send_error arrivals)))
  ∧ (∀ send_error arrivals net interfaces,
       Forall traffic arrivals →
       Forall request_failed arrivals →
       (∀ addr, failed (net addr)) →
       discover localeCompare (ssdp_run send_error arrivals) net interfaces
       = Some (Return [])).
Proof.
  split_and!.
  - apply discoverDevices_addresses.
  - done.
  - intros events net interfaces ssdp Hssdp. unfold discover. rewrite Hssdp.
    simpl.
    destruct (discoverDevices_addresses (fulfilled ssdp)
                (fulfilled (discoverViaNetworkScan net (getNetworkRanges interfaces))))
      as (found & -> & Hnd & Haddr).
    by exists found.
  - intros send_error arrivals Hall.
    destruct (discoverViaSsdp_run send_error arrivals Hall) as (found & -> & _).
    by eexists.
  - intros send_error arrivals net interfaces Hall Hfail Hnet. unfold discover.
    destruct (discoverViaSsdp_run send_error arrivals Hall)
      as (found & -> & _ & Hnil).
    simpl. rewrite (Hnil Hfail), discoverViaNetworkScan_failed by done.
    done.
Qed.

(** C2: a socket that fails before it is bound (its ['error'] handler does
    nothing) never sends the search, so the timer that resolves the SSDP
    promise is never set: whatever else happens, the promise stays pending,
    and with it [discoverDevices], whatever the scan has found. *)
Theorem discover_stays_pending_when_the_socket_fails events net interfaces :
  Forall (λ e, e ≠ Listening) events →
  discoverViaSsdp events = None
  ∧ discover localeCompare events net interfaces = None.
Proof.
  intros Hunbound. unfold discover.
  by rewrite discoverViaSsdp_unbound.
Qed.

End discover_facts.

Section discovery_examples.
Import RokuDiscovery Notions Scenario.

(** The device both probes found carries the scan's device type and the
    SSDP probe's software version. *)
Lemma discoverDevices_merges_by_address_witness :
  NoDup (ip <$> [bedroom_ssdp; kitchen])
  ∧ NoDup (ip <$> [bedroom_scan; living_room])
  ∧ ∃ result,
      discoverDevices RootCollation.localeCompare
        (fulfilled [bedroom_ssdp; kitchen]) (fulfilled [bedroom_scan; living_room])
      = Return result
      ∧ NoDup (ip <$> result)
      ∧ ∃ r, r ∈ result ∧ ip r = "192.168.1.20"
          ∧ softwareVersion r = Some "11.5.0" ∧ deviceType r = Some "box".
Proof.
  assert (HA : NoDup (ip <$> [bedroom_ssdp; kitchen]))
    by compute_done.
  assert (HB : NoDup (ip <$> [bedroom_scan; living_room]))
    by compute_done.
  split; [exact HA |]. split; [exact HB |].
  destruct (discoverDevices_merges_by_address RootCollation.localeCompare
              [bedroom_ssdp; kitchen] [bedroom_scan; living_room] HA HB)
    as (result & Hres & Hnd & _ & Hboth & _).
  exists result. split; [exact Hres |]. split; [exact Hnd |].
  destruct (Hboth bedroom_ssdp bedroom_scan) as (r & Hr & Hip & _ & _ & _ & Hsv & Hdt).
  - apply list_elem_of_here.
  - apply list_elem_of_here.
  - reflexivity.
  - exists r. split; [exact Hr |]. split; [exact Hip |].
    split; [exact Hsv | exact Hdt].
Defined.

Lemma discoverDevices_sorted_by_localeCompare_witness :
  consistent RootCollation.localeCompare
  ∧ ∃ result,
      discoverDevices RootCollation.localeCompare
        (fulfilled [bedroom_ssdp; kitchen]) (fulfilled [bedroom_scan; living_room])
      = Return result
      ∧ (∀ i d1 d2, result !! i = Some d1 → result !! S i = Some d2 →
           RootCollation.localeCompare (name d1) (name d2) ≤ 0)
      ∧ (∀ i j d1 d2, (i < j)%nat →
           result !! i = Some d1 → result !! j = Some d2 →
           RootCollation.localeCompare (name d1) (name d2) ≤ 0).
Proof.
  split; [exact localeCompare_consistent |].
  exact (discoverDevices_sorted_by_localeCompare RootCollation.localeCompare
           localeCompare_consistent
           (fulfilled [bedroom_ssdp; kitchen])
           (fulfilled [bedroom_scan; living_room])).
Defined.

(** C5, as the claim has it, fails: "bedroom" is returned before
    "Living Room", and in character code order it comes after it. *)
Lemma discoverDevices_not_in_code_order :
  discoverDevices RootCollation.localeCompare
    (fulfilled [bedroom_ssdp]) (fulfilled [living_room])
  = Return [bedroom_ssdp; living_room]
  ∧ ¬ String.le (name bedroom_ssdp) (name living_room).
Proof. split; [by vm_compute | by vm_compute]. Qed.

Example discoverDevices_scenario :
  discoverDevices RootCollation.localeCompare
    (fulfilled [bedroom_ssdp; kitchen]) (fulfilled [bedroom_scan; living_room])
  = Return [spread bedroom_ssdp bedroom_scan; kitchen; living_room].
Proof. by vm_compute. Qed.

Example on_message_reply :
  on_message [] ssdp_reply (HttpResponse 200 device_info)
  = [("192.168.1.20",
      {| ip := "192.168.1.20";
         name := "bedroom";
         modelName := "Roku Ultra";
         serialNumber := "X004000B231";
         softwareVersion := Some "11.5.0";
         deviceType := Some "" |})].
Proof. by vm_compute. Qed.

Example checkIfRokuDevice_not_found :
  checkIfRokuDevice "10.0.0.7" (HttpResponse 404 device_info) = Return None.
Proof. by vm_compute. Qed.

Example getNetworkRanges_own_prefix_first :
  getNetworkRanges interfaces
  = ["192.168.86"; "192.168.1"; "192.168.0"; "10.0.0"; "10.0.1"; "172.16.0"].
Proof. by vm_compute. Qed.

Example chunks_of_one_prefix :
  length <$> chunks chunkSize (scan_addresses ["10.0.0"])
  = [50; 50; 50; 50; 50; 4]%nat.
Proof. by vm_compute. Qed.

Example discover_dead_network :
  discover RootCollation.localeCompare
    (ssdp_run (Some "ENETUNREACH") [SocketError "EHOSTUNREACH"; lost_reply])
    dead_network []
  = Some (Return []).
Proof. by vm_compute. Qed.

(** The socket cannot be bound, on a network where the scan finds the
    bedroom device. *)
Lemma discover_stays_pending_when_the_socket_fails_witness :
  Forall (λ e, e ≠ Listening) [SocketError "bind EACCES"]
  ∧ discoverViaNetworkScan Cases.one_roku (getNetworkRanges interfaces)
    = [Cases.bedroom_parsed]
  ∧ discover RootCollation.localeCompare [SocketError "bind EACCES"]
      Cases.one_roku interfaces
    = None.
Proof.
  assert (Hunbound : Forall (λ e, e ≠ Listening) [SocketError "bind EACCES"])
    by (by repeat constructor).
  split; [exact Hunbound |]. split; [by vm_compute |].
  exact (proj2 (discover_stays_pending_when_the_socket_fails
                  RootCollation.localeCompare [SocketError "bind EACCES"]
                  Cases.one_roku interfaces Hunbound)).
Defined.

End discovery_examples.

(** ** The subnet scan issues every request at once *)

Section scan_facts.
Import RokuDiscovery Notions.

Lemma bind_singleton_length {A B} (f : A → B) (l : list A) :
  length (x ← l; [f x]) = length l.
Proof. induction l as [|x l IH]; [done |]. csimpl. by rewrite IH. Qed.

Lemma scan_addresses_length networkRanges :
  length (scan_addresses networkRanges) = (254 * length networkRanges)%nat.
Proof.
  unfold scan_addresses. induction networkRanges as [|r rs IH]; [done |].
  rewrite bind_cons, length_app, IH, bind_singleton_length, length_seq.
  simpl length. lia.
Qed.

Lemma getNetworkRanges_length interfaces :
  (5 ≤ length (getNetworkRanges interfaces))%nat.
Proof.
  unfold getNetworkRanges.
  set (add := λ (ranges : list string) (net : NetworkInterfaceInfo), _).
  assert (Hinner : ∀ nets ranges,
            (length ranges ≤ length (foldl add ranges nets))%nat).
  { induction nets as [|net nets IH]; intros ranges; [done |].
    simpl. etrans; [| apply IH]. unfold add.
    destruct (_ && _); [| done].
    destruct (JsString.split _ _) as [|p0 [|p1 [|p2 [|p3 [|]]]]]; try done.
    destruct (bool_decide _); simpl; lia. }
  assert (Houter : ∀ entries ranges,
            (length ranges
             ≤ length (foldl (λ ranges (entry : string * list NetworkInterfaceInfo),
                                foldl add ranges entry.2) ranges entries))%nat).
  { induction entries as [|e entries IH]; intros ranges; [done |].
    simpl. etrans; [apply Hinner | apply IH]. }
  etrans; [| apply Houter]. done.
Qed.

Lemma before_first_await_requests addrs chunks :
  before_first_await ((RequestIssued <$> addrs) ++ (AwaitAllSettled <$> chunks))
  = RequestIssued <$> addrs.
Proof.
  induction addrs as [|a addrs IH].
  - by destruct chunks.
  - rewrite !fmap_cons. cbn [app before_first_await]. by rewrite IH.
Qed.

Lemma in_flight_after_requests addrs :
  in_flight_after (RequestIssued <$> addrs) = reverse addrs.
Proof.
  unfold in_flight_after.
  assert (H : ∀ acc, foldl scan_step acc (RequestIssued <$> addrs)
                     = reverse addrs ++ acc).
  { induction addrs as [|a addrs IH]; intros acc; [done |].
    simpl. rewrite IH, reverse_cons, <- app_assoc. done. }
  by rewrite H, app_nil_r.
Qed.

(** C4 fails on the code: when the scan first awaits, a request has been
    issued for every address, 254 for each prefix and at least 1270, and
    none of them can have settled. *)
Theorem scan_requests_all_in_flight interfaces :
  let networkRanges := getNetworkRanges interfaces in
  let in_flight :=
    in_flight_after
      (before_first_await (discoverViaNetworkScan_events networkRanges)) in
  in_flight = reverse (scan_addresses networkRanges)
  ∧ length in_flight = (254 * length networkRanges)%nat
  ∧ (1270 ≤ length in_flight)%nat.
Proof.
  intros networkRanges in_flight. unfold in_flight, discoverViaNetworkScan_events.
  rewrite before_first_await_requests, in_flight_after_requests.
  rewrite length_reverse, scan_addresses_length.
  split_and!; [done | done |].
  pose proof (getNetworkRanges_length interfaces). unfold networkRanges. lia.
Qed.

End scan_facts.

(** ** The credential test *)

Section api_facts.
Import RokuAPI.

Lemma testConnection_returns this device :
  ∃ b, testConnection this device = Return b.
Proof.
  unfold testConnection. destruct (device _) as [st d|code]; simpl; [| by eexists].
  destruct (status_2xx st); by eexists.
Qed.

Lemma testConnection_refused this device :
  (∃ d, device (testConnection_request this) = HttpResponse 401 d)
  ∨ (∃ d, device (testConnection_request this) = HttpResponse 403 d)
  ∨ (∃ code, device (testConnection_request this) = HttpFailure code) →
  testConnection this device = Return false.
Proof.
  unfold testConnection. by intros [[d ->]|[[d ->]|[code ->]]].
Qed.

(** C3 fails on the code: the request of [testConnection] carries no
    credentials, so its answer is the same for every password; a device
    that turns a wrong password down with 401 on the installer still makes
    [testConnection] return true. *)
Theorem testConnection_ignores_password :
  (∀ ip password, credentials (testConnection_request (new ip password)) = None)
  ∧ (∀ ip password password' device,
       testConnection (new ip password) device
       = testConnection (new ip password') device)
  ∧ developer_device "192.168.1.20" "secret"
      (rekeyDevice_request (new "192.168.1.20" "wrong"))
    = HttpResponse 401 ""
  ∧ testConnection (new "192.168.1.20" "wrong")
      (developer_device "192.168.1.20" "secret")
    = Return true.
Proof. split_and!; [done | done | by vm_compute | by vm_compute]. Qed.

End api_facts.

(** ** The build task runner *)

Section task_facts.
Import VscodeTasks Notions Scenario.

Lemma task_step_idle task st e :
  escalation_is_idle st → escalation_is_idle (task_step task st e).
Proof.
  intros [Hsig Hesc]. unfold escalation_is_idle.
  destruct st as [[k r] tid esc del stl]. simpl in *.
  destruct e as [| |code|err]; simpl.
  - destruct tid; [| done]. unfold kill. simpl.
    destruct r; simpl.
    + split; [| by left]. rewrite elem_of_app, list_elem_of_singleton.
      intros [?|?]; done.
    + split; [| by right]. by rewrite app_nil_r.
  - destruct esc; [| done]. destruct k; simpl; [done |].
    destruct (Hesc eq_refl) as [?| ->]; [done |].
    unfold kill. simpl. split; [by rewrite app_nil_r | done].
  - split; [done | by right].
  - done.
Qed.

Lemma executeTask_idle task timeout events :
  escalation_is_idle (executeTask task timeout events).
Proof.
  unfold executeTask. destruct (resolve_command task).
  - assert (H : ∀ st, escalation_is_idle st →
                      escalation_is_idle (foldl (task_step task) st events)).
    { induction events as [|e events IH]; intros st Hst; [done |].
      simpl. by apply IH, task_step_idle. }
    apply H. split; [apply not_elem_of_nil | done].
  - split; [apply not_elem_of_nil | done].
Qed.

(** C6 fails on the code: no run of the task ever delivers SIGKILL, a task
    that ignores SIGTERM is left running with its promise pending, and a
    task stopped by the timeout is rejected with the message of a task
    stopped by any signal, which the caller does not take for a timeout. *)
Theorem executeTask_timeout_is_not_told_apart :
  (∀ task timeout events,
     SIGKILL ∉ delivered (executeTask task timeout events))
  ∧ (∀ task timeout,
       settled (executeTask task timeout [TimeoutElapsed; Close None])
       = settled (executeTask task None [Close None]))
  ∧ settled (executeTask build_task (Some 100) [TimeoutElapsed; Close None])
    = Some (Throw (terminated_message build_task))
  ∧ reported_as_timeout
      (settled (executeTask build_task (Some 100) [TimeoutElapsed; Close None]))
    = false
  ∧ (let st := executeTask build_task (Some 100)
                 [TimeoutElapsed; EscalationElapsed] in
     delivered st = [SIGTERM] ∧ running (child st) = true ∧ settled st = None).
Proof.
  split_and!.
  - intros task timeout events. apply executeTask_idle.
  - intros task timeout. unfold executeTask.
    destruct (resolve_command task); [| done].
    destruct timeout as [t|]; [| done]. simpl.
    by destruct (negb (t =? 0)).
  - by vm_compute.
  - by vm_compute.
  - by vm_compute.
Qed.

End task_facts.

(** ** Project validation *)

Section validate_facts.
Import RokuDeployManager.
Context `{PathModule}.
Implicit Types (fs : FileSystem) (rootDir : string).

(** C8: every missing item is listed, the manifest and the source
    directory together when both are missing, and the project is valid
    exactly when nothing is listed. *)
Theorem validateProject_lists_every_missing_item fs rootDir :
  let manifest := existsSync fs (path_join rootDir "manifest") in
  let source := existsSync fs (path_join rootDir "source") in
  let main := existsSync fs (path_join (path_join rootDir "source") "main.brs") in
  let result := validateProject fs rootDir in
  (valid result = true ↔ errors result = [])
  ∧ (valid result = true ↔ manifest = true ∧ source = true ∧ main = true)
  ∧ (missing_manifest ∈ errors result ↔ manifest = false)
  ∧ (missing_source ∈ errors result ↔ source = false)
  ∧ (missing_main ∈ errors result ↔ source = true ∧ main = false)
  ∧ (manifest = false ∧ source = false →
     valid result = false
     ∧ missing_manifest ∈ errors result
     ∧ missing_source ∈ errors result).
Proof.
  intros manifest source main result.
  unfold result, validateProject. fold manifest source main.
  destruct manifest, source, main; simpl;
    rewrite ?elem_of_cons, ?elem_of_nil;
    unfold missing_manifest, missing_source, missing_main;
    split_and!; split; intros; destruct_and?; destruct_or?;
    try done; auto 6.
Qed.

(** C10: without a source directory the entry point is never reported. *)
Theorem validateProject_masks_entry_point fs rootDir :
  existsSync fs (path_join rootDir "source") = false →
  missing_main ∉ errors (validateProject fs rootDir).
Proof.
  intros Hsource. unfold validateProject. rewrite Hsource. simpl.
  destruct (existsSync fs (path_join rootDir "manifest")); simpl;
    rewrite ?not_elem_of_cons; split_and?; try done; apply not_elem_of_nil.
Qed.

End validate_facts.

Lemma validateProject_masks_entry_point_witness :
  existsSync ∅ (PosixPath.join "/app" "source") = false
  ∧ RokuDeployManager.missing_main
    ∉ RokuDeployManager.errors
        (RokuDeployManager.validateProject (H := PosixPath.posix) ∅ "/app").
Proof.
  split; [reflexivity |].
  apply (validateProject_masks_entry_point (H := PosixPath.posix) ∅ "/app").
  reflexivity.
Defined.

Example validateProject_empty_directory :
  RokuDeployManager.validateProject (H := PosixPath.posix) ∅ "/app"
  = {| RokuDeployManager.valid := false;
       RokuDeployManager.errors :=
         [RokuDeployManager.missing_manifest; RokuDeployManager.missing_source] |}.
Proof. reflexivity. Qed.

(** ** Relocating the artifact *)

Section relocate_facts.
Import Generate Notions.
Context `{PathModule}.

Lemma stat_Some fs p i :
  stat fs p = Some i → p ≠ "" ∧ fs !! path_resolve p = Some i.
Proof. unfold stat. by destruct (decide (p = "")). Qed.

Lemma stat_lookup fs p : p ≠ "" → stat fs p = fs !! path_resolve p.
Proof. intros. unfold stat. by rewrite decide_False. Qed.

Lemma stat_write_entry fs p i q :
  q ≠ "" →
  stat (write_entry p i fs) q
  = if decide (path_resolve q = path_resolve p) then Some i else stat fs q.
Proof.
  intros Hq. unfold write_entry. rewrite !stat_lookup by done.
  destruct (decide _) as [->|Hne].
  - by rewrite lookup_insert_eq.
  - by rewrite lookup_insert_ne.
Qed.

Lemma stat_remove_entry fs p q :
  stat (remove_entry p fs) q
  = if decide (path_resolve q = path_resolve p) then None else stat fs q.
Proof.
  unfold remove_entry, stat. destruct (decide (q = "")); [by destruct (decide _) |].
  destruct (decide _) as [->|Hne].
  - by rewrite lookup_delete_eq.
  - by rewrite lookup_delete_ne.
Qed.

Lemma stat_same_file fs p q :
  p ≠ "" → q ≠ "" → path_resolve p = path_resolve q → stat fs p = stat fs q.
Proof. intros Hp Hq Heq. rewrite !stat_lookup by done. by rewrite Heq. Qed.

(** X26: at the output path already, nothing is copied or deleted and
    the world (the file and its time stamp with it) is as before.  An
    artifact that is another file than the one at the output path is copied
    there, and the original is removed exactly when the directory it is
    named in is spelled otherwise than the output's; no other file is
    touched. *)
Theorem relocate_moves_between_files w packagePath outputLocation content mtime :
  stat (files w) packagePath = Some (RegularFile content mtime) →
  outputLocation ≠ "" →
  stat (files w) outputLocation ≠ Some Directory →
  path_resolve packagePath ≠ path_resolve outputLocation →
  relocate outputLocation outputLocation w = (Next outputLocation, w)
  ∧ ∃ w',
      relocate packagePath outputLocation w = (Next outputLocation, w')
      ∧ stat (files w') outputLocation = Some (RegularFile content (now w))
      ∧ (stat (files w') packagePath = None
         ↔ path_dirname packagePath ≠ path_dirname outputLocation)
      ∧ (path_dirname packagePath = path_dirname outputLocation →
         stat (files w') packagePath = Some (RegularFile content mtime))
      ∧ effects w'
        = effects w ++ CopyFile packagePath outputLocation
            :: (if decide (path_dirname packagePath ≠ path_dirname outputLocation)
                then [Unlink packagePath] else [])
      ∧ (∀ p, path_resolve p ≠ path_resolve packagePath →
              path_resolve p ≠ path_resolve outputLocation →
              stat (files w') p = stat (files w) p).
Proof.
  intros Hstat Hout Hnodir Hfiles. split.
  - unfold relocate. rewrite bool_decide_eq_false_2 by (by intros ?).
    by rewrite andb_false_r.
  - destruct (stat_Some _ _ _ Hstat) as [Hp Hfile].
    assert (Hne : packagePath ≠ outputLocation) by (by intros ->).
    unfold relocate.
    rewrite (proj2 (truthy_true packagePath) Hp).
    rewrite bool_decide_eq_true_2 by done. simpl.
    unfold mbind, M_bind, copyFileSync. rewrite Hstat.
    rewrite !decide_False by done.
    set (copied := write_entry outputLocation (RegularFile content (now w)) (files w)).
    assert (Hcopy :
      (match stat (files w) outputLocation with
       | Some Directory =>
           (Throws "EISDIR: illegal operation on a directory, copyfile", w)
       | _ => emit (CopyFile packagePath outputLocation)
                {| files := copied; now := now w; effects := effects w |}
       end)
      = (Next (), {| files := copied; now := now w;
                     effects := effects w ++ [CopyFile packagePath outputLocation] |})).
    { by destruct (stat (files w) outputLocation) as [[]|]. }
    rewrite Hcopy. clear Hcopy.
    assert (Hthere : stat copied packagePath = Some (RegularFile content mtime)).
    { unfold copied. rewrite stat_write_entry by done.
      by rewrite decide_False by done. }
    assert (Hplaced : stat copied outputLocation = Some (RegularFile content (now w))).
    { unfold copied. rewrite stat_write_entry by done. by rewrite decide_True. }
    destruct (decide (path_dirname packagePath ≠ path_dirname outputLocation))
      as [Hdir|Hdir].
    + rewrite bool_decide_eq_true_2 by done.
      unfold unlinkSync. simpl. rewrite Hthere. simpl.
      eexists. split; [reflexivity |]. simpl. split_and!.
      * rewrite stat_remove_entry. by rewrite decide_False by done.
      * split; [done |]. intros _. rewrite stat_remove_entry. by rewrite decide_True.
      * intros Heq. by destruct Hdir.
      * by rewrite <- app_assoc.
      * intros q Hq1 Hq2. rewrite stat_remove_entry, decide_False by done.
        unfold copied, stat, write_entry. destruct (decide (q = "")); [done |].
        by rewrite lookup_insert_ne.
    + rewrite bool_decide_eq_false_2 by done. simpl.
      eexists. split; [reflexivity |]. simpl. split_and!.
      * done.
      * rewrite Hthere. split; [done |]. intros ?. by destruct Hdir.
      * done.
      * done.
      * intros q Hq1 Hq2.
        unfold copied, stat, write_entry. destruct (decide (q = "")); [done |].
        by rewrite lookup_insert_ne.
Qed.

(** C9: an artifact that is already the file at the output path, named by
    another spelling whose directory part differs ([out/demo.pkg] for
    [./out/demo.pkg]), is not left where it is: nothing is copied, the one
    file is removed, and reading its size then fails, so that the run ends
    without a package. *)
Theorem relocate_removes_the_artifact_in_place
    w packagePath outputLocation content mtime :
  stat (files w) packagePath = Some (RegularFile content mtime) →
  outputLocation ≠ "" →
  packagePath ≠ outputLocation →
  path_resolve packagePath = path_resolve outputLocation →
  path_dirname packagePath ≠ path_dirname outputLocation →
  stat (files w) outputLocation = Some (RegularFile content mtime)
  ∧ ∃ w',
      relocate packagePath outputLocation w = (Next outputLocation, w')
      ∧ effects w'
        = effects w ++ [CopyFile packagePath outputLocation; Unlink packagePath]
      ∧ stat (files w') outputLocation = None
      ∧ stat (files w') packagePath = None
      ∧ files w' = remove_entry outputLocation (files w)
      ∧ move_and_report packagePath outputLocation w
        = (Throws "ENOENT: no such file or directory, stat", w').
Proof.
  intros Hstat Hout Hne Hsame Hdir.
  destruct (stat_Some _ _ _ Hstat) as [Hp Hfile].
  split; [by rewrite <- (stat_same_file _ packagePath) |].
  assert (Hrelocate :
    relocate packagePath outputLocation w
    = (Next outputLocation,
       {| files := remove_entry packagePath (files w); now := now w;
          effects := effects w
                     ++ [CopyFile packagePath outputLocation; Unlink packagePath] |})).
  { unfold relocate.
    rewrite (proj2 (truthy_true packagePath) Hp).
    rewrite bool_decide_eq_true_2 by done. simpl.
    unfold mbind, M_bind, copyFileSync. rewrite Hstat.
    rewrite decide_False by done. rewrite decide_True by done.
    unfold emit. rewrite bool_decide_eq_true_2 by done.
    unfold unlinkSync. simpl. rewrite Hstat. simpl.
    by rewrite <- app_assoc. }
  eexists. split; [exact Hrelocate |]. simpl. split_and!.
  - done.
  - rewrite stat_remove_entry. by rewrite decide_True.
  - rewrite stat_remove_entry. by rewrite decide_True.
  - unfold remove_entry. by rewrite Hsame.
  - unfold move_and_report, mbind, M_bind. rewrite Hrelocate.
    unfold statSync_size. simpl.
    rewrite stat_remove_entry. by rewrite decide_True.
Qed.

End relocate_facts.

Section relocate_examples.
Import Generate Scenario.

Lemma relocate_moves_between_files_witness :
  stat (files staged) "/tmp/staged/demo.pkg"
  = Some (RegularFile "signed package" 10)
  ∧ outputLocation demo ≠ ""
  ∧ relocate (H := PosixPath.posix) (outputLocation demo) (outputLocation demo) staged
    = (Next (outputLocation demo), staged)
  ∧ ∃ w',
      relocate (H := PosixPath.posix) "/tmp/staged/demo.pkg" (outputLocation demo) staged
      = (Next "/out/demo.pkg", w')
      ∧ stat (files w') "/out/demo.pkg" = Some (RegularFile "signed package" 20)
      ∧ stat (files w') "/tmp/staged/demo.pkg" = None.
Proof.
  assert (Hstat : stat (files staged) "/tmp/staged/demo.pkg"
                  = Some (RegularFile "signed package" 10)) by reflexivity.
  assert (Hout : outputLocation demo ≠ "") by discriminate.
  assert (Hnodir : stat (files staged) (outputLocation demo) ≠ Some Directory)
    by (vm_compute; discriminate).
  assert (Hfiles : path_resolve "/tmp/staged/demo.pkg"
                   ≠ path_resolve (outputLocation demo))
    by (vm_compute; discriminate).
  split; [exact Hstat |]. split; [exact Hout |].
  destruct (relocate_moves_between_files (H := PosixPath.posix) staged
              "/tmp/staged/demo.pkg" (outputLocation demo)
              "signed package" 10 Hstat Hout Hnodir Hfiles) as [Hsame Hmove].
  split; [exact Hsame |].
  destruct Hmove as (w' & Hrel & Hcopy & Hgone & _).
  exists w'. split; [exact Hrel |]. split; [exact Hcopy |].
  apply Hgone. vm_compute. discriminate.
Defined.

(** The scenario of the specification: the artifact staged under /tmp ends
    at /out/demo.pkg and the staged file is removed. *)
Example relocate_scenario :
  relocate (H := PosixPath.posix) "/tmp/staged/demo.pkg" (outputLocation demo) staged
  = (Next "/out/demo.pkg",
     {| files := {[ "/out/demo.pkg" := RegularFile "signed package" 20 ]};
        now := 20;
        effects := [CopyFile "/tmp/staged/demo.pkg" "/out/demo.pkg";
                    Unlink "/tmp/staged/demo.pkg"] |}).
Proof. by vm_compute. Qed.

(** The package is in ./out, where roku-deploy has left it and where the
    project wants it: [createPackage] names it out/demo.pkg, the project
    ./out/demo.pkg. *)
Lemma relocate_removes_the_artifact_in_place_witness :
  let made :=
    {| files := {[ "/work/out/demo.pkg" := RegularFile "signed package" 10 ]};
       now := 20; effects := [] |} in
  stat (files made) "out/demo.pkg" = Some (RegularFile "signed package" 10)
  ∧ stat (files made) "./out/demo.pkg" = Some (RegularFile "signed package" 10)
  ∧ ∃ w',
      relocate (H := PosixPath.posix) "out/demo.pkg" "./out/demo.pkg" made
      = (Next "./out/demo.pkg", w')
      ∧ effects w'
        = [CopyFile "out/demo.pkg" "./out/demo.pkg"; Unlink "out/demo.pkg"]
      ∧ stat (files w') "./out/demo.pkg" = None
      ∧ files w' = ∅
      ∧ move_and_report (H := PosixPath.posix) "out/demo.pkg" "./out/demo.pkg" made
        = (Throws "ENOENT: no such file or directory, stat", w').
Proof.
  intros made.
  assert (Hstat : stat (files made) "out/demo.pkg"
                  = Some (RegularFile "signed package" 10)) by reflexivity.
  assert (Hout : "./out/demo.pkg" ≠ "") by discriminate.
  assert (Hne : "out/demo.pkg" ≠ "./out/demo.pkg") by discriminate.
  assert (Hsame : path_resolve "out/demo.pkg" = path_resolve "./out/demo.pkg")
    by reflexivity.
  assert (Hdir : path_dirname "out/demo.pkg" ≠ path_dirname "./out/demo.pkg")
    by (vm_compute; discriminate).
  split; [exact Hstat |].
  destruct (relocate_removes_the_artifact_in_place (H := PosixPath.posix) made
              "out/demo.pkg" "./out/demo.pkg" "signed package" 10
              Hstat Hout Hne Hsame Hdir)
    as (Hthere & w' & Hrel & Heff & Hgone & _ & Hfiles & Hreport).
  split; [exact Hthere |].
  exists w'. split; [exact Hrel |]. split; [exact Heff |].
  split; [exact Hgone |]. split; [| exact Hreport].
  rewrite Hfiles. by vm_compute.
Defined.

(** A package-only run of a project that keeps its package in ./out: the
    package is made, then removed, and the action returns. *)
Example package_only_into_the_directory_of_roku_deploy :
  deploy_and_relocate (H := PosixPath.posix) Cases.package_only
    Cases.kept_in_out Cases.packaging Cases.nothing_made
  = (Returns,
     {| files := {[ "/work/out/demo.zip" := RegularFile "zip" 0 ]};
        now := 20;
        effects := [CreatePackage;
                    CopyFile "out/demo.pkg" "./out/demo.pkg";
                    Unlink "out/demo.pkg"] |}).
Proof. by vm_compute. Qed.

End relocate_examples.

(** ** The deploy raced against its timer *)

Section deploy_facts.
Import Generate Notions.
Context `{PathModule}.





Lemma deploy_and_relocate_unfold options project c w :
  deploy_and_relocate options project c w
  = match deploy_step options c w with
    | (Next packagePath, w1) =>
        match move_and_report packagePath (outputLocation project) w1 with
        | (Throws _, w') => (Returns, w')
        | r => r
        end
    | (Throws _, w1) => (Returns, w1)
    | (Returns, w1) => (Returns, w1)
    | (Exits code, w1) => (Exits code, w1)
    end.
Proof.
  unfold deploy_and_relocate, try_catchM, mbind, M_bind.
  by destruct (deploy_step options c w) as [[p|msg| |code] w1].
Qed.



End deploy_facts.

Section deploy_examples.
Import Generate Notions Scenario.



Example deploymentTimeout_skipped_build :
  deploymentTimeout skipped_build = 180000.
Proof. reflexivity. Qed.

(** Only the skip flag shortens the race: a run that reuses an existing
    build runs no task either and still gets the 5 minutes. *)
Example deploymentTimeout_existing_build :
  deploymentTimeout existing_build = 300000.
Proof. reflexivity. Qed.

End deploy_examples.

(** ** The ranges and addresses of the scan *)

Section ranges_facts.
Import RokuDiscovery Notions Readings.

Lemma getNetworkRanges_unfold interfaces :
  getNetworkRanges interfaces
  = foldl (λ ranges net,
             match own_prefix net with
             | Some networkBase =>
                 if bool_decide (networkBase ∈ ranges) then ranges
                 else networkBase :: ranges
             | None => ranges
             end) default_ranges (interfaces ≫= snd).
Proof.
  unfold getNetworkRanges, default_ranges.
  generalize ["192.168.1"; "192.168.0"; "10.0.0"; "10.0.1"; "172.16.0"].
  induction interfaces as [|entry interfaces IH]; intros ranges; [done |].
  rewrite bind_cons, foldl_app. simpl. rewrite IH. f_equal.
  generalize (entry.2). clear. intros nets. revert ranges.
  induction nets as [|net nets IH]; intros ranges; [done |].
  simpl. rewrite IH. f_equal. unfold own_prefix.
  destruct (_ && _); [| done].
  by destruct (JsString.split _ _) as [|p0 [|p1 [|p2 [|p3 [|]]]]].
Qed.

(** X1: the ranges scanned are the five fixed ones, always and last,
    with the prefix of every external IPv4 interface of the machine in
    front of them, none of them twice. *)
Theorem getNetworkRanges_own_then_defaults interfaces :
  ∃ own,
    getNetworkRanges interfaces = own ++ default_ranges
    ∧ NoDup (own ++ default_ranges)
    ∧ (∀ range, range ∈ own ↔
         (range ∉ default_ranges)
         ∧ ∃ entry net, entry ∈ interfaces ∧ net ∈ entry.2
             ∧ own_prefix net = Some range).
Proof.
  pose proof (getNetworkRanges_NoDup interfaces) as Hnd.
  rewrite getNetworkRanges_unfold in *.
  assert (Hgen : ∀ nets base,
    ∃ own,
      foldl (λ ranges net,
               match own_prefix net with
               | Some networkBase =>
                   if bool_decide (networkBase ∈ ranges) then ranges
                   else networkBase :: ranges
               | None => ranges
               end) base nets = own ++ base
      ∧ (∀ range, range ∈ own ↔
           (range ∉ base) ∧ ∃ net, net ∈ nets ∧ own_prefix net = Some range)).
  { induction nets as [|net nets IH]; intros base.
    - exists []. split; [done |]. intros range. rewrite elem_of_nil.
      split; [done |]. intros (_ & net & []%elem_of_nil & _).
    - simpl. destruct (own_prefix net) as [networkBase|] eqn:Hnet.
      + case_bool_decide as Hin.
        * destruct (IH base) as (own & -> & Hown). exists own.
          split; [done |]. intros range. rewrite Hown. split.
          -- intros (? & n & ? & ?). split; [done |]. exists n.
             split; [by apply list_elem_of_further | done].
          -- intros (Hbase & n & [->|Hn]%elem_of_cons & Hp).
             ++ rewrite Hnet in Hp. injection Hp as <-. done.
             ++ split; [done |]. by exists n.
        * destruct (IH (networkBase :: base)) as (own & -> & Hown).
          exists (own ++ [networkBase]). split; [by rewrite <- app_assoc |].
          intros range. rewrite elem_of_app, Hown, list_elem_of_singleton,
            not_elem_of_cons. split.
          -- intros [([? ?] & n & ? & ?)| ->].
             ++ split; [done |]. exists n.
                split; [by apply list_elem_of_further | done].
             ++ split; [done |]. exists net.
                split; [apply list_elem_of_here | done].
          -- intros (Hbase & n & Hn & Hp).
             destruct (decide (range = networkBase)) as [->|Hne]; [by right |].
             left. split; [done |].
             apply elem_of_cons in Hn as [->|Hn]; [congruence |]. by exists n.
      + destruct (IH base) as (own & -> & Hown). exists own.
        split; [done |]. intros range. rewrite Hown. split.
        * intros (? & n & ? & ?). split; [done |]. exists n.
          split; [by apply list_elem_of_further | done].
        * intros (Hbase & n & [->|Hn]%elem_of_cons & Hp); [congruence |].
          split; [done |]. by exists n. }
  destruct (Hgen (interfaces ≫= snd) default_ranges) as (own & Heq & Hown).
  exists own. rewrite Heq in Hnd. split; [done |]. split; [done |].
  intros range. rewrite Hown. split.
  - intros (? & net & (entry & ? & ?)%list_elem_of_bind & ?).
    split; [done |]. by exists entry, net.
  - intros (? & entry & net & ? & ? & ?). split; [done |]. exists net.
    split; [| done]. apply list_elem_of_bind. by exists entry.
Qed.

End ranges_facts.

(** ** What the probes report *)

Section report_facts.
Import RokuDiscovery Notions Readings.

Lemma length_omap_le {A B} (f : A → option B) (l : list A) :
  (length (omap f l) ≤ length l)%nat.
Proof.
  induction l as [|x l IH]; [done |]. csimpl. destruct (f x); simpl; lia.
Qed.

Lemma or_else_truthy a b : b ≠ "" → JsString.or_else a b ≠ "".
Proof. unfold JsString.or_else. destruct a; simpl; done. Qed.

(** X2: whatever the document holds, the record has the address that was
    asked, a name, a model and a serial number that are not empty, and both
    optional properties; without a name in the document the device is
    called after its address. *)
Theorem parseDeviceInfo_fills_every_field addr xmlData :
  ∃ d,
    parseDeviceInfo addr xmlData = Some d
    ∧ ip d = addr
    ∧ name d ≠ "" ∧ modelName d ≠ "" ∧ serialNumber d ≠ ""
    ∧ is_Some (softwareVersion d) ∧ is_Some (deviceType d)
    ∧ (getValue xmlData "friendly-device-name" = "" →
       getValue xmlData "user-device-name" = "" →
       name d = "Roku-" +:+ addr)
    ∧ (∀ existing, spread existing d = d).
Proof.
  eexists. split; [reflexivity |]. simpl. split_and!; try done.
  - apply or_else_truthy, or_else_truthy. done.
  - apply or_else_truthy, or_else_truthy. done.
  - by apply or_else_truthy.
  - by intros -> ->.
Qed.

Lemma checkIfRokuDevice_Some addr net d :
  checkIfRokuDevice addr net = Return (Some d)
  ↔ ∃ body : string, net = HttpResponse 200 body
      ∧ JsString.includes body "<device-info>" = true
      ∧ parseDeviceInfo addr body = Some d.
Proof.
  destruct (checkIfRokuDevice_cases addr net)
    as [Hnone|(body & Hnet & Htruthy & Hinc & Hsome)].
  - rewrite Hnone. split; [done |]. intros (body & -> & Hinc & Hd).
    destruct body as [|c body]; [by vm_compute in Hinc |].
    revert Hnone. unfold checkIfRokuDevice.
    cbn -[parseDeviceInfo JsString.includes]. rewrite Hinc.
    cbn -[parseDeviceInfo JsString.includes]. rewrite Hd. by intros [=].
  - rewrite Hsome. split.
    + intros Hd. exists body. split_and!; [done.. | congruence].
    + intros (body' & Hnet' & _ & Hd). congruence.
Qed.

(** X3: the scan reports exactly the addresses that answer 200 with a
    device-info document, each once when no range is listed twice and under
    the address that was probed; cutting the requests into groups of 50
    loses and repeats nothing. *)
Theorem discoverViaNetworkScan_reports_each_answer net networkRanges :
  let found := discoverViaNetworkScan net networkRanges in
  (∀ d, d ∈ found ↔
     ∃ body : string, ip d ∈ scan_addresses networkRanges
       ∧ net (ip d) = HttpResponse 200 body
       ∧ JsString.includes body "<device-info>" = true
       ∧ parseDeviceInfo (ip d) body = Some d)
  ∧ (∀ d st data, d ∈ found → net (ip d) = HttpResponse st data →
       ∃ body : string, data = body)
  ∧ (NoDup networkRanges → NoDup (ip <$> found))
  ∧ (length found ≤ 254 * length networkRanges)%nat.
Proof.
  intros found. unfold found. rewrite discoverViaNetworkScan_kept.
  assert (Hkept : ∀ addr d,
            kept (settle (checkIfRokuDevice addr (net addr))) = Some d
            ↔ checkIfRokuDevice addr (net addr) = Return (Some d)).
  { intros addr d.
    destruct (checkIfRokuDevice_returns addr (net addr)) as [[d'|] ->]; simpl;
      split; congruence. }
  split_and!.
  - intros d. rewrite list_elem_of_omap. split.
    + intros (addr & Haddr & Hd). apply Hkept in Hd.
      pose proof (checkIfRokuDevice_ip _ _ _ Hd) as <-.
      apply checkIfRokuDevice_Some in Hd as (body & ? & ? & ?). by exists body.
    + intros (body & Haddr & Hnet & Hinc & Hd). exists (ip d).
      split; [done |]. apply Hkept, checkIfRokuDevice_Some. by exists body.
  - intros d st data (addr & Haddr & Hd)%list_elem_of_omap Hnet.
    apply Hkept in Hd. pose proof (checkIfRokuDevice_ip _ _ _ Hd) as <-.
    apply checkIfRokuDevice_Some in Hd as (body & Hbody & _).
    exists body. congruence.
  - intros Hnd%scan_addresses_NoDup.
    induction Hnd as [|addr addrs Hnotin Hnd IH]; [constructor |].
    csimpl. destruct (kept _) as [d|] eqn:Hd; simpl; [| done].
    apply NoDup_cons. split; [| done].
    apply Hkept, checkIfRokuDevice_ip in Hd. rewrite Hd.
    intros (d' & Hip & Hd')%list_elem_of_fmap.
    apply list_elem_of_omap in Hd' as (addr' & Haddr' & Hk).
    apply Hkept, checkIfRokuDevice_ip in Hk. congruence.
  - rewrite <- scan_addresses_length. apply length_omap_le.
Qed.

End report_facts.

(** ** The SSDP probe once it has resolved *)

Section ssdp_facts.
Import RokuDiscovery Notions Readings.

Lemma ssdp_step_wf st e :
  well_formed (devices st) → well_formed (devices (ssdp_step st e)).
Proof.
  intros Hwf. destruct e as [| | |msg net|err]; simpl; try done.
  - by destruct (timer_set st).
  - by apply on_message_wf.
Qed.

Lemma ssdp_step_resolved st e found :
  resolved st = Some found → resolved (ssdp_step st e) = Some found.
Proof.
  intros Hr. destruct e as [| | |msg net|err]; simpl; try done.
  destruct (timer_set st); simpl; [| done]. by rewrite Hr.
Qed.

Lemma ssdp_steps_resolved events st found :
  resolved st = Some found → resolved (foldl ssdp_step st events) = Some found.
Proof.
  revert st. induction events as [|e events IH]; intros st Hr; [done |].
  simpl. by apply IH, ssdp_step_resolved.
Qed.

Lemma ssdp_steps_NoDup events st :
  well_formed (devices st) →
  (∀ found, resolved st = Some found → NoDup (ip <$> found)) →
  ∀ found, resolved (foldl ssdp_step st events) = Some found →
           NoDup (ip <$> found).
Proof.
  revert st. induction events as [|e events IH]; intros st Hwf Hres; [done |].
  simpl. apply IH; [by apply ssdp_step_wf |].
  intros found. destruct e as [| | |msg net|err]; simpl; try apply Hres.
  destruct (timer_set st); simpl; [| apply Hres].
  destruct (resolved st) as [r|] eqn:Hr.
  - intros [= <-]. by apply Hres.
  - intros [= <-]. destruct Hwf as [Hkeyed Hnd]. by rewrite <- Hkeyed.
Qed.

Lemma discoverViaSsdp_NoDup events found :
  discoverViaSsdp events = Some found → NoDup (ip <$> found).
Proof.
  apply (ssdp_steps_NoDup events ssdp_init); [apply well_formed_nil | done].
Qed.

(** X4: what the SSDP probe resolves with has one record for an address,
    however many replies came from it, and nothing the socket delivers
    afterwards changes it. *)
Theorem discoverViaSsdp_result_is_final events found :
  discoverViaSsdp events = Some found →
  NoDup (ip <$> found)
  ∧ ∀ later, discoverViaSsdp (events ++ later) = Some found.
Proof.
  intros Hfound. split; [by apply (discoverViaSsdp_NoDup events) |].
  unfold discoverViaSsdp in *.
  intros later. rewrite foldl_app. by apply ssdp_steps_resolved.
Qed.

End ssdp_facts.

(** ** One probe alone, and the two together *)

Section one_probe_facts.
Import RokuDiscovery Notions Readings.
Variable localeCompare : string → string → Z.
Implicit Types (m : JsMap) (A B : list DiscoveredDevice).

Lemma Map_set_fresh k v m : k ∉ m.*1 → Map_set k v m = m ++ [(k, v)].
Proof.
  induction m as [|[k' v'] m IH]; simpl; [done |].
  rewrite not_elem_of_cons. intros [Hne Hk].
  rewrite decide_False by done. by rewrite IH.
Qed.

Lemma merge_ssdp_fresh m A :
  NoDup (ip <$> A) → (∀ a, a ∈ A → ip a ∉ m.*1) →
  merge_ssdp m A = m ++ ((λ a, (ip a, a)) <$> A).
Proof.
  revert m. induction A as [|a A IH]; intros m Hnd Hfresh.
  - by rewrite app_nil_r.
  - rewrite fmap_cons in Hnd. apply NoDup_cons in Hnd as [Ha Hnd].
    rewrite merge_ssdp_cons, Map_set_fresh
      by (apply Hfresh, list_elem_of_here).
    rewrite IH; [by rewrite <- app_assoc | done |].
    intros b Hb. rewrite fmap_app, elem_of_app. intros [Hin|Hin].
    + by apply (Hfresh b); [apply list_elem_of_further |].
    + simpl in Hin. apply list_elem_of_singleton in Hin.
      apply Ha. rewrite <- Hin. by apply list_elem_of_fmap_2.
Qed.

Lemma merge_network_fresh m B :
  NoDup (ip <$> B) → (∀ b, b ∈ B → ip b ∉ m.*1) →
  merge_network m B = m ++ ((λ b, (ip b, b)) <$> B).
Proof.
  revert m. induction B as [|b B IH]; intros m Hnd Hfresh.
  - by rewrite app_nil_r.
  - rewrite fmap_cons in Hnd. apply NoDup_cons in Hnd as [Hb Hnd].
    assert (Hnew : ip b ∉ m.*1) by apply Hfresh, list_elem_of_here.
    rewrite merge_network_cons. unfold merged.
    rewrite (proj2 (Map_get_None _ _) Hnew), Map_set_fresh by done.
    rewrite IH; [by rewrite <- app_assoc | done |].
    intros b' Hb'. rewrite fmap_app, elem_of_app. intros [Hin|Hin].
    + by apply (Hfresh b'); [apply list_elem_of_further |].
    + simpl in Hin. apply list_elem_of_singleton in Hin.
      apply Hb. rewrite <- Hin. by apply list_elem_of_fmap_2.
Qed.

Lemma Map_values_entries A : Map_values ((λ a, (ip a, a)) <$> A) = A.
Proof.
  unfold Map_values. rewrite <- list_fmap_compose. apply list_fmap_id.
Qed.

(** X5: when one probe finds nothing, or is rejected, the result is what
    the other found, sorted: no record is lost, added or changed. *)
Theorem discoverDevices_of_one_probe A other :
  NoDup (ip <$> A) → found_by other = [] →
  discoverDevices localeCompare (fulfilled A) other
  = Return (sort_by_name localeCompare A)
  ∧ discoverDevices localeCompare other (fulfilled A)
    = Return (sort_by_name localeCompare A)
  ∧ sort_by_name localeCompare A ≡ₚ A.
Proof.
  intros Hnd Hother. rewrite !discoverDevices_found, Hother. simpl.
  split_and!.
  - change (merge_network ?m []) with m.
    rewrite merge_ssdp_fresh by (done || intros; apply not_elem_of_nil).
    simpl. by rewrite Map_values_entries.
  - change (merge_ssdp [] []) with (@nil (string * DiscoveredDevice)).
    rewrite merge_network_fresh by (done || intros; apply not_elem_of_nil).
    simpl. by rewrite Map_values_entries.
  - apply sort_by_name_perm.
Qed.

(** A record of the scan is a parsed record: it has every property. *)
Lemma discoverViaNetworkScan_parsed net networkRanges b existing :
  b ∈ discoverViaNetworkScan net networkRanges → spread existing b = b.
Proof.
  rewrite discoverViaNetworkScan_kept.
  intros (addr & _ & Hk)%list_elem_of_omap.
  destruct (checkIfRokuDevice_returns addr (net addr)) as [[d|] Hr];
    rewrite Hr in Hk; simpl in Hk; [| done].
  injection Hk as ->. apply checkIfRokuDevice_Some in Hr as (body & _ & _ & Hp).
  by apply (spread_parsed _ _ _ _ Hp).
Qed.

(** X6: over the network, the result is the records of the scan and,
    for the addresses the scan did not find, those of the SSDP probe; where
    both probes found an address the scan's record is returned as it is,
    also when it holds less than the SSDP probe's. *)
Theorem discover_keeps_the_scan_records events net interfaces found :
  discover localeCompare events net interfaces = Some (Return found) →
  ∃ ssdp,
    discoverViaSsdp events = Some ssdp
    ∧ let scan := discoverViaNetworkScan net (getNetworkRanges interfaces) in
      found ≡ₚ scan ++ filter (λ a, ip a ∉ ip <$> scan) ssdp.
Proof.
  unfold discover. destruct (discoverViaSsdp events) as [ssdp|] eqn:Hssdp;
    [| done].
  simpl. rewrite discoverDevices_found. simpl. intros [= <-].
  exists ssdp. split; [done |].
  set (scan := discoverViaNetworkScan net (getNetworkRanges interfaces)).
  pose proof (discoverViaSsdp_NoDup _ _ Hssdp) as HA.
  pose proof (discoverViaNetworkScan_NoDup net interfaces) as HB. fold scan in HB.
  set (m1 := merge_ssdp [] ssdp). set (m := merge_network m1 scan).
  assert (Hwf : well_formed m)
    by apply merge_network_wf, merge_ssdp_wf, well_formed_nil.
  destruct Hwf as [Hkeyed Hnd].
  assert (Hwf1 : well_formed m1) by apply merge_ssdp_wf, well_formed_nil.
  destruct Hwf1 as [Hkeyed1 Hnd1].
  rewrite sort_by_name_perm.
  apply NoDup_Permutation.
  - apply (NoDup_fmap_1 ip). by rewrite <- Hkeyed.
  - apply NoDup_app. split_and!.
    + by apply (NoDup_fmap_1 ip).
    + intros b Hb [Hnot _]%list_elem_of_filter.
      apply Hnot. by apply list_elem_of_fmap_2.
    + apply NoDup_filter. by apply (NoDup_fmap_1 ip).
  - intros d. rewrite (elem_of_Map_values d m Hkeyed Hnd).
    rewrite elem_of_app, list_elem_of_filter.
    destruct (decide (ip d ∈ ip <$> scan)) as [Hin|Hnot].
    + apply list_elem_of_fmap in Hin as (b & Hip & Hb).
      unfold m. rewrite Hip, merge_network_get by done.
      unfold merged.
      assert (Hb' : match Map_get (ip b) m1 with
                    | Some existing => spread existing b
                    | None => b
                    end = b).
      { destruct (Map_get (ip b) m1); [| done].
        by apply (discoverViaNetworkScan_parsed net (getNetworkRanges interfaces)). }
      rewrite Hb'. split.
      * intros [= ->]. by left.
      * intros [Hd|[Hnot _]].
        -- f_equal. symmetry.
           apply (NoDup_fmap_1 ip) in HB as HB'.
           destruct (list_elem_of_lookup_1 _ _ Hd) as [i Hi].
           destruct (list_elem_of_lookup_1 _ _ Hb) as [j Hj].
           assert (i = j) as ->.
           { apply (NoDup_lookup (ip <$> scan) i j (ip d)); [done | |].
             - by rewrite list_lookup_fmap, Hi.
             - by rewrite list_lookup_fmap, Hj, Hip. }
           congruence.
        -- destruct Hnot. by apply list_elem_of_fmap_2.
    + unfold m. rewrite merge_network_get_other by done. split.
      * intros Hget. right. split; [done |].
        apply Map_get_Some_elem in Hget.
        assert (Hd : d ∈ Map_values m1).
        { apply list_elem_of_fmap. by exists (ip d, d). }
        unfold m1 in Hd.
        rewrite merge_ssdp_fresh in Hd by (done || intros; apply not_elem_of_nil).
        simpl in Hd. by rewrite Map_values_entries in Hd.
      * intros [Hd|[_ Hd]].
        -- destruct Hnot. by apply list_elem_of_fmap_2.
        -- by apply merge_ssdp_get.
Qed.

End one_probe_facts.

(** ** The device picked for one run *)

Section selection_facts.
Import RokuDiscovery DeviceSelection Readings.

Lemma testDevice_true device net :
  testDevice device net = Return true ↔ ∃ body, net = HttpResponse 200 body.
Proof.
  unfold testDevice. destruct net as [st body|code]; simpl.
  - destruct (status_2xx st) eqn:H2xx; simpl.
    + case_bool_decide as Hst.
      * subst st. split; [by eexists | done].
      * split; [done |]. intros [body' [= -> _]]. done.
    + split; [done |]. intros [body' [= -> _]]. done.
  - split; [done |]. by intros [body' [=]].
Qed.

Lemma choice_is_a_device (devices : list DiscoveredDevice) i selected :
  default None (((Some <$> devices) ++ [None]) !! i) = Some selected →
  selected ∈ devices.
Proof.
  destruct (decide (i < length devices)%nat) as [Hlt|Hge].
  - rewrite lookup_app_l by (by rewrite length_fmap).
    rewrite list_lookup_fmap.
    destruct (devices !! i) as [d|] eqn:Hd; simpl; [| done].
    intros [= <-]. by apply list_elem_of_lookup_2 in Hd.
  - rewrite lookup_app_r by (rewrite length_fmap; lia).
    by destruct (i - length (Some <$> devices))%nat as [|[|]].
Qed.

(** X7: the device handed to the run is one of the devices found, the
    first of the list with --first-device; it answered the reachability
    test with 200 and the connection test with a success; its password is
    the one given on the command line when one was given, the one typed
    otherwise, and is not empty.  The configuration file is written only
    when a device is handed back and the person asked to save it, and never
    when the password came from the command line. *)
Theorem discoverAndSelectDevice_hands_back_a_tested_device
    autoSelectFirst providedPassword discovered answers reachable device file :
  let result :=
    discoverAndSelectDevice autoSelectFirst providedPassword discovered answers
      reachable device file in
  (∀ deviceConfig, result.1 = Some deviceConfig →
     ∃ devices selected body,
       discovered = Return devices
       ∧ selected ∈ devices
       ∧ (autoSelectFirst = true → devices !! 0%nat = Some selected)
       ∧ reachable = HttpResponse 200 body
       ∧ RokuAPI.testConnection
           (RokuAPI.new (ip selected) (RokuDevice.password deviceConfig)) device
         = Return true
       ∧ RokuDevice.ip deviceConfig = ip selected
       ∧ RokuDevice.name deviceConfig = Some (name selected)
       ∧ RokuDevice.password deviceConfig ≠ ""
       ∧ RokuDevice.password deviceConfig
         = (if VscodeTasks.truthy_opt providedPassword
            then default "" providedPassword else password answers))
  ∧ (result.1 = None → result.2 = file)
  ∧ (VscodeTasks.truthy_opt providedPassword = true → result.2 = file)
  ∧ (rememberDevice answers = false → result.2 = file)
  ∧ (result.2 ≠ file →
     ∃ deviceConfig,
       result.1 = Some deviceConfig
       ∧ result.2
         = Some {| ConfigManager.rokuDevice := deviceConfig;
                   ConfigManager.projects :=
                     ConfigManager.projects
                       (default ConfigManager.initial file) |}).
Proof.
  intros result. unfold result, discoverAndSelectDevice. clear result.
  destruct discovered as [devices|msg]; [| no_device].
  case_bool_decide as Hlen; [no_device |].
  destruct (if autoSelectFirst then devices !! 0%nat
            else default None (((Some <$> devices) ++ [None]) !! choice answers))
    as [selected|] eqn:Hsel; [| no_device].
  assert (Hin : selected ∈ devices).
  { destruct autoSelectFirst.
    - by apply list_elem_of_lookup_2 in Hsel.
    - by apply choice_is_a_device in Hsel. }
  destruct (testDevice selected reachable) as [[|]|] eqn:Htest;
    [| no_device | no_device].
  apply testDevice_true in Htest as [body ->].
  cbn [negb].
  destruct (VscodeTasks.truthy_opt providedPassword) eqn:Hprovided; cbn [negb].
  - destruct (JsString.truthy (default "" providedPassword)) eqn:Hpw;
      cbn [negb]; [| no_device].
    destruct (RokuAPI.testConnection _ device) as [[|]|] eqn:Hauth;
      [| no_device | no_device].
    simpl. split_and!; [| done | done | done | by intros Hne; destruct Hne].
    intros ? [= <-]. exists devices, selected, body. simpl.
    split_and!; try done.
    + by intros ->.
    + by apply truthy_true.
  - destruct (JsString.truthy (password answers)) eqn:Hpw;
      cbn [negb]; [| no_device].
    destruct (RokuAPI.testConnection _ device) as [[|]|] eqn:Hauth;
      [| no_device | no_device].
    simpl. split_and!.
    + intros ? [= <-]. exists devices, selected, body. simpl.
      split_and!; try done.
      * by intros ->.
      * by apply truthy_true.
    + done.
    + done.
    + by intros ->.
    + intros Hchanged. eexists. split; [done |].
      destruct (rememberDevice answers); [| by destruct Hchanged].
      unfold ConfigManager.new, ConfigManager.loadConfig. simpl.
      by destruct file.
Qed.


End selection_facts.

(** ** The installer calls of RokuAPI *)

Section installer_facts.
Import RokuAPI RokuInstaller.
Context `{PathModule}.

Lemma is_text_true s v : Js.is_text s v = true ↔ v = JsText s.
Proof.
  destruct v; simpl; try (split; [done | by intros [=]]).
  rewrite bool_decide_eq_true. split; [by intros -> | by intros [= ->]].
Qed.

Lemma array_includes_false s elements :
  existsb (Js.is_text s) elements = false ↔ JsText s ∉ elements.
Proof.
  induction elements as [|v elements IH]; simpl.
  - split; [intros _; apply not_elem_of_nil | done].
  - rewrite orb_false_iff, IH, not_elem_of_cons.
    destruct (Js.is_text s v) eqn:Hv.
    + apply is_text_true in Hv as ->. split; [by intros [? _] | by intros [? _]].
    + split; [| by intros [_ ?]]. intros [_ ?]. split; [| done].
      intros Heq. symmetry in Heq. apply is_text_true in Heq. congruence.
Qed.

(** X9: [rekeyDevice] succeeds exactly when the package is a file that
    is there and the device, asked with the developer's credentials,
    answers with a 2xx status and data on which [includes] finds neither
    Failed nor Error: a string that mentions neither, or an array that has
    neither as an element.  On any other JSON answer [includes] throws and
    the TypeError is what [rekeyDevice] throws.  Without the package the
    device is not asked; an answer of 401 is reported as a failed
    authentication. *)
Theorem rekeyDevice_succeeds_on_a_clean_answer this fs signKey packagePath device :
  (rekeyDevice this fs signKey packagePath device = inr ()
   ↔ (∃ content mtime, stat fs packagePath = Some (RegularFile content mtime))
     ∧ ∃ st data,
         device (rekeyDevice_request this) = HttpResponse st data
         ∧ status_2xx st = true
         ∧ Js.includes data "Failed" = Return false
         ∧ Js.includes data "Error" = Return false)
  ∧ (∀ data,
       Js.includes data "Failed" = Return false
       ∧ Js.includes data "Error" = Return false
       ↔ (∃ body : string,
            data = body
            ∧ JsString.includes body "Failed" = false
            ∧ JsString.includes body "Error" = false)
         ∨ (∃ elements,
              data = JsArray elements
              ∧ (JsText "Failed" ∉ elements) ∧ (JsText "Error" ∉ elements)))
  ∧ (∀ content mtime st data typeError,
       stat fs packagePath = Some (RegularFile content mtime) →
       device (rekeyDevice_request this) = HttpResponse st data →
       status_2xx st = true →
       Js.includes data "Failed" = Throw typeError →
       rekeyDevice this fs signKey packagePath device = inl (Error typeError))
  ∧ (existsSync fs packagePath = false →
     rekeyDevice this fs signKey packagePath device
     = inl (Error ("Package file not found: " +:+ packagePath)))
  ∧ (∀ content mtime body,
       stat fs packagePath = Some (RegularFile content mtime) →
       device (rekeyDevice_request this) = HttpResponse 401 body →
       rekeyDevice this fs signKey packagePath device
       = inl (Error "Authentication failed. Check your Roku password."))
  ∧ credentials (rekeyDevice_request this) = Some (auth this).
Proof.
  unfold rekeyDevice, existsSync. split_and!.
  - destruct (stat fs packagePath) as [[content mtime|]|] eqn:Hstat.
    + rewrite bool_decide_eq_true_2 by done. cbn [negb].
      unfold axios_post.
      destruct (device (rekeyDevice_request this)) as [st body|code].
      * destruct (status_2xx st) eqn:H2xx.
        -- cbn [data].
           destruct (Js.includes body "Failed") as [[|]|failedError] eqn:Hfailed;
             cbn [bind];
             [ | destruct (Js.includes body "Error") as [[|]|errorError] eqn:Herror | ].
           all: split;
             [ intros Heq;
               first [ by vm_compute in Heq
                     | by (split; [by eexists _, _ | by eexists _, _]) ]
             | intros (_ & st' & body' & Hd & _ & ? & ?);
               injection Hd as <- <-; first [done | congruence] ].
        -- split.
           ++ unfold rethrow. by destruct (bool_decide _).
           ++ intros (_ & st' & body' & [= <- <-] & ? & _). congruence.
      * split; [done |]. by intros (_ & st' & body' & [=] & _).
    + rewrite bool_decide_eq_true_2 by done. cbn [negb].
      split; [done |]. by intros ((content & mtime & [=]) & _).
    + rewrite bool_decide_eq_false_2 by (by intros [? [=]]). cbn [negb].
      split; [done |]. by intros ((content & mtime & [=]) & _).
  - intros data. split.
    + intros [Hfailed Herror].
      destruct data as [|b|n|body|elements|properties]; simpl in *; try done.
      * left. exists body. split_and!; [done | congruence..].
      * right. exists elements.
        split_and!; [done | apply array_includes_false; congruence..].
    + intros [(body & -> & Hfailed & Herror)|(elements & -> & Hfailed & Herror)];
        simpl.
      * by rewrite Hfailed, Herror.
      * apply array_includes_false in Hfailed, Herror.
        by rewrite Hfailed, Herror.
  - intros content mtime st v typeError Hstat Hdevice H2xx Hthrows.
    rewrite Hstat, Hdevice. rewrite bool_decide_eq_true_2 by done.
    cbn [negb]. unfold axios_post. rewrite H2xx. cbn [data].
    by rewrite Hthrows.
  - by intros ->.
  - intros content mtime body Hstat Hdevice. rewrite Hstat, Hdevice.
    by rewrite bool_decide_eq_true_2 by done.
  - done.
Qed.

End installer_facts.

(** ** The command line of a task, and how its promise settles *)

Section command_facts.
Import VscodeTasks Notions Readings.

Lemma string_app_assoc (a b c : string) : (a +:+ b) +:+ c = a +:+ (b +:+ c).
Proof.
  induction a as [|x a IH]; [done |].
  change (String x ((a +:+ b) +:+ c) = String x (a +:+ (b +:+ c))).
  by rewrite IH.
Qed.

Lemma string_app_nil_r (a : string) : a +:+ "" = a.
Proof.
  induction a as [|x a IH]; [done |].
  change (String x (a +:+ "") = String x a). by rewrite IH.
Qed.

Lemma join_cons sep s l : join sep (s :: l) = s +:+ joined_after sep l.
Proof.
  unfold join. revert s. induction l as [|x l IH]; intros s; simpl.
  - by rewrite string_app_nil_r.
  - by rewrite IH, !string_app_assoc.
Qed.

Lemma joined_after_app sep l1 l2 :
  joined_after sep (l1 ++ l2) = joined_after sep l1 +:+ joined_after sep l2.
Proof.
  induction l1 as [|x l1 IH]; [done |].
  simpl. by rewrite IH, !string_app_assoc.
Qed.

(** Splitting at the spaces and joining with spaces gives the string
    back. *)
Lemma join_split s :
  ∃ seg segs, JsString.split " " s = seg :: segs ∧ join " " (seg :: segs) = s.
Proof.
  induction s as [|c s (seg & segs & Hsplit & Hjoin)].
  - by exists "", [].
  - cbn [JsString.split]. rewrite Hsplit. rewrite join_cons in Hjoin.
    destruct (Ascii.eqb c " ") eqn:Hc.
    + apply Ascii.eqb_eq in Hc as ->. exists "", (seg :: segs).
      split; [done |]. rewrite join_cons. cbn [joined_after foldr].
      change (String " " (seg +:+ joined_after " " segs) = String " " s).
      by rewrite Hjoin.
    + exists (String c seg), segs. split; [done |]. rewrite join_cons.
      change (String c (seg +:+ joined_after " " segs) = String c s).
      by rewrite Hjoin.
Qed.

(** X10: the line the shell is given is the task's: the command of the
    task followed by its arguments, and [npm run] with the script for an
    npm task; cutting a shell command at its spaces changes nothing of
    it. *)
Theorem resolve_command_keeps_the_command_line task resolved :
  resolve_command task = Return resolved →
  shell_line resolved
  = if bool_decide (type task = "npm") && truthy_opt (script task)
    then "npm run " +:+ default "" (script task)
    else join " " (default "" (command task) :: default [] (args task)).
Proof.
  unfold resolve_command, shell_line.
  destruct (bool_decide (type task = "npm") && truthy_opt (script task)).
  - intros [= <-]. done.
  - destruct (bool_decide (type task = "shell") && truthy_opt (command task)).
    + destruct (join_split (default "" (command task)))
        as (seg & segs & -> & Hjoin).
      intros [= <-]. simpl fst. simpl snd.
      rewrite !join_cons, joined_after_app, <- string_app_assoc.
      by rewrite <- (join_cons " " seg segs), Hjoin.
    + destruct (truthy_opt (command task)); [| done].
      intros [= <-]. done.
Qed.

End command_facts.

Section settle_facts.
Import VscodeTasks Notions Readings.

Lemma settled_after_report task events st :
  settled (foldl (task_step task) st events)
  = match settled st with
    | Some r => Some r
    | None => first_report events ≫= reported task
    end.
Proof.
  revert st. induction events as [|e events IH]; intros st.
  - simpl. by destruct (settled st).
  - simpl. rewrite IH. destruct e as [| |code|err]; simpl.
    + destruct (timeoutId st); [| done]. by destruct (kill _ _).
    + destruct (escalation st); [| done].
      destruct (negb _); [| done]. by destruct (kill _ _).
    + destruct (settled st); [done |]. simpl.
      by destruct code as [[| |]|].
    + by destruct (settled st).
Qed.


Lemma delivered_after_timer task events st :
  escalation st = true → timeoutId st = false → killed (child st) = true →
  delivered (foldl (task_step task) st events) = delivered st.
Proof.
  revert st. induction events as [|e events IH]; intros st Hesc Htid Hk; [done |].
  simpl. destruct e as [| |code|err]; simpl.
  - rewrite Htid. by apply IH.
  - rewrite Hesc, Hk. simpl.
    assert (Hgen : ∀ st', timeoutId st' = false → killed (child st') = true →
                          delivered (foldl (task_step task) st' events)
                          = delivered st').
    { clear. intros st'. revert st'.
      induction events as [|e events IH]; intros st Htid Hk; [done |].
      simpl. destruct e as [| |code|err]; simpl.
      - rewrite Htid. by apply IH.
      - destruct (escalation st); [| by apply IH].
        rewrite Hk. simpl. by rewrite IH.
      - by rewrite IH.
      - by rewrite IH. }
    by rewrite Hgen.
  - by rewrite IH.
  - by rewrite IH.
Qed.

Lemma delivered_unarmed task events st :
  timeoutId st = false → escalation st = false →
  delivered (foldl (task_step task) st events) = delivered st.
Proof.
  revert st. induction events as [|e events IH]; intros st Htid Hesc; [done |].
  simpl. destruct e as [| |code|err]; simpl.
  - rewrite Htid. by apply IH.
  - rewrite Hesc. by apply IH.
  - by rewrite IH.
  - by rewrite IH.
Qed.

Lemma delivered_armed task events st :
  timeoutId st = true → escalation st = false → running (child st) = true →
  delivered (foldl (task_step task) st events)
  = delivered st ++ (if timer_fires_first events then [SIGTERM] else []).
Proof.
  revert st. induction events as [|e events IH]; intros st Htid Hesc Hrun.
  - simpl. by rewrite app_nil_r.
  - simpl. destruct e as [| |code|err]; simpl.
    + rewrite Htid. unfold kill. rewrite Hrun. simpl.
      by rewrite delivered_after_timer.
    + rewrite Hesc. by apply IH.
    + rewrite delivered_unarmed by done. simpl. by rewrite app_nil_r.
    + rewrite delivered_unarmed by done. simpl. by rewrite app_nil_r.
Qed.

(** X12: the only signal a task is ever sent is one SIGTERM, and it is
    sent exactly when a timeout was given (and is not 0) and its timer
    fires before the child has closed or failed to start. *)
Theorem executeTask_signals_once task timeout events :
  delivered (executeTask task timeout events)
  = match resolve_command task with
    | Throw _ => []
    | Return _ =>
        if match timeout with Some t => negb (t =? 0) | None => false end
           && timer_fires_first events
        then [SIGTERM] else []
    end.
Proof.
  unfold executeTask. destruct (resolve_command task); [| done].
  change (match timeout with Some t => negb (t =? 0) | None => false end)
    with (timeoutId (spawned timeout)).
  destruct (timeoutId (spawned timeout)) eqn:Htid.
  - by rewrite delivered_armed.
  - by rewrite delivered_unarmed.
Qed.

End settle_facts.

(** ** The build directory *)

Section build_directory_facts.
Import VscodeConfig Readings.
Context `{PathModule}.
Variable isAbsolute : string → bool.
Variable parse_launch : string → option VSCodeLaunchConfig.
Variable parse_bsconfig : string → option BSConfig.t.

Lemma truthy_opt_Some o :
  VscodeTasks.truthy_opt o = true → ∃ p, o = Some p ∧ p ≠ "".
Proof. destruct o as [[|??]|]; [done | | done]. intros _. by eexists. Qed.

Lemma existing_dir_candidate fs o l :
  List.find (existsSync fs)
    (omap id ((if VscodeTasks.truthy_opt o then o else None) :: l))
  = match existing_dir fs o with
    | Some p => Some p
    | None => List.find (existsSync fs) (omap id l)
    end.
Proof.
  unfold existing_dir. destruct (VscodeTasks.truthy_opt o) eqn:Ho; [| done].
  apply truthy_opt_Some in Ho as (p & -> & _). csimpl.
  by destruct (existsSync fs p).
Qed.

(** X13: the build directory is the first that exists among the staging
    folder and the output directory of launch.json, those of bsconfig.json
    and the usual names under the project root, in this order, and the
    project root when none does; so it is the project root or a path that
    exists. *)
Theorem getBuildDirectory_first_existing_candidate fs projectRootDir :
  let buildDir :=
    getBuildDirectory isAbsolute parse_launch parse_bsconfig fs projectRootDir in
  buildDir
  = default projectRootDir
      (List.find (existsSync fs)
         (candidates isAbsolute parse_launch parse_bsconfig fs projectRootDir))
  ∧ (buildDir = projectRootDir ∨ existsSync fs buildDir = true).
Proof.
  intros buildDir.
  assert (Hfirst : buildDir
    = default projectRootDir
        (List.find (existsSync fs)
           (candidates isAbsolute parse_launch parse_bsconfig fs projectRootDir))).
  { unfold buildDir, getBuildDirectory, candidates.
    set (launch := extractBuildConfig _ _ _ _).
    set (bsconfig := readBSConfig _ _ _).
    set (common := path_join projectRootDir <$> _).
    assert (Hfind : ∀ l1 l2 : list string,
              List.find (existsSync fs) (l1 ++ l2)
              = match List.find (existsSync fs) l1 with
                | Some p => Some p
                | None => List.find (existsSync fs) l2
                end).
    { intros l1 l2. induction l1 as [|p l1 IH]; [done |].
      simpl. by destruct (existsSync fs p). }
    rewrite Hfind.
    assert (Hlaunch : ∀ (field : BuildConfig.t → option string) l,
      List.find (existsSync fs)
        (omap id ((if VscodeTasks.truthy_opt (launch ≫= field)
                   then launch ≫= field else None) :: l))
      = match launch ≫= λ c, existing_dir fs (field c) with
        | Some p => Some p
        | None => List.find (existsSync fs) (omap id l)
        end).
    { intros field l. rewrite existing_dir_candidate.
      by destruct launch as [c|]. }
    assert (Hbs : ∀ (field : BSConfig.t → option string) l,
      List.find (existsSync fs)
        (omap id
           (((λ dir, if isAbsolute dir then dir else path_join projectRootDir dir)
               <$> (if VscodeTasks.truthy_opt (bsconfig ≫= field)
                    then bsconfig ≫= field else None)) :: l))
      = match bsconfig ≫= λ c,
              existing_bsconfig_dir isAbsolute fs projectRootDir (field c) with
        | Some p => Some p
        | None => List.find (existsSync fs) (omap id l)
        end).
    { intros field l. unfold existing_bsconfig_dir.
      destruct bsconfig as [c|]; simpl; [| done].
      destruct (VscodeTasks.truthy_opt (field c)) eqn:Ho; [| done].
      apply truthy_opt_Some in Ho as (p & -> & _). csimpl.
      by destruct (existsSync fs _). }
    rewrite Hlaunch, Hlaunch, Hbs, Hbs.
    destruct (launch ≫= _) as [p1|]; [done |].
    destruct (launch ≫= _) as [p2|]; [done |].
    destruct (bsconfig ≫= _) as [p3|]; [done |].
    destruct (bsconfig ≫= _) as [p4|]; [done |].
    simpl. fold common. by destruct (List.find (existsSync fs) common). }
  split; [done |]. rewrite Hfirst.
  destruct (List.find _ _) as [p|] eqn:Hfind; simpl; [| by left].
  right. apply find_some in Hfind as [_ Hp]. done.
Qed.

End build_directory_facts.

(** ** The package that createPackage returns *)

Section packaging_facts.
Import RokuDeployPackaging.
Context `{PathModule}.

(** X14: the path [createPackage] returns is one at which it has found a
    file after the package was signed, named after the output file with
    .pkg; when no such file is found it throws, also when both calls of
    roku-deploy went well. *)
Theorem createPackage_returns_a_path_that_exists rokuDeploy options fs p fs' :
  createPackage rokuDeploy options fs = (Return p, fs') →
  existsSync fs' p = true
  ∧ ∃ dir,
      p = path_join dir
            (or_default (RokuDeployOptions.outFile options) "app" +:+ ".pkg").
Proof.
  unfold createPackage, zipPackage.
  destruct (rokuDeploy_zipPackage _ _ _) as [[result|error] fs1]; [| done].
  destruct (negb (existsSync fs1 _)); [done |].
  destruct (rokuDeploy_publish _ _ _) as [[result'|error] fs2]; [| done].
  simpl.
  destruct (existsSync fs2 (path_join (JsString.or_else _ _) _)) eqn:Hpkg.
  - intros [= <- <-]. split; [done |]. by eexists.
  - destruct (existsSync fs2 (path_join "./out" _)) eqn:Halt; [| done].
    intros [= <- <-]. split; [done |]. by eexists.
Qed.

End packaging_facts.

(** ** The build step *)

Section build_facts.
Import Generate TasksJson BuildStep Readings.
Context `{PathModule}.
Variable isAbsolute : string → bool.
Variable parse_launch : string → option VscodeConfig.VSCodeLaunchConfig.
Variable parse_bsconfig : string → option BSConfig.t.
Variable parse_tasks : string → option VSCodeTasksConfig.

Lemma first_report_resolves task events :
  first_report events ≫= reported task = Some (Return ()) →
  first_report events = Some (VscodeTasks.Close (Some 0)).
Proof.
  induction events as [|e events IH]; [done |].
  destruct e as [| |[[| |]|]|err]; simpl; try done.
Qed.

Lemma getBuildTasks_all fs projectRootDir t :
  t ∈ getBuildTasks parse_tasks fs projectRootDir →
  t ∈ getAllTasks parse_tasks fs projectRootDir.
Proof.
  unfold getBuildTasks, getAllTasks.
  destruct (readVSCodeTasks parse_tasks fs projectRootDir ≫= tasks); [| done].
  rewrite !list_elem_of_In. by intros [? _]%filter_In.
Qed.

Lemma run_task_ran selectedTask events :
  ran (run_task selectedTask events) = [selectedTask]
  ∧ (ending (run_task selectedTask events) = GoesOn →
     first_report events = Some (VscodeTasks.Close (Some 0))).
Proof.
  unfold run_task.
  destruct (VscodeTasks.settled _) as [[[]|msg]|] eqn:Hsettled;
    (split; [done |]); try done.
  intros _. unfold VscodeTasks.executeTask in Hsettled.
  destruct (VscodeTasks.resolve_command _); [| done].
  rewrite settled_after_report in Hsettled.
  by apply first_report_resolves in Hsettled.
Qed.

Lemma picked_a_task (tasks : list Task) (choices : list Choice) i t :
  (∀ t, Run t ∈ choices → t ∈ tasks) →
  picked choices i = Run t → t ∈ tasks.
Proof.
  intros Hchoices. unfold picked.
  destruct (choices !! i) as [c|] eqn:Hc; simpl; [| done].
  intros ->. by apply Hchoices, (list_elem_of_lookup_2 _ i).
Qed.

(** X15: the build step gives at most one task to [executeTask], with
    no flag that skips the build, and it is a task of tasks.json: the one
    named by --build-task when that is given, one the person picked
    otherwise.  The action goes on to the deploy only if no task was run or
    the child of the task closed with exit code 0 before reporting anything
    else: after a build that failed, was stopped or could not start,
    nothing is validated, rekeyed or deployed. *)
Theorem build_step_runs_one_task options project fs answers events :
  let outcome :=
    build_step isAbsolute parse_launch parse_bsconfig parse_tasks
      options project fs answers events in
  (length (ran outcome) ≤ 1)%nat
  ∧ (∀ t, t ∈ ran outcome →
       skipBuild options = false ∧ useExistingBuild options = false
       ∧ t ∈ getAllTasks parse_tasks fs (rootDir project)
       ∧ (VscodeTasks.truthy_opt (buildTask options) = true →
          Some (VscodeTasks.label (fields t)) = buildTask options)
       ∧ (ending outcome = GoesOn →
          first_report events = Some (VscodeTasks.Close (Some 0))))
  ∧ (skipBuild options = true → outcome = {| ending := GoesOn; ran := [] |}).
Proof.
  intros outcome. unfold outcome, build_step. clear outcome.
  destruct (skipBuild options); cbn [negb];
    [by split_and!; [simpl; lia | intros ? []%elem_of_nil | ] |].
  set (buildDir := VscodeConfig.getBuildDirectory _ _ _ _ _).
  destruct (useExistingBuild options).
  { destruct (_ && _);
      by split_and!; [simpl; lia | intros ? []%elem_of_nil | ]. }
  set (buildTasks := getBuildTasks parse_tasks fs (rootDir project)).
  set (allTasks := getAllTasks parse_tasks fs (rootDir project)).
  destruct (_ || _);
    [| by split_and!; [simpl; lia | intros ? []%elem_of_nil | ]].
  assert (Hrun : ∀ selectedTask,
    selectedTask ∈ allTasks →
    (VscodeTasks.truthy_opt (buildTask options) = true →
     Some (VscodeTasks.label (fields selectedTask)) = buildTask options) →
    let outcome := run_task selectedTask events in
    (length (ran outcome) ≤ 1)%nat
    ∧ (∀ t, t ∈ ran outcome →
         false = false ∧ false = false ∧ t ∈ allTasks
         ∧ (VscodeTasks.truthy_opt (buildTask options) = true →
            Some (VscodeTasks.label (fields t)) = buildTask options)
         ∧ (ending outcome = GoesOn →
            first_report events = Some (VscodeTasks.Close (Some 0))))
    ∧ (false = true → outcome = {| ending := GoesOn; ran := [] |})).
  { intros selectedTask Hin Hlabel outcome.
    destruct (run_task_ran selectedTask events) as [Hran Hend].
    unfold outcome. rewrite Hran. split_and!; [done | | done].
    by intros t ->%list_elem_of_singleton. }
  destruct (VscodeTasks.truthy_opt (buildTask options)) eqn:Hflag.
  - destruct (List.find _ allTasks) as [selectedTask|] eqn:Hfind;
      [| by split_and!; [simpl; lia | intros ? []%elem_of_nil | ]].
    apply find_some in Hfind as [Hin Hlabel].
    apply Hrun; [by apply list_elem_of_In |].
    intros _. apply bool_decide_eq_true in Hlabel. rewrite Hlabel.
    by destruct (buildTask options).
  - set (taskChoices := if bool_decide _ then _ else _).
    assert (Hchoices : ∀ t, Run t ∈ taskChoices → t ∈ allTasks).
    { intros t. unfold taskChoices.
      assert (Hbase : ∀ t, Run t ∈ (if existsSync fs buildDir
                                     && existsSync fs (path_join buildDir "manifest")
                                    then UseExisting :: (Run <$> buildTasks) ++ [SkipBuild]
                                    else (Run <$> buildTasks) ++ [SkipBuild]) →
                           t ∈ allTasks).
      { intros t'. destruct (_ && _);
          rewrite ?elem_of_cons, elem_of_app, list_elem_of_fmap,
            list_elem_of_singleton.
        - intros [?|[(t'' & [= ->] & Ht)|?]]; try done.
          by apply getBuildTasks_all.
        - intros [(t'' & [= ->] & Ht)|?]; try done.
          by apply getBuildTasks_all. }
      case_bool_decide; [| apply Hbase].
      unfold splice_before_last.
      rewrite elem_of_app, elem_of_cons.
      intros [Hin|[?|Hin]]; [| done |].
      - by apply Hbase, (subseteq_take _ _ _ Hin).
      - by apply Hbase, (subseteq_drop _ _ _ Hin). }
    assert (Hall : ∀ t, Run t ∈ (Run <$> allTasks) ++ [SkipBuild] → t ∈ allTasks).
    { intros t. rewrite elem_of_app, list_elem_of_fmap, list_elem_of_singleton.
      by intros [(t' & [= ->] & Ht)|?]. }
    destruct (picked taskChoices (task answers)) as [| |t|] eqn:Hpick.
    + by split_and!; [simpl; lia | intros ? []%elem_of_nil | ].
    + destruct (picked _ (allTask answers)) as [| |t|] eqn:Hpick';
        try (by split_and!; [simpl; lia | intros ? []%elem_of_nil | ]).
      apply Hrun; [| done]. by apply (picked_a_task _ _ _ _ Hall Hpick').
    + apply Hrun; [| done]. by apply (picked_a_task _ _ _ _ Hchoices Hpick).
    + by split_and!; [simpl; lia | intros ? []%elem_of_nil | ].
Qed.

End build_facts.

(** ** The checks before the device is touched *)

Section action_facts.
Import Generate GenerateAction Readings.
Context `{PathModule}.
Variable isAbsolute : string → bool.
Variable parse_launch : string → option VscodeConfig.VSCodeLaunchConfig.
Variable parse_bsconfig : string → option BSConfig.t.
Variable device_rekey : RekeyOptions.t → FileSystem → Completion ().

Lemma deploy_and_relocate_handles options project c w out w' message :
  deploy_and_relocate options project c w = (out, w') → out ≠ Throws message.
Proof.
  rewrite deploy_and_relocate_unfold.
  destruct (deploy_step options c w) as [[p|msg| |code] w1];
    [| by intros [= <- <-].. ].
  destruct (move_and_report p (outputLocation project) w1)
    as [[[]|msg| |code] w2]; by intros [= <- <-].
Qed.

(** X16: when the build directory does not hold a valid project, or the
    signed package of the project is not there, the action returns with
    nothing done: no directory made, no rekey, no deploy, no prompt; the
    process then ends with status 0. *)
Theorem from_configuration_checks_first options project device c s :
  RokuDeployManager.valid
    (RokuDeployManager.validateProject (files (world s))
       (VscodeConfig.getBuildDirectory isAbsolute parse_launch parse_bsconfig
          (files (world s)) (rootDir project))) = false
  ∨ existsSync (files (world s)) (signPackageLocation project) = false →
  from_configuration isAbsolute parse_launch parse_bsconfig device_rekey
    options project device c s
  = (Returns, s)
  ∧ exit_status (A := ()) Returns = 0.
Proof.
  intros Hchecks. split; [| done].
  unfold from_configuration, try_catchP, mbind, P_bind, read_files,
    action_returnP.
  destruct (RokuDeployManager.valid _); simpl.
  - destruct Hchecks as [?| ->]; done.
  - done.
Qed.

(** X17: the device is rekeyed at most once, with the signed package and
    the signing key of the project, and never with --skip-rekey; the
    deploy stage is only reached after the checks, once the directory of
    the output path is there, and, unless the rekey is skipped, after a
    rekey that went well: a rekey that fails ends the action with nothing
    deployed. *)
Theorem from_configuration_rekeys_before_deploying options project device c s :
  let request :=
    {| RekeyOptions.host := RokuDevice.ip device;
       RekeyOptions.password := RokuDevice.password device;
       RekeyOptions.rekeySignedPackage := signPackageLocation project;
       RekeyOptions.signingPassword := signKey project |} in
  ∃ out s',
    from_configuration isAbsolute parse_launch parse_bsconfig device_rekey
      options project device c s
    = (out, s')
    ∧ (rekeys s' = rekeys s ∨ rekeys s' = rekeys s ++ [request])
    ∧ (skipRekey options = true → rekeys s' = rekeys s)
    ∧ (effects (world s') ≠ effects (world s) →
       existsSync (files (world s)) (signPackageLocation project) = true
       ∧ ∃ w1,
           ensureDirectoryExists (path_dirname (outputLocation project)) (world s)
           = (Next (), w1)
           ∧ existsSync (files w1) (path_dirname (outputLocation project)) = true
           ∧ (skipRekey options = false →
              rekeys s' = rekeys s ++ [request]
              ∧ ∃ ok, device_rekey request (files w1) = Return ok)
           ∧ deploy_and_relocate options project c w1 = (out, world s')).
Proof.
  intros request.
  unfold from_configuration, try_catchP, mbind, P_bind, read_files,
    action_returnP, lift.
  destruct (RokuDeployManager.valid _); simpl; [| nothing_done].
  destruct (existsSync (files (world s)) (signPackageLocation project)); simpl;
    [| nothing_done].
  destruct (ensureDirectoryExists _ (world s)) as [[[]|msg| |code] w1] eqn:Hdir.
  2-4: unfold ensureDirectoryExists, mkdirSync_recursive in Hdir;
    repeat (match type of Hdir with
            | context [negb ?b] => destruct b
            | context [stat ?f ?p] => destruct (stat f p) as [[??|]|]
            | context [decide ?P] => destruct (decide P)
            end; simpl in Hdir);
    try done; simplify_eq;
    nothing_done.
  assert (Hthere : existsSync (files w1) (path_dirname (outputLocation project))
                   = true).
  { unfold ensureDirectoryExists, mkdirSync_recursive in Hdir.
    destruct (existsSync (files (world s)) _) eqn:Hex; simpl in Hdir.
    - by injection Hdir as <-.
    - unfold existsSync in Hex. apply bool_decide_eq_false in Hex.
      destruct (stat (files (world s)) _) as [i|] eqn:Hstat;
        [by destruct Hex |].
      destruct (decide (_ = "")) as [|Hne]; [done |].
      injection Hdir as <-. simpl. unfold existsSync.
      rewrite stat_write_entry, decide_True by done.
      by apply bool_decide_eq_true_2. }
  simpl. destruct (skipRekey options) eqn:Hskip; simpl.
  - destruct (deploy_and_relocate options project c w1) as [out w'] eqn:Hdeploy.
    exists out, {| world := w'; rekeys := rekeys s |}.
    split_and!; [| by left | done |].
    { destruct out as [[]|message| |code]; try done.
      exfalso. eapply deploy_and_relocate_handles; [exact Hdeploy | reflexivity]. }
    simpl. intros _. split; [done |]. exists w1. by split_and!.
  - unfold rekeyDevice. simpl. fold request.
    destruct (device_rekey request (files w1)) as [ok|msg] eqn:Hrekey; simpl.
    + destruct (deploy_and_relocate options project c w1) as [out w'] eqn:Hdeploy.
      exists out, {| world := w'; rekeys := rekeys s ++ [request] |}.
      split_and!; [| by right | done |].
      { destruct out as [[]|message| |code]; try done.
        exfalso. eapply deploy_and_relocate_handles; [exact Hdeploy | reflexivity]. }
      simpl. intros _. split; [done |]. exists w1. split_and!; try done.
      intros _. split; [done |]. by eexists.
    + eexists _, _. split_and!; [done | by right | done |]. simpl.
      assert (Heff : effects w1 = effects (world s)).
      { unfold ensureDirectoryExists, mkdirSync_recursive in Hdir.
        repeat (match type of Hdir with
                | context [negb ?b] => destruct b
                | context [stat ?f ?p] => destruct (stat f p) as [[??|]|]
                | context [decide ?P] => destruct (decide P)
                end; simpl in Hdir);
          by simplify_eq. }
      by rewrite Heff.
Qed.

End action_facts.

(** ** How the deploy stage ends *)

Section ending_facts.
Import Generate Notions Readings.
Context `{PathModule}.

(** The move and the report end the process with 0, the file at the
    output path then being there, or throw. *)
Lemma move_and_report_ends packagePath outputLocation w :
  ∃ out w' rest,
    move_and_report packagePath outputLocation w = (out, w')
    ∧ effects w' = effects w ++ rest
    ∧ Forall (λ e, is_file_move e = true) rest
    ∧ ((out = Exits 0 ∧ is_Some (stat (files w') outputLocation))
       ∨ ∃ message, out = Throws message).
Proof.
  unfold move_and_report, relocate, mbind, M_bind, mret, M_ret.
  assert (Hreport : ∀ w0 rest,
    effects w0 = effects w ++ rest →
    Forall (λ e, is_file_move e = true) rest →
    ∃ out w' rest',
      match statSync_size outputLocation w0 with
      | (Next a, w') => process_exit (A := ()) 0 w'
      | (Throws msg, w') => (Throws msg, w')
      | (Returns, w') => (Returns, w')
      | (Exits n, w') => (Exits n, w')
      end = (out, w')
      ∧ effects w' = effects w ++ rest'
      ∧ Forall (λ e, is_file_move e = true) rest'
      ∧ ((out = Exits 0 ∧ is_Some (stat (files w') outputLocation))
         ∨ ∃ message, out = Throws message)).
  { intros w0 rest Heff Hrest. unfold statSync_size, process_exit.
    destruct (stat (files w0) outputLocation) as [[content mtime|]|] eqn:Hstat.
    - eexists _, _, rest. split_and!; [done.. |]. left. by rewrite Hstat.
    - eexists _, _, rest. split_and!; [done.. |]. left. by rewrite Hstat.
    - eexists _, _, rest. split_and!; [done.. |]. right. by eexists. }
  destruct (JsString.truthy packagePath && _); simpl.
  - unfold copyFileSync, unlinkSync, emit.
    repeat (match goal with
            | |- context [stat ?f ?p] => destruct (stat f p) as [[? ?|]|]
            | |- context [decide ?P] => destruct (decide P)
            | |- context [bool_decide ?P] => destruct (bool_decide P)
            end; simpl);
      first
        [ solve [ apply Hreport with (rest := []);
                  [simpl; by rewrite ?app_nil_r | by repeat constructor] ]
        | solve [ apply Hreport with (rest := [CopyFile packagePath outputLocation]);
                  [simpl; by rewrite <- ?app_assoc | by repeat constructor] ]
        | solve [ apply Hreport
                    with (rest := [CopyFile packagePath outputLocation;
                                   Unlink packagePath]);
                  [simpl; by rewrite <- ?app_assoc | by repeat constructor] ]
        | solve [ move_throws (@nil Effect) ]
        | solve [ move_throws [CopyFile packagePath outputLocation] ] ].
  - apply Hreport with (rest := []); [by rewrite app_nil_r | done].
Qed.

(** The deploy step ends the process only with 1, after the prompt that
    follows a deploy that timed out was answered no. *)
Lemma deploy_step_ends options c w :
  ∃ r w1,
    deploy_step options c w = (r, w1)
    ∧ ∀ code, r = Exits code →
        code = 1 ∧ packageOnly options = false ∧ trySimple c = false
        ∧ effects w1
          = effects w
            ++ [DeployAndSign (deploymentTimeout options);
                Prompt fallback_question].
Proof.
  unfold deploy_step.
  destruct (packageOnly options) eqn:Hpkg;
    unfold race, try_catchM, mbind, M_bind, emit, backend_call, throw,
      process_exit, action_return; simpl;
    repeat (match goal with
            | |- context [deploy_duration c] => destruct (deploy_duration c)
            | |- context [?d <? ?t] => destruct (d <? t)
            | |- context [deployAndSignPackage c ?f] =>
                destruct (deployAndSignPackage c f) as [[?|?] ?]
            | |- context [createPackage c ?f] =>
                destruct (createPackage c f) as [[?|?] ?]
            | |- context [JsString.includes ?a ?b] =>
                destruct (JsString.includes a b)
            | |- context [trySimple c] => destruct (trySimple c) eqn:Htry
            end; simpl);
    eexists _, _; (split; [reflexivity |]); intros code [= <-];
    simpl; by rewrite <- ?app_assoc.
Qed.

(** X18: the deploy stage never ends in an error that is not handled.
    It ends the process with 0, and then there is a file at the output
    path; or with 1, only after the one prompt that follows a deploy that
    timed out was answered no; or the action returns, which leaves the
    status 0. *)
Theorem deploy_and_relocate_ends options project c w :
  ∃ out w',
    deploy_and_relocate options project c w = (out, w')
    ∧ (out = Returns ∨ out = Exits 0 ∨ out = Exits 1)
    ∧ (exit_status out = 0 ∨ exit_status out = 1)
    ∧ (out = Exits 0 → is_Some (stat (files w') (outputLocation project)))
    ∧ (out = Exits 1 →
       packageOnly options = false ∧ trySimple c = false
       ∧ effects w'
         = effects w
           ++ [DeployAndSign (deploymentTimeout options);
               Prompt fallback_question]).
Proof.
  rewrite deploy_and_relocate_unfold.
  destruct (deploy_step_ends options c w) as (r & w1 & -> & Hexit).
  destruct r as [p|msg| |code].
  - destruct (move_and_report_ends p (outputLocation project) w1)
      as (out & w' & rest & -> & _ & _ & [[-> Hstat]|[message ->]]).
    + eexists _, _. split_and!; [done | by right; left | by left | done | done].
    + eexists _, _. split_and!; [done | by left | by left | done | done].
  - eexists _, _. split_and!; [done | by left | by left | done | done].
  - eexists _, _. split_and!; [done | by left | by left | done | done].
  - destruct (Hexit code eq_refl) as (-> & ? & ? & ?).
    eexists _, _. split_and!; [done | by right; right | by right | done | done].
Qed.

(** X19: with --package-only the deploy is never started and nothing is
    asked: a package is made of what the device holds, and all that follows
    is the move of the file. *)
Theorem package_only_never_deploys options project c w :
  packageOnly options = true →
  ∃ out w' rest,
    deploy_and_relocate options project c w = (out, w')
    ∧ effects w' = effects w ++ CreatePackage :: rest
    ∧ Forall (λ e, is_file_move e = true) rest
    ∧ (out = Returns ∨ out = Exits 0).
Proof.
  intros Hpkg. rewrite deploy_and_relocate_unfold.
  unfold deploy_step. rewrite Hpkg.
  unfold try_catchM, mbind, M_bind, emit, backend_call, action_return. simpl.
  destruct (createPackage c (files w)) as [[p|msg] files']; simpl.
  - edestruct (move_and_report_ends p (outputLocation project))
      as (out & w' & rest & -> & Heff & Hrest & [[-> Hstat]|[message ->]]).
    + eexists _, _, rest. simpl in Heff.
      split_and!; [done | by rewrite Heff, <- app_assoc | done | by right].
    + eexists _, _, rest. simpl in Heff.
      split_and!; [done | by rewrite Heff, <- app_assoc | done | by left].
  - eexists _, _, []. split_and!; [done | done | done | by left].
Qed.

End ending_facts.

(** ** The project list *)

Section config_facts.
Import ConfigManager ProjectCommands Readings.
Implicit Types (this : ConfigManager) (l : list Project.t) (p : Project.t).
Implicit Types (name n : string).

Lemma find_named_cons n p l :
  snd <$> list_find (named n) (p :: l)
  = if decide (Project.name p = n) then Some p
    else snd <$> list_find (named n) l.
Proof.
  cbn. unfold named at 1. destruct (decide (Project.name p = n)); [done |].
  by destruct (list_find (named n) l) as [[??]|].
Qed.

Lemma find_named_app n l1 l2 :
  snd <$> list_find (named n) (l1 ++ l2)
  = match snd <$> list_find (named n) l1 with
    | Some p => Some p
    | None => snd <$> list_find (named n) l2
    end.
Proof.
  induction l1 as [|p l1 IH]; [done |].
  rewrite <- app_comm_cons, !find_named_cons.
  by destruct (decide (Project.name p = n)).
Qed.

Lemma find_named_None n l :
  snd <$> list_find (named n) l = None ↔ n ∉ Project.name <$> l.
Proof.
  induction l as [|p l IH].
  - split; [intros _; apply not_elem_of_nil | done].
  - rewrite find_named_cons, fmap_cons, not_elem_of_cons.
    destruct (decide (Project.name p = n)) as [Heq|Hne].
    + split; [done | intros [? _]; congruence].
    + rewrite IH. split; [intros ?; split; [congruence | done] | by intros [_ ?]].
Qed.

Lemma find_named_Some n l p :
  snd <$> list_find (named n) l = Some p → p ∈ l ∧ Project.name p = n.
Proof.
  induction l as [|q l IH]; [done |].
  rewrite find_named_cons. destruct (decide (Project.name q = n)).
  - intros [= <-]. split; [apply list_elem_of_here | done].
  - intros [? ?]%IH. split; [by apply list_elem_of_further | done].
Qed.

(** What [splice(index, 1)] at the first match leaves. *)
Lemma delete_first n l :
  match list_find (named n) l with
  | Some (index, _) =>
      ∃ l1 p l2, l = l1 ++ p :: l2 ∧ delete index l = l1 ++ l2
        ∧ Project.name p = n ∧ n ∉ Project.name <$> l1
  | None => n ∉ Project.name <$> l
  end.
Proof.
  induction l as [|q l IH]; [apply not_elem_of_nil |].
  cbn. unfold named at 1. destruct (decide (Project.name q = n)) as [Heq|Hne].
  - exists [], q, l. split_and!; [done | done | done | apply not_elem_of_nil].
  - destruct (list_find (named n) l) as [[index p']|]; simpl.
    + destruct IH as (l1 & p & l2 & -> & Hdel & Hp & Hl1).
      exists (q :: l1), p, l2. split_and!; [done | | done |].
      * simpl. by rewrite Hdel.
      * rewrite fmap_cons, not_elem_of_cons. split; [congruence | done].
    + rewrite not_elem_of_cons. split; [congruence | done].
Qed.

(** What the assignment at the first match leaves. *)
Lemma insert_first n l q :
  match list_find (named n) l with
  | Some (index, existing) =>
      ∃ l1 l2, l = l1 ++ existing :: l2
        ∧ <[index := q]> l = l1 ++ q :: l2
        ∧ Project.name existing = n ∧ n ∉ Project.name <$> l1
  | None => n ∉ Project.name <$> l
  end.
Proof.
  induction l as [|r l IH]; [apply not_elem_of_nil |].
  cbn. unfold named at 1. destruct (decide (Project.name r = n)) as [Heq|Hne].
  - exists [], l. split_and!; [done | done | done | apply not_elem_of_nil].
  - destruct (list_find (named n) l) as [[index p']|]; simpl.
    + destruct IH as (l1 & l2 & -> & Hins & Hp & Hl1).
      exists (r :: l1), l2. split_and!; [done | | done |].
      * simpl. by rewrite Hins.
      * rewrite fmap_cons, not_elem_of_cons. split; [congruence | done].
    + rewrite not_elem_of_cons. split; [congruence | done].
Qed.

Lemma getProject_found this name p :
  getProject this name = Some p →
  ∃ index l1 l2,
    list_find (named name) (getProjects this) = Some (index, p)
    ∧ getProjects this = l1 ++ p :: l2
    ∧ delete index (getProjects this) = l1 ++ l2
    ∧ (∀ q, <[index := q]> (getProjects this) = l1 ++ q :: l2)
    ∧ Project.name p = name
    ∧ name ∉ Project.name <$> l1.
Proof.
  unfold getProject, getProjects. intros Hget.
  pose proof (delete_first name (projects (config this))) as Hdel.
  destruct (list_find (named name) (projects (config this)))
    as [[index existing]|] eqn:Hfind; [| done].
  injection Hget as ->. destruct Hdel as (l1 & p' & l2 & Hl & Hdel & Hp & Hl1).
  assert (p' = p) as ->.
  { pose proof (find_named_app name l1 (p' :: l2)) as Happ.
    rewrite <- Hl, Hfind, (proj2 (find_named_None _ _) Hl1), find_named_cons in Happ.
    rewrite decide_True in Happ by done. by injection Happ. }
  exists index, l1, l2. split_and!; try done.
  intros q. pose proof (insert_first name (projects (config this)) q) as Hins.
  rewrite Hfind in Hins. destruct Hins as (k1 & k2 & Hk & Hins & _ & Hk1).
  rewrite Hins. rewrite Hl in Hk.
  assert (length l1 = length k1) as Hlen.
  { destruct (decide (length l1 < length k1)%nat) as [Hlt|Hge].
    - destruct Hk1. apply list_elem_of_fmap. exists p. split; [done |].
      apply (list_elem_of_lookup_2 _ (length l1)).
      apply (f_equal (λ l, l !! length l1)) in Hk.
      rewrite list_lookup_middle in Hk by done.
      by rewrite lookup_app_l in Hk by done.
    - destruct (decide (length k1 < length l1)%nat) as [Hlt|Hge']; [| lia].
      destruct Hl1. apply list_elem_of_fmap. exists p. split; [done |].
      apply (list_elem_of_lookup_2 _ (length k1)).
      apply (f_equal (λ l, l !! length k1)) in Hk.
      rewrite (list_lookup_middle k1) in Hk by done.
      by rewrite lookup_app_l in Hk by done. }
  apply app_inj_1 in Hk as [-> Hk]; [| done]. by injection Hk as ->.
Qed.

Lemma getProject_None this name :
  getProject this name = None ↔ name ∉ names this.
Proof. apply find_named_None. Qed.

Lemma removeProject_found this name p :
  getProject this name = Some p →
  ∃ l1 l2,
    getProjects this = l1 ++ p :: l2
    ∧ removeProject this name = (true, saveConfig (with_projects this (l1 ++ l2)))
    ∧ Project.name p = name
    ∧ name ∉ Project.name <$> l1.
Proof.
  intros (index & l1 & l2 & Hfind & Hl & Hdel & _ & Hp & Hl1)%getProject_found.
  exists l1, l2. unfold removeProject, getProjects in *.
  by rewrite Hfind, Hdel.
Qed.

Lemma removeProject_missing this name :
  getProject this name = None → removeProject this name = (false, this).
Proof.
  unfold getProject, removeProject.
  by destruct (list_find _ _) as [[??]|].
Qed.

Lemma updateProject_found this name updates p :
  getProject this name = Some p →
  ∃ l1 l2,
    getProjects this = l1 ++ p :: l2
    ∧ updateProject this name updates
      = (true, saveConfig (with_projects this (l1 ++ spread p updates :: l2)))
    ∧ Project.name p = name
    ∧ name ∉ Project.name <$> l1.
Proof.
  intros (index & l1 & l2 & Hfind & Hl & _ & Hins & Hp & Hl1)%getProject_found.
  exists l1, l2. unfold updateProject, getProjects in *.
  by rewrite Hfind, Hins.
Qed.

Lemma updateProject_missing this name updates :
  getProject this name = None → updateProject this name updates = (false, this).
Proof.
  unfold getProject, updateProject.
  by destruct (list_find _ _) as [[??]|].
Qed.

Lemma getProject_saved this l n :
  getProject (saveConfig (with_projects this l)) n
  = snd <$> list_find (named n) l.
Proof. done. Qed.

(** X20: [removeProject] says whether the name was there; if it was, the
    first project of that name is taken out and the file is written; every
    other project stays, in its place; and if no name was used twice the
    name is free afterwards. *)
Theorem removeProject_takes_the_first_out this name :
  let this' := (removeProject this name).2 in
  (removeProject this name).1 = bool_decide (is_Some (getProject this name))
  ∧ (getProject this name = None → this' = this)
  ∧ (∀ n, n ≠ name → getProject this' n = getProject this n)
  ∧ (∀ p, getProject this name = Some p →
       (∃ l1 l2, getProjects this = l1 ++ p :: l2
          ∧ getProjects this' = l1 ++ l2
          ∧ name ∉ Project.name <$> l1)
       ∧ getRokuDevice this' = getRokuDevice this
       ∧ file this' = Some (config this'))
  ∧ (NoDup (names this) → getProject this' name = None ∧ NoDup (names this')).
Proof.
  destruct (getProject this name) as [p|] eqn:Hget.
  - destruct (removeProject_found _ _ _ Hget) as (l1 & l2 & Hl & -> & Hp & Hl1).
    simpl. split_and!.
    + done.
    + done.
    + intros n Hn. rewrite getProject_saved. unfold getProject.
      unfold getProjects in Hl. rewrite Hl, !find_named_app, find_named_cons.
      by rewrite decide_False by congruence.
    + intros ? [= <-]. split_and!; [| done | done]. by exists l1, l2.
    + unfold names, getProjects in *. simpl. rewrite Hl.
      rewrite !fmap_app, fmap_cons.
      intros Hnd. apply NoDup_app in Hnd as (Hnd1 & Hdisj & Hnd2).
      apply NoDup_cons in Hnd2 as [Hp2 Hnd2]. split.
      * rewrite getProject_saved. apply find_named_None.
        rewrite fmap_app, not_elem_of_app. split; [done | congruence].
      * apply NoDup_app. split_and!; [done | | done].
        intros x Hx1 Hx2. apply (Hdisj x Hx1). by apply list_elem_of_further.
  - rewrite (removeProject_missing _ _ Hget). simpl.
    split_and!; try done.
Qed.

(** X21: [updateProject] says whether the name was there; if it was not,
    nothing changes; if it was, the first project of that name takes every
    property the update has and keeps the others, in its place, and the
    file is written; projects of other names are found as before. *)
Theorem updateProject_changes_the_first this name updates :
  let this' := (updateProject this name updates).2 in
  (updateProject this name updates).1
  = bool_decide (is_Some (getProject this name))
  ∧ (getProject this name = None → this' = this)
  ∧ (∀ existing, getProject this name = Some existing →
       let updated := spread existing updates in
       (∃ l1 l2, getProjects this = l1 ++ existing :: l2
          ∧ getProjects this' = l1 ++ updated :: l2
          ∧ name ∉ Project.name <$> l1)
       ∧ (Project.name updated = name → getProject this' name = Some updated)
       ∧ (∀ n, n ≠ name → n ≠ Project.name updated →
            getProject this' n = getProject this n)
       ∧ Project.files updated
         = match PartialProject.files updates with
           | Some v => Some v
           | None => Project.files existing
           end
       ∧ getRokuDevice this' = getRokuDevice this
       ∧ file this' = Some (config this')).
Proof.
  destruct (getProject this name) as [p|] eqn:Hget.
  - destruct (updateProject_found _ _ updates _ Hget)
      as (l1 & l2 & Hl & -> & Hp & Hl1).
    simpl. split_and!; [done | done |].
    intros ? [= <-]. split_and!.
    + by exists l1, l2.
    + intros Hname. rewrite getProject_saved.
      rewrite find_named_app, (proj2 (find_named_None _ _) Hl1), find_named_cons.
      by rewrite decide_True.
    + intros n Hn Hn'. rewrite getProject_saved. unfold getProject.
      unfold getProjects in Hl. rewrite Hl, !find_named_app, !find_named_cons.
      rewrite (decide_False (P := Project.name (spread p updates) = n))
        by (simpl; congruence).
      by rewrite decide_False by congruence.
    + done.
    + done.
    + done.
  - rewrite (updateProject_missing _ _ _ Hget). simpl.
    split_and!; [done | done |]. by intros ? [=].
Qed.

(** X22: [addProject] puts the project last and checks nothing: under a
    name that is taken the new project is never found, the earlier one
    still answers; under a new name it is found, and every other name is
    found as before. *)
Theorem addProject_appends this project n :
  let this' := addProject this project in
  getProjects this' = getProjects this ++ [project]
  ∧ getProject this' n
    = match getProject this n with
      | Some earlier => Some earlier
      | None => if decide (Project.name project = n) then Some project else None
      end
  ∧ getRokuDevice this' = getRokuDevice this
  ∧ file this' = Some (config this').
Proof.
  unfold addProject, getProject, getProjects. simpl. split_and!; try done.
  by rewrite find_named_app, find_named_cons.
Qed.

Lemma call_saves this c :
  file this = Some (config this) →
  file (call this c) = Some (config (call this c)).
Proof.
  intros Hsaved. destruct c as [device|project|name updates|name]; simpl;
    try done.
  - unfold updateProject. by destruct (list_find _ _) as [[??]|].
  - unfold removeProject. by destruct (list_find _ _) as [[??]|].
Qed.

(** X23: whatever is called on it, a [ConfigManager] leaves in the file
    the configuration it holds, so the next command, which makes a new
    one from the file, starts from what this one left. *)
Theorem config_file_follows_every_call found calls :
  let this := foldl call (new found) calls in
  file this = Some (config this)
  ∧ new (file this) = this.
Proof.
  assert (Hsaved : ∀ this,
            file this = Some (config this) →
            file (foldl call this calls) = Some (config (foldl call this calls))).
  { induction calls as [|c calls IH]; intros this Hthis; [done |].
    simpl. by apply IH, call_saves. }
  intros this.
  assert (Hthis : file this = Some (config this)).
  { apply Hsaved. unfold new, loadConfig. simpl. by destruct found. }
  split; [done |]. clearbody this. unfold new, loadConfig. simpl.
  rewrite Hthis. destruct this as [c f]. simpl in *. by subst.
Qed.

(** X24: what [edit] saves.  With the name as it was, the project is
    changed where it is and keeps the file patterns it had; with a new
    name, which the prompt only accepts when it is free, the old name is
    gone, the project is last in the list and its file patterns are lost.
    Either way no name is used twice afterwards. *)
Theorem edit_save_renames_by_replacing this project answers :
  getProject this (Project.name project) = Some project →
  NoDup (names this) →
  edit_validate_name this project (Answers.name answers) = Accepted →
  let this' := edit_save this project answers in
  let kept := if decide (Answers.name answers = Project.name project)
              then Project.files project else None in
  NoDup (names this')
  ∧ getProject this' (Answers.name answers)
    = Some {| Project.name := Answers.name answers;
              Project.rootDir := Answers.rootDir answers;
              Project.signKey := Answers.signKey answers;
              Project.signPackageLocation := Answers.signPackageLocation answers;
              Project.outputLocation := Answers.outputLocation answers;
              Project.files := kept |}
  ∧ (Answers.name answers ≠ Project.name project →
     getProject this' (Project.name project) = None
     ∧ last (getProjects this') = Some (as_project answers))
  ∧ (∀ n, n ≠ Project.name project → n ≠ Answers.name answers →
       getProject this' n = getProject this n)
  ∧ length (getProjects this') = length (getProjects this).
Proof.
  intros Hproject Hnd Hvalid this' kept. unfold this', kept, edit_save.
  clear this' kept.
  assert (Hfree : Answers.name answers ≠ Project.name project →
                  getProject this (Answers.name answers) = None).
  { intros Hne. unfold edit_validate_name in Hvalid.
    destruct (negb (JsString.truthy _)); [done |].
    destruct (negb (name_pattern _)); [done |].
    rewrite bool_decide_eq_true_2 in Hvalid by done. simpl in Hvalid.
    case_bool_decide as Hsome; [done |].
    destruct (getProject this (Answers.name answers)) as [?|]; [| done].
    by destruct Hsome. }
  case_bool_decide as Hrenamed.
  - rewrite decide_False by done. specialize (Hfree Hrenamed).
    destruct (removeProject_found _ _ _ Hproject) as (l1 & l2 & Hl & -> & _ & Hl1).
    simpl. unfold names in Hnd. unfold getProject in Hfree.
    unfold getProjects in *. rewrite Hl in Hnd, Hfree.
    rewrite fmap_app, fmap_cons in Hnd.
    apply NoDup_app in Hnd as (Hnd1 & Hdisj & Hnd2).
    apply NoDup_cons in Hnd2 as [Hp2 Hnd2].
    rewrite find_named_app, find_named_cons in Hfree.
    rewrite decide_False in Hfree by done.
    assert (Hfree1 : snd <$> list_find (named (Answers.name answers)) l1 = None)
      by (by destruct (snd <$> list_find _ l1)).
    rewrite Hfree1 in Hfree.
    unfold addProject. rewrite !getProject_saved. unfold names, getProjects.
    simpl. split_and!.
    + rewrite !fmap_app. simpl.
      apply NoDup_app. split_and!; [| | apply NoDup_singleton].
      * apply NoDup_app. split_and!; [done | | done].
        intros x Hx1 Hx2. apply (Hdisj x Hx1). by apply list_elem_of_further.
      * intros x Hx ->%list_elem_of_singleton.
        apply elem_of_app in Hx as [Hx|Hx].
        -- by apply find_named_None in Hfree1.
        -- by apply find_named_None in Hfree.
    + rewrite !find_named_app, Hfree1, Hfree, find_named_cons.
      by rewrite decide_True.
    + intros _. split.
      * rewrite !find_named_app, find_named_cons.
        rewrite (proj2 (find_named_None _ _) Hl1).
        rewrite (proj2 (find_named_None _ _) Hp2).
        by rewrite decide_False by done.
      * by rewrite last_snoc.
    + intros n Hn Hn'. rewrite getProject_saved. unfold getProject. rewrite Hl.
      rewrite !find_named_app, !find_named_cons.
      rewrite !decide_False by done.
      destruct (snd <$> list_find (named n) l1); [done |].
      by destruct (snd <$> list_find (named n) l2).
    + rewrite Hl, !length_app. simpl. lia.
  - rewrite decide_True by done.
    destruct (updateProject_found _ _ (as_updates answers) _ Hproject)
      as (l1 & l2 & Hl & -> & _ & Hl1).
    simpl. unfold names in Hnd. unfold getProjects in *.
    unfold names, getProjects. rewrite !getProject_saved. simpl.
    assert (Hupdated : spread project (as_updates answers)
                       = {| Project.name := Answers.name answers;
                            Project.rootDir := Answers.rootDir answers;
                            Project.signKey := Answers.signKey answers;
                            Project.signPackageLocation :=
                              Answers.signPackageLocation answers;
                            Project.outputLocation := Answers.outputLocation answers;
                            Project.files := Project.files project |}) by done.
    rewrite Hupdated. split_and!.
    + rewrite Hl in Hnd. rewrite fmap_app, fmap_cons in *. simpl.
      by rewrite Hrenamed.
    + rewrite find_named_app, find_named_cons.
      rewrite Hrenamed, (proj2 (find_named_None _ _) Hl1).
      by rewrite decide_True.
    + done.
    + intros n Hn Hn'. rewrite getProject_saved. unfold getProject. rewrite Hl.
      rewrite !find_named_app, !find_named_cons. simpl.
      by rewrite !decide_False by done.
    + rewrite Hl, !length_app. done.
Qed.

(** X25: what [add] saves.  A name the prompt accepts is made of
    letters, digits, hyphens and underscores and is not taken; the project
    is then found under it, with the answers given and no file patterns,
    the other projects are found as before and no name is used twice. *)
Theorem add_save_keeps_the_names_apart this answers :
  NoDup (names this) →
  add_validate_name this (Answers.name answers) = Accepted →
  let this' := add_save this answers in
  name_pattern (Answers.name answers) = true
  ∧ getProject this (Answers.name answers) = None
  ∧ NoDup (names this')
  ∧ getProject this' (Answers.name answers) = Some (as_project answers)
  ∧ (∀ n, n ≠ Answers.name answers → getProject this' n = getProject this n)
  ∧ file this' = Some (config this').
Proof.
  intros Hnd Hvalid this'. unfold this', add_save. clear this'.
  unfold add_validate_name in Hvalid.
  destruct (negb (JsString.truthy _)); [done |].
  destruct (name_pattern (Answers.name answers)); [| done].
  simpl in Hvalid. case_bool_decide as Hsome; [done |].
  assert (Hfree : getProject this (Answers.name answers) = None).
  { destruct (getProject this (Answers.name answers)); [| done].
    by destruct Hsome. }
  unfold addProject. rewrite getProject_saved. unfold names, getProjects in *.
  simpl. unfold getProject in *. split_and!; [done | done | | | | done].
  - rewrite fmap_app. apply NoDup_app.
    split_and!; [done | | apply NoDup_singleton].
    intros x Hx ->%list_elem_of_singleton. by apply find_named_None in Hfree.
  - rewrite find_named_app, Hfree, find_named_cons. by rewrite decide_True.
  - intros n Hn. simpl. rewrite find_named_app, find_named_cons.
    rewrite decide_False by done.
    by destruct (snd <$> list_find (named n) (projects (config this))).
Qed.

End config_facts.

(** ** The properties on concrete inputs *)

Section more_examples.
Import RokuDiscovery Notions Readings Scenario Cases.

Lemma discoverViaSsdp_result_is_final_witness :
  discoverViaSsdp one_reply = Some [bedroom_parsed]
  ∧ NoDup (ip <$> [bedroom_parsed])
  ∧ ∀ later, discoverViaSsdp (one_reply ++ later) = Some [bedroom_parsed].
Proof.
  assert (Hfound : discoverViaSsdp one_reply = Some [bedroom_parsed])
    by (by vm_compute).
  split; [exact Hfound |].
  exact (discoverViaSsdp_result_is_final one_reply [bedroom_parsed] Hfound).
Defined.

Lemma discoverDevices_of_one_probe_witness :
  NoDup (ip <$> [bedroom_ssdp; kitchen])
  ∧ discoverDevices RootCollation.localeCompare
      (fulfilled [bedroom_ssdp; kitchen]) (rejected "EADDRINUSE")
    = Return (sort_by_name RootCollation.localeCompare [bedroom_ssdp; kitchen])
  ∧ discoverDevices RootCollation.localeCompare
      (rejected "EADDRINUSE") (fulfilled [bedroom_ssdp; kitchen])
    = Return (sort_by_name RootCollation.localeCompare [bedroom_ssdp; kitchen]).
Proof.
  assert (HA : NoDup (ip <$> [bedroom_ssdp; kitchen])) by compute_done.
  split; [exact HA |].
  destruct (discoverDevices_of_one_probe RootCollation.localeCompare
              [bedroom_ssdp; kitchen] (rejected "EADDRINUSE") HA eq_refl)
    as (Hfirst & Hsecond & _).
  split; [exact Hfirst | exact Hsecond].
Defined.

Lemma discover_keeps_the_scan_records_witness :
  discover RootCollation.localeCompare one_reply one_roku []
  = Some (Return [bedroom_parsed])
  ∧ ∃ ssdp,
      discoverViaSsdp one_reply = Some ssdp
      ∧ [bedroom_parsed]
        ≡ₚ discoverViaNetworkScan one_roku (getNetworkRanges [])
           ++ filter (λ a, ip a ∉ ip <$> discoverViaNetworkScan one_roku
                                            (getNetworkRanges []))
                ssdp.
Proof.
  assert (Hfound : discover RootCollation.localeCompare one_reply one_roku []
                   = Some (Return [bedroom_parsed])) by (by vm_compute).
  split; [exact Hfound |].
  exact (discover_keeps_the_scan_records RootCollation.localeCompare
           one_reply one_roku [] [bedroom_parsed] Hfound).
Defined.

Lemma resolve_command_keeps_the_command_line_witness :
  VscodeTasks.resolve_command build_task = Return ("npm", ["run"; "build"])
  ∧ shell_line ("npm", ["run"; "build"]) = "npm run build".
Proof.
  assert (Hresolved : VscodeTasks.resolve_command build_task
                      = Return ("npm", ["run"; "build"])) by reflexivity.
  split; [exact Hresolved |].
  exact (resolve_command_keeps_the_command_line build_task _ Hresolved).
Defined.

Lemma package_only_never_deploys_witness :
  Generate.packageOnly package_only = true
  ∧ ∃ out w' rest,
      Generate.deploy_and_relocate (H := PosixPath.posix) package_only demo
        stalled_and_declined staged = (out, w')
      ∧ Generate.effects w'
        = Generate.effects staged ++ Generate.CreatePackage :: rest
      ∧ Forall (λ e, is_file_move e = true) rest
      ∧ (out = Generate.Returns ∨ out = Generate.Exits 0).
Proof.
  split; [reflexivity |].
  exact (package_only_never_deploys (H := PosixPath.posix) package_only demo
           stalled_and_declined staged eq_refl).
Defined.

Lemma edit_save_renames_by_replacing_witness :
  ConfigManager.getProject two_projects "alpha" = Some alpha
  ∧ NoDup (names two_projects)
  ∧ ProjectCommands.edit_validate_name two_projects alpha "gamma"
    = ProjectCommands.Accepted
  ∧ ConfigManager.getProject
      (ProjectCommands.edit_save two_projects alpha renamed) "gamma"
    = Some {| Project.name := "gamma";
              Project.rootDir := "/work/alpha";
              Project.signKey := "abc";
              Project.signPackageLocation := "/work/alpha.pkg";
              Project.outputLocation := "/out/alpha.pkg";
              Project.files := None |}
  ∧ ConfigManager.getProject
      (ProjectCommands.edit_save two_projects alpha renamed) "alpha"
    = None.
Proof.
  assert (Hproject : ConfigManager.getProject two_projects (Project.name alpha)
                     = Some alpha) by reflexivity.
  assert (Hnames : NoDup (names two_projects)) by compute_done.
  assert (Hvalid : ProjectCommands.edit_validate_name two_projects alpha
                     (ProjectCommands.Answers.name renamed)
                   = ProjectCommands.Accepted) by reflexivity.
  split; [exact Hproject |]. split; [exact Hnames |]. split; [exact Hvalid |].
  destruct (edit_save_renames_by_replacing two_projects alpha renamed
              Hproject Hnames Hvalid) as (_ & Hnew & Hold & _).
  split; [exact Hnew |].
  assert (Hrenamed : ProjectCommands.Answers.name renamed ≠ Project.name alpha)
    by discriminate.
  exact (proj1 (Hold Hrenamed)).
Defined.

Lemma add_save_keeps_the_names_apart_witness :
  NoDup (names two_projects)
  ∧ ProjectCommands.add_validate_name two_projects "gamma"
    = ProjectCommands.Accepted
  ∧ NoDup (names (ProjectCommands.add_save two_projects renamed))
  ∧ ConfigManager.getProject
      (ProjectCommands.add_save two_projects renamed) "gamma"
    = Some (ProjectCommands.as_project renamed).
Proof.
  assert (Hnames : NoDup (names two_projects)) by compute_done.
  assert (Hvalid : ProjectCommands.add_validate_name two_projects
                     (ProjectCommands.Answers.name renamed)
                   = ProjectCommands.Accepted) by reflexivity.
  split; [exact Hnames |]. split; [exact Hvalid |].
  destruct (add_save_keeps_the_names_apart two_projects renamed Hnames Hvalid)
    as (_ & _ & Hapart & Hfound & _).
  split; [exact Hapart | exact Hfound].
Defined.

Lemma createPackage_returns_a_path_that_exists_witness :
  ∃ fs',
    RokuDeployPackaging.createPackage (H := PosixPath.posix) roku_deploy
      demo_package ∅
    = (Return "out/demo.pkg", fs')
    ∧ existsSync fs' "out/demo.pkg" = true.
Proof.
  pose (fs' := (RokuDeployPackaging.createPackage (H := PosixPath.posix)
                  roku_deploy demo_package ∅).2).
  assert (Hcreated : RokuDeployPackaging.createPackage (H := PosixPath.posix)
                       roku_deploy demo_package ∅
                     = (Return "out/demo.pkg", fs')) by (by vm_compute).
  exists fs'. split; [exact Hcreated |].
  exact (proj1 (createPackage_returns_a_path_that_exists (H := PosixPath.posix)
                  roku_deploy demo_package ∅ "out/demo.pkg" fs' Hcreated)).
Defined.

Lemma from_configuration_checks_first_witness :
  RokuDeployManager.valid
    (RokuDeployManager.validateProject (H := PosixPath.posix)
       (Generate.files staged)
       (VscodeConfig.getBuildDirectory (H := PosixPath.posix)
          isAbsolute no_launch no_bsconfig (Generate.files staged) "/app"))
  = false
  ∧ GenerateAction.from_configuration (H := PosixPath.posix)
      isAbsolute no_launch no_bsconfig rekey_refused
      fresh_build demo saved_device stalled_and_declined not_built
    = (Generate.Returns, not_built).
Proof.
  assert (Hinvalid :
    RokuDeployManager.valid
      (RokuDeployManager.validateProject (H := PosixPath.posix)
         (Generate.files (GenerateAction.world not_built))
         (VscodeConfig.getBuildDirectory (H := PosixPath.posix)
            isAbsolute no_launch no_bsconfig
            (Generate.files (GenerateAction.world not_built))
            (Generate.rootDir demo)))
    = false) by reflexivity.
  split; [exact Hinvalid |].
  exact (proj1 (from_configuration_checks_first (H := PosixPath.posix)
                  isAbsolute no_launch no_bsconfig rekey_refused
                  fresh_build demo saved_device stalled_and_declined not_built
                  (or_introl Hinvalid))).
Defined.


(** An answer that is JSON reaches the code parsed: an object has no
    [includes], the TypeError is caught by [checkIfRokuDevice] and thrown
    on by [rekeyDevice]. *)
Example checkIfRokuDevice_json_answer :
  checkIfRokuDevice "10.0.0.7"
    (HttpResponse 200 (JsObject [("x", JsText "<device-info>")]))
  = Return None.
Proof. reflexivity. Qed.

Example rekeyDevice_json_answer :
  RokuInstaller.rekeyDevice (H := PosixPath.posix)
    (RokuAPI.new "192.168.1.20" "secret")
    {[ "/ref.pkg" := RegularFile "signed" 1 ]} "abc" "/ref.pkg"
    (λ _, HttpResponse 200 (JsObject [("status", JsText "ok")]))
  = inl (RokuInstaller.Error "response.data.includes is not a function").
Proof. by vm_compute. Qed.

(** Devices of one name stay in the order the map has them in. *)
Example sort_by_name_is_stable :
  let express (addr : string) :=
    {| ip := addr; name := "Roku Express"; modelName := "Roku Express";
       serialNumber := "Unknown"; softwareVersion := None; deviceType := None |} in
  sort_by_name RootCollation.localeCompare
    [living_room; express "192.168.1.1"; express "192.168.1.2"; kitchen;
     express "192.168.1.3"]
  = [kitchen; living_room; express "192.168.1.1"; express "192.168.1.2";
     express "192.168.1.3"].
Proof. by vm_compute. Qed.

(** The variables of the editor are not replaced: the staging folder and
    the output directory of the README's launch.json are looked for under a
    directory named after the variable and not found, and of the usual
    names dist comes before .out, so the output directory is taken where
    the staging folder was asked for first. *)
Example getBuildDirectory_keeps_the_variable :
  VscodeConfig.getBuildDirectory (H := PosixPath.posix) isAbsolute
    readme_launch no_bsconfig staged_and_built "/app"
  = "/app/dist"
  ∧ candidates (H := PosixPath.posix) isAbsolute readme_launch no_bsconfig
      staged_and_built "/app"
    = ["/app/${workspaceFolder}/.out"; "/app/${workspaceFolder}/dist";
       "/app/.build"; "/app/dist"; "/app/build"; "/app/out"; "/app/.out"].
Proof. split; by vm_compute. Qed.

(** An edit that keeps the name keeps the file patterns. *)
Example edit_save_keeps_the_files :
  ConfigManager.getProject
    (ProjectCommands.edit_save two_projects alpha
       {| ProjectCommands.Answers.name := "alpha";
          ProjectCommands.Answers.rootDir := "/work/alpha2";
          ProjectCommands.Answers.signKey := "abc";
          ProjectCommands.Answers.signPackageLocation := "/work/alpha.pkg";
          ProjectCommands.Answers.outputLocation := "/out/alpha.pkg" |})
    "alpha"
  = Some {| Project.name := "alpha";
            Project.rootDir := "/work/alpha2";
            Project.signKey := "abc";
            Project.signPackageLocation := "/work/alpha.pkg";
            Project.outputLocation := "/out/alpha.pkg";
            Project.files := Some ["source/**/*"; "manifest"] |}.
Proof. reflexivity. Qed.

(** A rekey that is refused ends the run before anything is deployed. *)
Example from_configuration_rekey_refused :
  let built : Generate.World :=
    {| Generate.files :=
         {[ "/app/manifest" := RegularFile "title=Demo" 1;
            "/app/source" := Directory;
            "/app/source/main.brs" := RegularFile "sub main()" 1;
            "/ref.pkg" := RegularFile "signed" 1 ]};
       Generate.now := 20;
       Generate.effects := [] |} in
  ∃ w',
    GenerateAction.from_configuration (H := PosixPath.posix)
      isAbsolute no_launch no_bsconfig rekey_refused
      fresh_build demo saved_device stalled_and_declined
      {| GenerateAction.world := built; GenerateAction.rekeys := [] |}
    = (Generate.Returns,
       {| GenerateAction.world := w';
          GenerateAction.rekeys :=
            [{| RekeyOptions.host := "192.168.1.20";
                RekeyOptions.password := "secret";
                RekeyOptions.rekeySignedPackage := "/ref.pkg";
                RekeyOptions.signingPassword := "abc" |}] |})
    ∧ Generate.effects w' = []
    ∧ Generate.files w' !! "/out" = Some Directory.
Proof. eexists. split; [by vm_compute |]. split; by vm_compute. Qed.

End more_examples.
